(** * The IPU3 pipeline handler and the generic timer of libcamera

    A shallow embedding of [src/libcamera/pipeline/ipu3/ipu3.cpp] and
    [src/libcamera/timer.cpp].

    - C++ [unsigned int] and [int] values are integers in [Z]; the places
      where the source computes modulo 2^32 (or 2^64) are written out with
      [u32] (or [u64]).
    - Pointers to streams, buffers and devices are identifiers.
    - [std::map] is a [gmap], [std::set] a [gset], vectors and deques are
      lists in iteration order.
    - The kernel side of the V4L2 devices is a [Driver]: a family of
      functions that answer each call from the history of calls made so
      far.  The handler's code threads that history through a state monad. *)

From Stdlib Require Import ZArith List Bool Lia Ascii String.
From stdpp Require Import base option list gmap sets strings pretty.

Open Scope Z_scope.

(** ** Constants of the kernel headers *)

Module Errno.
Definition ENOENT : Z := 2.
Definition ENOMEM : Z := 12.
Definition EACCES : Z := 13.
Definition EBUSY  : Z := 16.
Definition ENODEV : Z := 19.
Definition EINVAL : Z := 22.
End Errno.
Export Errno.

(** [v4l2_fourcc(a, b, c, d)] of [linux/videodev2.h]. *)
Definition v4l2_fourcc (a b c d : Z) : Z :=
  Z.lor (Z.lor a (Z.shiftl b 8)) (Z.lor (Z.shiftl c 16) (Z.shiftl d 24)).

Definition chr (c : Ascii.ascii) : Z := Z.of_N (Ascii.N_of_ascii c).

Definition MEDIA_BUS_FMT_FIXED        : Z := 0x0001.
Definition MEDIA_BUS_FMT_SBGGR10_1X10 : Z := 0x3007.
Definition MEDIA_BUS_FMT_SGBRG10_1X10 : Z := 0x300e.
Definition MEDIA_BUS_FMT_SGRBG10_1X10 : Z := 0x300a.
Definition MEDIA_BUS_FMT_SRGGB10_1X10 : Z := 0x300f.

Definition V4L2_PIX_FMT_NV12 : Z :=
  v4l2_fourcc (chr "N"%char) (chr "V"%char) (chr "1"%char) (chr "2"%char).
Definition V4L2_PIX_FMT_IPU3_SBGGR10 : Z :=
  v4l2_fourcc (chr "i"%char) (chr "p"%char) (chr "3"%char) (chr "b"%char).
Definition V4L2_PIX_FMT_IPU3_SGBRG10 : Z :=
  v4l2_fourcc (chr "i"%char) (chr "p"%char) (chr "3"%char) (chr "g"%char).
Definition V4L2_PIX_FMT_IPU3_SGRBG10 : Z :=
  v4l2_fourcc (chr "i"%char) (chr "p"%char) (chr "3"%char) (chr "G"%char).
Definition V4L2_PIX_FMT_IPU3_SRGGB10 : Z :=
  v4l2_fourcc (chr "i"%char) (chr "p"%char) (chr "3"%char) (chr "r"%char).

Definition MEDIA_ENT_F_CAM_SENSOR : Z := 0x00020001.

(** ** Machine integers *)

Definition UINT_MAX : Z := 2 ^ 32 - 1.

(** Conversion to [unsigned int]: reduction modulo 2^32. *)
Definition u32 (z : Z) : Z := z mod 2 ^ 32.

(** Conversion to [unsigned long long]: reduction modulo 2^64. *)
Definition u64 (z : Z) : Z := z mod 2 ^ 64.

Definition is_u32 (z : Z) : Prop := 0 <= z < 2 ^ 32.

(** ** Plain data structures *)

Module Size.
Record t := mk { width : Z; height : Z }.
Definition zero : t := mk 0 0.
End Size.

Module SizeRange.
Record t := mk { minWidth : Z; minHeight : Z; maxWidth : Z; maxHeight : Z }.
End SizeRange.

Module Rectangle.
Record t := mk { x : Z; y : Z; w : Z; h : Z }.
End Rectangle.

Module V4L2SubdeviceFormat.
Record t := mk { mbus_code : Z; width : Z; height : Z }.
(** [V4L2SubdeviceFormat format = {}] *)
Definition zero : t := mk 0 0 0.
End V4L2SubdeviceFormat.

Module V4L2DeviceFormat.
Record t := mk { width : Z; height : Z; fourcc : Z; planesCount : Z }.
(** [V4L2DeviceFormat format = {}] *)
Definition zero : t := mk 0 0 0 0.
End V4L2DeviceFormat.

Module StreamConfiguration.
Record t := mk { width : Z; height : Z; pixelFormat : Z; bufferCount : Z }.
(** [StreamConfiguration config = {}], also what [std::map::operator[]]
    inserts for a key that is not in the map. *)
Definition zero : t := mk 0 0 0 0.
End StreamConfiguration.

(** The value of [V4L2Subdevice::formats(pad)]: a map from media-bus code to
    the size ranges of that code, as the list of its entries in iteration
    order. *)
Definition FormatEnum : Type := list (Z * list SizeRange.t).

(** ** CIO2Device::mediaBusToFormat *)

Definition mediaBusToFormat (code : Z) : Z :=
  if code =? MEDIA_BUS_FMT_SBGGR10_1X10 then V4L2_PIX_FMT_IPU3_SBGGR10
  else if code =? MEDIA_BUS_FMT_SGBRG10_1X10 then V4L2_PIX_FMT_IPU3_SGBRG10
  else if code =? MEDIA_BUS_FMT_SGRBG10_1X10 then V4L2_PIX_FMT_IPU3_SGRBG10
  else if code =? MEDIA_BUS_FMT_SRGGB10_1X10 then V4L2_PIX_FMT_IPU3_SRGGB10
  else - EINVAL.

(** ** The format scans of CIO2Device::init and CIO2Device::configure *)

(** Body of the inner loop of [CIO2Device::init]: the cached maximum size
    and the code that produces it. *)
Definition init_size_step (mbusCode : Z) (acc : Size.t * Z) (size : SizeRange.t)
  : Size.t * Z :=
  let '(maxSize, mbusCode_) := acc in
  if (Size.width maxSize <? SizeRange.maxWidth size)
     && (Size.height maxSize <? SizeRange.maxHeight size)
  then (Size.mk (SizeRange.maxWidth size) (SizeRange.maxHeight size),
        u32 mbusCode)
  else acc.

Definition init_format_step (acc : Size.t * Z) (it : Z * list SizeRange.t)
  : Size.t * Z :=
  let mbusCode := mediaBusToFormat (fst it) in
  if mbusCode <? 0 then acc
  else fold_left (init_size_step mbusCode) (snd it) acc.

Definition init_scan (formats : FormatEnum) (acc : Size.t * Z) : Size.t * Z :=
  fold_left init_format_step formats acc.

(** Body of the inner loop of [CIO2Device::configure]: [best] and
    [sensorFormat]. *)
Definition configure_size_step (config : StreamConfiguration.t) (imageSize : Z)
    (code : Z) (acc : Z * V4L2SubdeviceFormat.t) (size : SizeRange.t)
  : Z * V4L2SubdeviceFormat.t :=
  let '(best, sensorFormat) := acc in
  if (SizeRange.maxWidth size <? StreamConfiguration.width config)
     || (SizeRange.maxHeight size <? StreamConfiguration.height config)
  then acc
  else
    let diff :=
      u32 (u32 (SizeRange.maxWidth size * SizeRange.maxHeight size)
           - imageSize) in
    if diff >=? best then acc
    else (diff,
          V4L2SubdeviceFormat.mk code (SizeRange.maxWidth size)
                                 (SizeRange.maxHeight size)).

Definition configure_format_step (config : StreamConfiguration.t)
    (imageSize : Z) (acc : Z * V4L2SubdeviceFormat.t)
    (it : Z * list SizeRange.t) : Z * V4L2SubdeviceFormat.t :=
  if mediaBusToFormat (fst it) <? 0 then acc
  else fold_left (configure_size_step config imageSize (fst it)) (snd it) acc.

(** The two loops of [CIO2Device::configure], from [best = ~0] and
    [sensorFormat = {}]. *)
Definition configure_scan (formats : FormatEnum) (config : StreamConfiguration.t)
  : Z * V4L2SubdeviceFormat.t :=
  let imageSize :=
    u32 (StreamConfiguration.width config * StreamConfiguration.height config) in
  fold_left (configure_format_step config imageSize) formats
            (UINT_MAX, V4L2SubdeviceFormat.zero).

(** ** Devices, the driver behind them, and the monad of the handler *)

(** A [Stream *] and a [Buffer *]: the identity of the object. *)
Definition Stream : Type := nat.
Definition Buffer : Type := nat.

(** A [V4L2Subdevice] and a [V4L2Device] are identified by the name of the
    media entity they were created from. *)
Inductive V4L2Subdevice := subdev (entity : string).
Inductive V4L2Device := videodev (entity : string).

(** The calls the handler makes that reach a device; [World] is the history
    of these calls, oldest first. *)
Inductive Call :=
| SubdevSetFormat (d : V4L2Subdevice) (pad : Z) (f : V4L2SubdeviceFormat.t)
| SubdevSetCrop (d : V4L2Subdevice) (pad : Z) (r : Rectangle.t)
| SubdevSetCompose (d : V4L2Subdevice) (pad : Z) (r : Rectangle.t)
| DevSetFormat (d : V4L2Device) (f : V4L2DeviceFormat.t)
| DevQueueBuffer (d : V4L2Device) (b : Buffer).

Definition World : Type := list Call.

(** The [V4L2Subdevice] and [V4L2Device] classes are not part of the
    handler: what a device answers is a parameter.  An answer is the
    integer the call returns and, for the calls that take a pointer to a
    format or rectangle, the value the call leaves behind that pointer.
    Answers to calls that change a device may depend on the calls made
    before; the formats a sub-device enumerates and the result of opening a
    device do not. *)
Class Driver := {
  drv_formats : V4L2Subdevice -> Z -> FormatEnum;
  drv_subdev_open : V4L2Subdevice -> Z;
  drv_dev_open : V4L2Device -> Z;
  drv_getFormat :
    World -> V4L2Subdevice -> Z -> Z * V4L2SubdeviceFormat.t;
  drv_setFormat :
    World -> V4L2Subdevice -> Z -> V4L2SubdeviceFormat.t
    -> Z * V4L2SubdeviceFormat.t;
  drv_setCrop :
    World -> V4L2Subdevice -> Z -> Rectangle.t -> Z * Rectangle.t;
  drv_setCompose :
    World -> V4L2Subdevice -> Z -> Rectangle.t -> Z * Rectangle.t;
  drv_devSetFormat :
    World -> V4L2Device -> V4L2DeviceFormat.t -> Z * V4L2DeviceFormat.t;
  drv_queueBuffer : World -> V4L2Device -> Buffer -> Z
}.

(** Computations of the handler: they read and extend the history of device
    calls, and have no result ([None]) where the C++ code has undefined
    behaviour (a null pointer dereferenced, [front()] of an empty
    container). *)
Definition M (A : Type) : Type := World -> option (A * World).

Definition ret_M {A} (a : A) : M A := fun w => Some (a, w).

Definition bind_M {A B} (m : M A) (k : A -> M B) : M B :=
  fun w => match m w with
           | Some (a, w') => k a w'
           | None => None
           end.

(** Dereference of a pointer that may be null. *)
Definition deref {A} (p : option A) : M A :=
  fun w => match p with Some a => Some (a, w) | None => None end.

Declare Scope handler_scope.
Delimit Scope handler_scope with M.
Notation "'do' x <- c ; k" := (bind_M c (fun x => k))
  (at level 10, x pattern, c at level 100, k at level 200) : handler_scope.

Section Devices.
Context `{Driver}.

Definition subdev_formats (d : V4L2Subdevice) (pad : Z) : FormatEnum :=
  drv_formats d pad.

Definition subdev_getFormat (d : V4L2Subdevice) (pad : Z)
  : M (Z * V4L2SubdeviceFormat.t) :=
  fun w => Some (drv_getFormat w d pad, w).

Definition subdev_setFormat (d : V4L2Subdevice) (pad : Z)
    (f : V4L2SubdeviceFormat.t) : M (Z * V4L2SubdeviceFormat.t) :=
  fun w => Some (drv_setFormat w d pad f, w ++ [SubdevSetFormat d pad f]).

Definition subdev_setCrop (d : V4L2Subdevice) (pad : Z) (r : Rectangle.t)
  : M (Z * Rectangle.t) :=
  fun w => Some (drv_setCrop w d pad r, w ++ [SubdevSetCrop d pad r]).

Definition subdev_setCompose (d : V4L2Subdevice) (pad : Z) (r : Rectangle.t)
  : M (Z * Rectangle.t) :=
  fun w => Some (drv_setCompose w d pad r, w ++ [SubdevSetCompose d pad r]).

Definition dev_setFormat (d : V4L2Device) (f : V4L2DeviceFormat.t)
  : M (Z * V4L2DeviceFormat.t) :=
  fun w => Some (drv_devSetFormat w d f, w ++ [DevSetFormat d f]).

Definition dev_queueBuffer (d : V4L2Device) (b : Buffer) : M Z :=
  fun w => Some (drv_queueBuffer w d b, w ++ [DevQueueBuffer d b]).
End Devices.

(** ** ImgUDevice and CIO2Device *)

Module ImgUOutput.
Record t := mk { dev : option V4L2Device; pad : Z; name : string }.
Definition null : t := mk None 0 "".

Definition set_dev (this : t) (d : option V4L2Device) : t :=
  mk d (pad this) (name this).
Definition set_pad (this : t) (p : Z) : t := mk (dev this) p (name this).
Definition set_name (this : t) (n : string) : t := mk (dev this) (pad this) n.
End ImgUOutput.

Module ImgUDevice.
Definition PAD_INPUT : Z := 0.
Definition PAD_OUTPUT : Z := 2.
Definition PAD_VF : Z := 3.
Definition PAD_STAT : Z := 4.

Record t := mk {
  index_ : nat;
  name_ : string;
  imgu_ : option V4L2Subdevice;
  input_ : option V4L2Device;
  output_ : ImgUOutput.t;
  viewfinder_ : ImgUOutput.t;
  stat_ : ImgUOutput.t
}.

(** The constructor: null device pointers.  It leaves [index_] and the
    pads of the three outputs uninitialised; the zeros stand for whatever
    they hold, [init] assigns them before they are read and no statement
    reads them from a fresh object. *)
Definition new : t :=
  mk 0 "" None None ImgUOutput.null ImgUOutput.null ImgUOutput.null.

(** An [ImgUOutput *] into an ImgU device: which of its three outputs. *)
Inductive OutputRef := Output | Viewfinder | Stat.

Definition output (this : t) (o : OutputRef) : ImgUOutput.t :=
  match o with
  | Output => output_ this
  | Viewfinder => viewfinder_ this
  | Stat => stat_ this
  end.

Definition is_stat (o : OutputRef) : bool :=
  match o with Stat => true | _ => false end.

(** Assignments to the members. *)
Definition set_name (this : t) (index : nat) (name : string) : t :=
  mk index name (imgu_ this) (input_ this) (output_ this) (viewfinder_ this)
     (stat_ this).
Definition set_imgu (this : t) (d : option V4L2Subdevice) : t :=
  mk (index_ this) (name_ this) d (input_ this) (output_ this)
     (viewfinder_ this) (stat_ this).
Definition set_input (this : t) (d : option V4L2Device) : t :=
  mk (index_ this) (name_ this) (imgu_ this) d (output_ this)
     (viewfinder_ this) (stat_ this).
Definition set_output (this : t) (o : ImgUOutput.t) : t :=
  mk (index_ this) (name_ this) (imgu_ this) (input_ this) o
     (viewfinder_ this) (stat_ this).
Definition set_viewfinder (this : t) (o : ImgUOutput.t) : t :=
  mk (index_ this) (name_ this) (imgu_ this) (input_ this) (output_ this) o
     (stat_ this).
Definition set_stat (this : t) (o : ImgUOutput.t) : t :=
  mk (index_ this) (name_ this) (imgu_ this) (input_ this) (output_ this)
     (viewfinder_ this) o.
End ImgUDevice.

Module CIO2Device.
Record t := mk {
  output_ : option V4L2Device;
  csi2_ : option V4L2Subdevice;
  sensor_ : option V4L2Subdevice;
  mbusCode_ : Z;
  maxSize_ : Size.t
}.

(** The constructor: null device pointers, an empty maximum size.  It
    leaves [mbusCode_] uninitialised; the 0 stands for whatever it holds,
    [init] assigns it when it caches a size and no statement reads it from
    a fresh object. *)
Definition new : t := mk None None None 0 Size.zero.

(** Assignments to the members. *)
Definition set_output (this : t) (d : option V4L2Device) : t :=
  mk d (csi2_ this) (sensor_ this) (mbusCode_ this) (maxSize_ this).
Definition set_csi2 (this : t) (d : option V4L2Subdevice) : t :=
  mk (output_ this) d (sensor_ this) (mbusCode_ this) (maxSize_ this).
Definition set_sensor (this : t) (d : option V4L2Subdevice) : t :=
  mk (output_ this) (csi2_ this) d (mbusCode_ this) (maxSize_ this).
Definition set_maxSize (this : t) (acc : Size.t * Z) : t :=
  mk (output_ this) (csi2_ this) (sensor_ this) (snd acc) (fst acc).
End CIO2Device.

Section Configure.
Context `{Driver}.
Local Open Scope handler_scope.

(** [ImgUDevice::configureInput] *)
Definition ImgUDevice_configureInput (this : ImgUDevice.t)
    (config : StreamConfiguration.t) (inputFormat : V4L2DeviceFormat.t)
  : M Z :=
  do input <- deref (ImgUDevice.input_ this);
  do r <- dev_setFormat input inputFormat;
  let '(ret, inputFormat) := r in
  if negb (ret =? 0) then ret_M ret else
  let rect := Rectangle.mk 0 0 (V4L2DeviceFormat.width inputFormat)
                           (V4L2DeviceFormat.height inputFormat) in
  do imgu <- deref (ImgUDevice.imgu_ this);
  do r <- subdev_setCrop imgu ImgUDevice.PAD_INPUT rect;
  let '(ret, rect) := r in
  if negb (ret =? 0) then ret_M ret else
  do r <- subdev_setCompose imgu ImgUDevice.PAD_INPUT rect;
  let '(ret, rect) := r in
  if negb (ret =? 0) then ret_M ret else
  let imguFormat :=
    V4L2SubdeviceFormat.mk MEDIA_BUS_FMT_FIXED
      (StreamConfiguration.width config)
      (StreamConfiguration.height config) in
  do r <- subdev_setFormat imgu ImgUDevice.PAD_INPUT imguFormat;
  let '(ret, imguFormat) := r in
  if negb (ret =? 0) then ret_M ret else
  ret_M 0.

(** [ImgUDevice::configureOutput] *)
Definition ImgUDevice_configureOutput (this : ImgUDevice.t)
    (output : ImgUDevice.OutputRef) (config : StreamConfiguration.t)
  : M Z :=
  let dev := ImgUOutput.dev (ImgUDevice.output this output) in
  let pad := ImgUOutput.pad (ImgUDevice.output this output) in
  let imguFormat :=
    V4L2SubdeviceFormat.mk MEDIA_BUS_FMT_FIXED
      (StreamConfiguration.width config)
      (StreamConfiguration.height config) in
  do imgu <- deref (ImgUDevice.imgu_ this);
  do r <- subdev_setFormat imgu pad imguFormat;
  let '(ret, imguFormat) := r in
  if negb (ret =? 0) then ret_M ret else
  if ImgUDevice.is_stat output then ret_M 0 else
  let outputFormat :=
    V4L2DeviceFormat.mk (StreamConfiguration.width config)
                        (StreamConfiguration.height config)
                        V4L2_PIX_FMT_NV12 2 in
  do dev <- deref dev;
  do r <- dev_setFormat dev outputFormat;
  let '(ret, outputFormat) := r in
  if negb (ret =? 0) then ret_M ret else
  ret_M 0.

(** [CIO2Device::configure]; the result is the returned integer and the
    value left in [*outputFormat]. *)
Definition CIO2Device_configure (this : CIO2Device.t)
    (config : StreamConfiguration.t) (outputFormat : V4L2DeviceFormat.t)
  : M (Z * V4L2DeviceFormat.t) :=
  do sensor <- deref (CIO2Device.sensor_ this);
  let sensorFormat := snd (configure_scan (subdev_formats sensor 0) config) in
  do r <- subdev_setFormat sensor 0 sensorFormat;
  let '(ret, sensorFormat) := r in
  if negb (ret =? 0) then ret_M (ret, outputFormat) else
  do csi2 <- deref (CIO2Device.csi2_ this);
  do r <- subdev_setFormat csi2 0 sensorFormat;
  let '(ret, sensorFormat) := r in
  if negb (ret =? 0) then ret_M (ret, outputFormat) else
  let outputFormat :=
    V4L2DeviceFormat.mk
      (V4L2SubdeviceFormat.width sensorFormat)
      (V4L2SubdeviceFormat.height sensorFormat)
      (u32 (mediaBusToFormat (V4L2SubdeviceFormat.mbus_code sensorFormat)))
      1 in
  do output <- deref (CIO2Device.output_ this);
  do r <- dev_setFormat output outputFormat;
  let '(ret, outputFormat) := r in
  if negb (ret =? 0) then ret_M (ret, outputFormat) else
  ret_M (0, outputFormat).
End Configure.

(** ** Requests, cameras and the per-camera data *)

(** Modelled from the spec: a Request holds a map from Stream to Buffer
    (the [Request] class is not part of the handler); [cookie] stands for
    the identity of the object. *)
Module Request.
Record t := mk { cookie : nat; bufferMap_ : gmap Stream Buffer }.

(** Modelled from the spec: [findBuffer] locates the Buffer attached to a
    stream, and is null when the request holds none for it. *)
Definition findBuffer (this : t) (stream : Stream) : option Buffer :=
  bufferMap_ this !! stream.
End Request.

(** The two signals of a [Camera], with their arguments. *)
Inductive Signal :=
| bufferCompleted (request : Request.t) (buffer : Buffer)
| requestCompleted (request : Request.t).

Module Camera.
(** [emitted]: the signals the camera has emitted, oldest first. *)
Record t := mk {
  name : string;
  streams : gset Stream;
  emitted : list Signal
}.

Definition emit (this : t) (s : Signal) : t :=
  mk (name this) (streams this) (emitted this ++ [s]).
End Camera.

Module IPU3CameraData.
(** [camera_] and [queuedRequests_] are the members of the [CameraData]
    base class; [imgu_] points to one of the two ImgU instances of the
    handler, which do not change once cameras exist. *)
Record t := mk {
  camera_ : Camera.t;
  queuedRequests_ : list Request.t;
  cio2_ : CIO2Device.t;
  imgu_ : option ImgUDevice.t;
  stream_ : Stream
}.

Definition set_camera (this : t) (c : Camera.t) : t :=
  mk c (queuedRequests_ this) (cio2_ this) (imgu_ this) (stream_ this).

Definition set_queuedRequests (this : t) (q : list Request.t) : t :=
  mk (camera_ this) q (cio2_ this) (imgu_ this) (stream_ this).
End IPU3CameraData.

(** [std::map::operator[]]: the map after the access (a missing key is
    inserted with a value-initialised element) and the element. *)
Definition map_subscript {V} (zero : V) (m : gmap Stream V) (k : Stream)
  : gmap Stream V * V :=
  match m !! k with
  | Some v => (m, v)
  | None => (<[k := zero]> m, zero)
  end.

(** Modelled from the spec: [PipelineHandler::queueRequest] appends the
    request to the per-camera queued FIFO (the base class is not part of
    the handler). *)
Definition PipelineHandler_queueRequest (data : IPU3CameraData.t)
    (request : Request.t) : IPU3CameraData.t :=
  IPU3CameraData.set_queuedRequests data
    (IPU3CameraData.queuedRequests_ data ++ [request]).

(** Modelled from the spec: [PipelineHandler::completeBuffer] attaches the
    completed buffer to the request and emits [bufferCompleted]. *)
Definition PipelineHandler_completeBuffer (data : IPU3CameraData.t)
    (request : Request.t) (buffer : Buffer) : IPU3CameraData.t :=
  IPU3CameraData.set_camera data
    (Camera.emit (IPU3CameraData.camera_ data) (bufferCompleted request buffer)).

(** Modelled from the spec: [PipelineHandler::completeRequest] pops the
    request from the per-camera queued FIFO and emits [requestCompleted]. *)
Definition PipelineHandler_completeRequest (data : IPU3CameraData.t)
    (request : Request.t) : IPU3CameraData.t :=
  IPU3CameraData.set_camera
    (IPU3CameraData.set_queuedRequests data
       (tail (IPU3CameraData.queuedRequests_ data)))
    (Camera.emit (IPU3CameraData.camera_ data) (requestCompleted request)).

Section Handler.
Context `{Driver}.
Local Open Scope handler_scope.

(** [PipelineHandlerIPU3::streamConfiguration] *)
Definition streamConfiguration (data : IPU3CameraData.t)
    (streams : gset Stream) : M (gmap Stream StreamConfiguration.t) :=
  let configs : gmap Stream StreamConfiguration.t := ∅ in
  do sensor <- deref (CIO2Device.sensor_ (IPU3CameraData.cio2_ data));
  do r <- subdev_getFormat sensor 0;
  let '(ret, format) := r in
  if negb (ret =? 0) then ret_M configs else
  let config :=
    StreamConfiguration.mk (V4L2SubdeviceFormat.width format)
                           (V4L2SubdeviceFormat.height format)
                           V4L2_PIX_FMT_IPU3_SGRBG10 4 in
  ret_M (<[IPU3CameraData.stream_ data := config]> configs).

(** [PipelineHandlerIPU3::configureStreams]; the result is the returned
    integer and the [config] map, which is passed by reference. *)
Definition configureStreams (data : IPU3CameraData.t)
    (config : gmap Stream StreamConfiguration.t)
  : M (Z * gmap Stream StreamConfiguration.t) :=
  let '(config, cfg) :=
    map_subscript StreamConfiguration.zero config
                  (IPU3CameraData.stream_ data) in
  let cio2 := IPU3CameraData.cio2_ data in
  if negb (StreamConfiguration.width cfg mod 8 =? 0)
     || negb (StreamConfiguration.height cfg mod 4 =? 0)
  then ret_M (- EINVAL, config) else
  if (StreamConfiguration.width cfg >? Size.width (CIO2Device.maxSize_ cio2))
     || (StreamConfiguration.height cfg
         >? Size.height (CIO2Device.maxSize_ cio2))
  then ret_M (- EINVAL, config) else
  let cio2Format := V4L2DeviceFormat.zero in
  do r <- CIO2Device_configure cio2 cfg cio2Format;
  let '(ret, cio2Format) := r in
  if negb (ret =? 0) then ret_M (ret, config) else
  do imgu <- deref (IPU3CameraData.imgu_ data);
  do ret <- ImgUDevice_configureInput imgu cfg cio2Format;
  if negb (ret =? 0) then ret_M (ret, config) else
  do ret <- ImgUDevice_configureOutput imgu ImgUDevice.Output cfg;
  if negb (ret =? 0) then ret_M (ret, config) else
  do ret <- ImgUDevice_configureOutput imgu ImgUDevice.Viewfinder cfg;
  if negb (ret =? 0) then ret_M (ret, config) else
  do ret <- ImgUDevice_configureOutput imgu ImgUDevice.Stat cfg;
  if negb (ret =? 0) then ret_M (ret, config) else
  ret_M (0, config).

(** [PipelineHandlerIPU3::queueRequest]; the result is the returned
    integer and the per-camera data after the call. *)
Definition queueRequest (data : IPU3CameraData.t) (request : Request.t)
  : M (Z * IPU3CameraData.t) :=
  let stream := IPU3CameraData.stream_ data in
  match Request.findBuffer request stream with
  | None => ret_M (- ENOENT, data)
  | Some buffer =>
      do cio2 <- deref (CIO2Device.output_ (IPU3CameraData.cio2_ data));
      do ret <- dev_queueBuffer cio2 buffer;
      if ret <? 0 then ret_M (ret, data) else
      ret_M (0, PipelineHandler_queueRequest data request)
  end.
End Handler.

(** [PipelineHandlerIPU3::IPU3CameraData::bufferReady]: the slot completes
    the buffer, then the request, without a test in between.  No result
    when the queue is empty, where [front()] is undefined. *)
Definition bufferReady (this : IPU3CameraData.t) (buffer : Buffer)
  : option IPU3CameraData.t :=
  match IPU3CameraData.queuedRequests_ this with
  | [] => None
  | request :: _ =>
      let this := PipelineHandler_completeBuffer this request buffer in
      Some (PipelineHandler_completeRequest this request)
  end.

(** ** The media graph *)

(** Modelled from the spec: the media abstraction ([MediaDevice],
    [MediaEntity], [MediaPad] and [MediaLink] are not part of the handler).
    Entities expose pads; the links of a pad connect it to a source pad of
    another entity; [setEnabled] sets the enabled bit of a link; [open]
    takes a kernel-level handle and [disableLinks] clears the enabled bit of
    every link.  Of each operation only what the handler reads is kept:
    the value it returns. *)

Module MediaLink.
(** [source_name] and [source_function] are the name and the function of
    [source()->entity()]; [setEnabled_ret] is what [setEnabled(true)]
    returns. *)
Record t := mk {
  source_name : string;
  source_function : Z;
  setEnabled_ret : Z
}.
End MediaLink.

Module MediaPad.
Record t := mk { links : list MediaLink.t }.
End MediaPad.

Module MediaEntity.
Record t := mk { name : string; function : Z; pads : list MediaPad.t }.
End MediaEntity.

Module MediaDevice.
(** [open_ret] and [disableLinks_ret] are what [open()] and
    [disableLinks()] return; [acquired] is the busy flag. *)
Record t := mk {
  driver : string;
  entities : list MediaEntity.t;
  acquired : bool;
  open_ret : Z;
  disableLinks_ret : Z
}.

(** Null when the media device has no entity of that name. *)
Definition getEntityByName (this : t) (name : string)
  : option MediaEntity.t :=
  find (fun e => String.eqb (MediaEntity.name e) name) (entities this).

(** Acquisition is explicit and exclusive: it sets the busy flag. *)
Definition acquire (this : t) : t :=
  mk (driver this) (entities this) true (open_ret this)
     (disableLinks_ret this).
End MediaDevice.

(** Modelled from the spec: a [V4L2Subdevice] or [V4L2Device] wraps an
    entity; [fromEntityName] looks the entity up by name and is null when
    the media device has none of that name. *)
Definition V4L2Subdevice_fromEntityName (media : MediaDevice.t) (name : string)
  : option V4L2Subdevice :=
  match MediaDevice.getEntityByName media name with
  | Some e => Some (subdev (MediaEntity.name e))
  | None => None
  end.

Definition V4L2Device_fromEntityName (media : MediaDevice.t) (name : string)
  : option V4L2Device :=
  match MediaDevice.getEntityByName media name with
  | Some e => Some (videodev (MediaEntity.name e))
  | None => None
  end.

(** [std::to_string] of an unsigned integer. *)
Definition to_string (n : nat) : string := pretty n.

Section Init.
Context `{Driver}.

(** [ImgUDevice::init]; no result where [fromEntityName] gives a null
    pointer, which the code dereferences without a test. *)
Definition ImgUDevice_init (this : ImgUDevice.t) (media : MediaDevice.t)
    (index : nat) : option (Z * ImgUDevice.t) :=
  let this :=
    ImgUDevice.set_name this index ("ipu3-imgu " +:+ to_string index) in
  let name_ := ImgUDevice.name_ this in
  imgu ← V4L2Subdevice_fromEntityName media name_;
  let this := ImgUDevice.set_imgu this (Some imgu) in
  let ret := drv_subdev_open imgu in
  if negb (ret =? 0) then Some (ret, this) else
  input ← V4L2Device_fromEntityName media (name_ +:+ " input");
  let this := ImgUDevice.set_input this (Some input) in
  let ret := drv_dev_open input in
  if negb (ret =? 0) then Some (ret, this) else
  output ← V4L2Device_fromEntityName media (name_ +:+ " output");
  let this :=
    ImgUDevice.set_output this
      (ImgUOutput.set_dev (ImgUDevice.output_ this) (Some output)) in
  let ret := drv_dev_open output in
  if negb (ret =? 0) then Some (ret, this) else
  let this :=
    ImgUDevice.set_output this
      (ImgUOutput.set_name
         (ImgUOutput.set_pad (ImgUDevice.output_ this) ImgUDevice.PAD_OUTPUT)
         "output") in
  viewfinder ← V4L2Device_fromEntityName media (name_ +:+ " viewfinder");
  let this :=
    ImgUDevice.set_viewfinder this
      (ImgUOutput.set_dev (ImgUDevice.viewfinder_ this) (Some viewfinder)) in
  let ret := drv_dev_open viewfinder in
  if negb (ret =? 0) then Some (ret, this) else
  let this :=
    ImgUDevice.set_viewfinder this
      (ImgUOutput.set_name
         (ImgUOutput.set_pad (ImgUDevice.viewfinder_ this) ImgUDevice.PAD_VF)
         "viewfinder") in
  stat ← V4L2Device_fromEntityName media (name_ +:+ " 3a stat");
  let this :=
    ImgUDevice.set_stat this
      (ImgUOutput.set_dev (ImgUDevice.stat_ this) (Some stat)) in
  let ret := drv_dev_open stat in
  if negb (ret =? 0) then Some (ret, this) else
  let this :=
    ImgUDevice.set_stat this
      (ImgUOutput.set_name
         (ImgUOutput.set_pad (ImgUDevice.stat_ this) ImgUDevice.PAD_STAT)
         "stat") in
  Some (0, this).

(** [CIO2Device::init]; no result where [getEntityByName] or
    [fromEntityName] gives a null pointer, which the code dereferences
    without a test. *)
Definition CIO2Device_init (this : CIO2Device.t) (media : MediaDevice.t)
    (index : nat) : option (Z * CIO2Device.t) :=
  let csi2Name := "ipu3-csi2 " +:+ to_string index in
  csi2Entity ← MediaDevice.getEntityByName media csi2Name;
  match MediaEntity.pads csi2Entity with
  | [] => Some (- ENODEV, this)
  | sink :: _ =>
  match MediaPad.links sink with
  | [] => Some (- ENODEV, this)
  | link :: _ =>
  if negb (MediaLink.source_function link =? MEDIA_ENT_F_CAM_SENSOR)
  then Some (- ENODEV, this) else
  let ret := MediaLink.setEnabled_ret link in
  if negb (ret =? 0) then Some (ret, this) else
  let sensor := subdev (MediaLink.source_name link) in
  let this := CIO2Device.set_sensor this (Some sensor) in
  let ret := drv_subdev_open sensor in
  if negb (ret =? 0) then Some (ret, this) else
  let this :=
    CIO2Device.set_maxSize this
      (init_scan (subdev_formats sensor 0)
                 (CIO2Device.maxSize_ this, CIO2Device.mbusCode_ this)) in
  if Size.width (CIO2Device.maxSize_ this) =? 0
  then Some (- ENODEV, this) else
  let csi2 := subdev (MediaEntity.name csi2Entity) in
  let this := CIO2Device.set_csi2 this (Some csi2) in
  let ret := drv_subdev_open csi2 in
  if negb (ret =? 0) then Some (ret, this) else
  let cio2Name := "ipu3-cio2 " +:+ to_string index in
  output ← V4L2Device_fromEntityName media cio2Name;
  let this := CIO2Device.set_output this (Some output) in
  let ret := drv_dev_open output in
  if negb (ret =? 0) then Some (ret, this) else
  Some (0, this)
  end
  end.
End Init.

(** ** The pipeline handler: registerCameras and match *)

(** A [std::shared_ptr<MediaDevice>]: the media devices live in the device
    enumerator, the handler holds the position of the ones it found. *)
Definition MediaDevicePtr : Type := nat.

(** The device enumerator: the media devices of the system. *)
Definition DeviceEnumerator : Type := list MediaDevice.t.

Module DeviceMatch.
Record t := mk { driver : string; entities : list string }.

Definition add (this : t) (entity : string) : t :=
  mk (driver this) (entities this ++ [entity]).

(** Modelled from the spec: a media device satisfies a [DeviceMatch] when
    its driver matches and its entity set is a superset of the requested
    names ([DeviceMatch] is not part of the handler). *)
Definition matches (this : t) (media : MediaDevice.t) : bool :=
  String.eqb (driver this) (MediaDevice.driver media)
  && forallb (fun n =>
                existsb (fun e => String.eqb n (MediaEntity.name e))
                        (MediaDevice.entities media))
             (entities this).
End DeviceMatch.

(** Modelled from the spec: [DeviceEnumerator::search] returns a shared
    handle to the first media device that satisfies the match and is not
    currently acquired, and null when there is none. *)
Definition DeviceEnumerator_search (enumerator : DeviceEnumerator)
    (dm : DeviceMatch.t) : option MediaDevicePtr :=
  fst <$> list_find
            (fun media => DeviceMatch.matches dm media = true
                          ∧ MediaDevice.acquired media = false)
            enumerator.

Module PipelineHandlerIPU3.
(** [cameras]: the cameras registered with [registerCamera], in order,
    each as its per-camera data. *)
Record t := mk {
  imgu0_ : ImgUDevice.t;
  imgu1_ : ImgUDevice.t;
  cio2MediaDev_ : option MediaDevicePtr;
  imguMediaDev_ : option MediaDevicePtr;
  cameras : list IPU3CameraData.t
}.

(** The constructor. *)
Definition new : t := mk ImgUDevice.new ImgUDevice.new None None [].
End PipelineHandlerIPU3.

(** Modelled from the spec: [PipelineHandler::registerCamera] adds the
    camera, with its per-camera data, to the cameras of the handler. *)
Definition PipelineHandler_registerCamera (this : PipelineHandlerIPU3.t)
    (data : IPU3CameraData.t) : PipelineHandlerIPU3.t :=
  PipelineHandlerIPU3.mk
    (PipelineHandlerIPU3.imgu0_ this) (PipelineHandlerIPU3.imgu1_ this)
    (PipelineHandlerIPU3.cio2MediaDev_ this)
    (PipelineHandlerIPU3.imguMediaDev_ this)
    (PipelineHandlerIPU3.cameras this ++ [data]).

Section Match.
Context `{Driver}.

(** The loop of [registerCameras] over the receivers [ids], with
    [numCameras] cameras created so far.  The [Stream] embedded in the
    per-camera data created for receiver [id] is identified by [id]. *)
Fixpoint registerCameras_loop (cio2Media : MediaDevice.t) (ids : list nat)
    (numCameras : nat) (this : PipelineHandlerIPU3.t)
  : option (nat * PipelineHandlerIPU3.t) :=
  match ids with
  | [] => Some (numCameras, this)
  | id :: ids' =>
      if negb (numCameras <? 2)%nat then Some (numCameras, this) else
      let stream_ : Stream := id in
      let streams : gset Stream := {[ stream_ ]} in
      '(ret, cio2) ← CIO2Device_init CIO2Device.new cio2Media id;
      if negb (ret =? 0)
      then registerCameras_loop cio2Media ids' numCameras this else
      let imgu_ :=
        if negb (numCameras =? 0)%nat
        then PipelineHandlerIPU3.imgu1_ this
        else PipelineHandlerIPU3.imgu0_ this in
      sensor ← CIO2Device.sensor_ cio2;
      let cameraName :=
        (match sensor with subdev entityName => entityName end)
        +:+ " " +:+ to_string id in
      let camera := Camera.mk cameraName streams [] in
      _ ← CIO2Device.output_ cio2;
      let data := IPU3CameraData.mk camera [] cio2 (Some imgu_) stream_ in
      registerCameras_loop cio2Media ids' (S numCameras)
        (PipelineHandler_registerCamera this data)
  end.

(** [PipelineHandlerIPU3::registerCameras] *)
Definition registerCameras (enumerator : DeviceEnumerator)
    (this : PipelineHandlerIPU3.t) : option (Z * PipelineHandlerIPU3.t) :=
  imguPtr ← PipelineHandlerIPU3.imguMediaDev_ this;
  imguMedia ← enumerator !! imguPtr;
  '(ret, imgu0) ← ImgUDevice_init (PipelineHandlerIPU3.imgu0_ this) imguMedia 0;
  let this :=
    PipelineHandlerIPU3.mk imgu0 (PipelineHandlerIPU3.imgu1_ this)
      (PipelineHandlerIPU3.cio2MediaDev_ this)
      (PipelineHandlerIPU3.imguMediaDev_ this)
      (PipelineHandlerIPU3.cameras this) in
  if negb (ret =? 0) then Some (ret, this) else
  '(ret, imgu1) ← ImgUDevice_init (PipelineHandlerIPU3.imgu1_ this) imguMedia 1;
  let this :=
    PipelineHandlerIPU3.mk (PipelineHandlerIPU3.imgu0_ this) imgu1
      (PipelineHandlerIPU3.cio2MediaDev_ this)
      (PipelineHandlerIPU3.imguMediaDev_ this)
      (PipelineHandlerIPU3.cameras this) in
  if negb (ret =? 0) then Some (ret, this) else
  cio2Ptr ← PipelineHandlerIPU3.cio2MediaDev_ this;
  cio2Media ← enumerator !! cio2Ptr;
  '(numCameras, this) ← registerCameras_loop cio2Media (seq 0 4) 0 this;
  Some (if negb (numCameras =? 0)%nat then 0 else - ENODEV, this).

Definition cio2_dm : DeviceMatch.t :=
  fold_left DeviceMatch.add
    ["ipu3-csi2 0"; "ipu3-cio2 0"; "ipu3-csi2 1"; "ipu3-cio2 1";
     "ipu3-csi2 2"; "ipu3-cio2 2"; "ipu3-csi2 3"; "ipu3-cio2 3"]
    (DeviceMatch.mk "ipu3-cio2" []).

Definition imgu_dm : DeviceMatch.t :=
  fold_left DeviceMatch.add
    ["ipu3-imgu 0"; "ipu3-imgu 0 input"; "ipu3-imgu 0 parameters";
     "ipu3-imgu 0 output"; "ipu3-imgu 0 viewfinder"; "ipu3-imgu 0 3a stat";
     "ipu3-imgu 1"; "ipu3-imgu 1 input"; "ipu3-imgu 1 parameters";
     "ipu3-imgu 1 output"; "ipu3-imgu 1 viewfinder"; "ipu3-imgu 1 3a stat"]
    (DeviceMatch.mk "ipu3-imgu" []).

(** [PipelineHandlerIPU3::match].  [ret] is declared without an
    initialiser: [indeterminate] is the value the variable holds until it
    is assigned.  The result is the returned boolean, the handler and the
    enumerator, whose media devices [acquire()] marks. *)
Definition match_ (indeterminate : Z) (this : PipelineHandlerIPU3.t)
    (enumerator : DeviceEnumerator)
  : option (bool * PipelineHandlerIPU3.t * DeviceEnumerator) :=
  let ret := indeterminate in
  let cio2MediaDev_ := DeviceEnumerator_search enumerator cio2_dm in
  let this :=
    PipelineHandlerIPU3.mk
      (PipelineHandlerIPU3.imgu0_ this) (PipelineHandlerIPU3.imgu1_ this)
      cio2MediaDev_ (PipelineHandlerIPU3.imguMediaDev_ this)
      (PipelineHandlerIPU3.cameras this) in
  match cio2MediaDev_ with
  | None => Some (false, this, enumerator)
  | Some cio2Ptr =>
  let enumerator := alter MediaDevice.acquire cio2Ptr enumerator in
  let imguMediaDev_ := DeviceEnumerator_search enumerator imgu_dm in
  let this :=
    PipelineHandlerIPU3.mk
      (PipelineHandlerIPU3.imgu0_ this) (PipelineHandlerIPU3.imgu1_ this)
      cio2MediaDev_ imguMediaDev_ (PipelineHandlerIPU3.cameras this) in
  match imguMediaDev_ with
  | None => Some (false, this, enumerator)
  | Some imguPtr =>
  let enumerator := alter MediaDevice.acquire imguPtr enumerator in
  cio2Media ← enumerator !! cio2Ptr;
  imguMedia ← enumerator !! imguPtr;
  if negb (MediaDevice.open_ret cio2Media =? 0)
  then Some (false, this, enumerator) else
  if negb (MediaDevice.disableLinks_ret cio2Media =? 0)
  then Some (false, this, enumerator) else
  if negb (MediaDevice.open_ret imguMedia =? 0)
  then Some (false, this, enumerator) else
  if negb (MediaDevice.disableLinks_ret imguMedia =? 0)
  then Some (ret =? 0, this, enumerator) else
  '(ret, this) ← registerCameras enumerator this;
  Some (ret =? 0, this, enumerator)
  end
  end.
End Match.

(** ** A capture session: requests queued and buffers completed *)

Module Capture.
(** [data] is the per-camera data, [world] the history of device calls.
    [hw] holds the buffers the ingress device has accepted and not yet
    completed, oldest first.  [returns] records each call of
    [queueRequest] with the value it returned. *)
Record State := mk {
  data : IPU3CameraData.t;
  world : World;
  hw : list Buffer;
  returns : list (Request.t * Z)
}.

Inductive Action :=
| Queue (request : Request.t)
| Complete.

Section Run.
Context `{Driver}.

(** The buffer the ingress device takes in when [queueRequest] is
    called: the one handed to [queueBuffer], when the driver answers
    0. *)
Definition accepted (s : State) (request : Request.t) : list Buffer :=
  match Request.findBuffer request (IPU3CameraData.stream_ (data s)),
        CIO2Device.output_ (IPU3CameraData.cio2_ (data s)) with
  | Some buffer, Some cio2 =>
      if drv_queueBuffer (world s) cio2 buffer =? 0 then [buffer] else []
  | _, _ => []
  end.

(** Modelled from the spec: the ingress device completes the buffers it
    holds in the order they were queued, and each completion fires the
    [bufferReady] signal, which is connected to the completion slot of
    the per-camera data.  With no buffer held, nothing completes. *)
Definition step (s : State) (a : Action) : option State :=
  match a with
  | Queue request =>
      '(ret, data', world') ← queueRequest (data s) request (world s);
      Some (mk data' world' (hw s ++ accepted s request)
               (returns s ++ [(request, ret)]))
  | Complete =>
      match hw s with
      | [] => Some s
      | buffer :: hw' =>
          data' ← bufferReady (data s) buffer;
          Some (mk data' (world s) hw' (returns s))
      end
  end.

Fixpoint run (s : State) (actions : list Action) : option State :=
  match actions with
  | [] => Some s
  | a :: actions' => s' ← step s a; run s' actions'
  end.
End Run.

(** The requests of the [requestCompleted] signals, in emission order. *)
Fixpoint completed (signals : list Signal) : list Request.t :=
  match signals with
  | [] => []
  | requestCompleted r :: signals' => r :: completed signals'
  | bufferCompleted _ _ :: signals' => completed signals'
  end.

(** The requests [queueRequest] returned 0 for, in call order. *)
Definition queued (returns : list (Request.t * Z)) : list Request.t :=
  fst <$> filter (fun p => snd p = 0) returns.

(** The signals of a request completed with one buffer. *)
Definition completion (stream : Stream) (r : Request.t) : list Signal :=
  match Request.findBuffer r stream with
  | Some buffer => [bufferCompleted r buffer; requestCompleted r]
  | None => []
  end.

(** In the signals emitted so far, every stream of [r] has a completed
    buffer. *)
Definition all_streams_completed (signals : list Signal) (r : Request.t)
  : Prop :=
  ∀ stream buffer,
    Request.bufferMap_ r !! stream = Some buffer →
    bufferCompleted r buffer ∈ signals.

(** Every [requestCompleted] is emitted when all streams of its request
    have a completed buffer. *)
Definition completions_justified (signals : list Signal) : Prop :=
  ∀ before r after,
    signals = before ++ requestCompleted r :: after →
    all_streams_completed before r.
End Capture.

(** ** The timer *)

Module Timer.
Definition ThreadId : Type := nat.

Record timespec := mk_timespec { tv_sec : Z; tv_nsec : Z }.

Inductive MessageType :=
| NoneMessage | InvokeMessage | ThreadMoveMessage | UserMessage.

Definition is_ThreadMoveMessage (ty : MessageType) : bool :=
  match ty with ThreadMoveMessage => true | _ => false end.

(** A pointer to a member function of the timer. *)
Inductive Method := registerTimer_method.

(** What the timer does to the objects around it, in order. *)
Inductive Effect :=
| RegisterTimer (thread : ThreadId)
| UnregisterTimer (thread : ThreadId)
| InvokeMethod (method : Method)
| ObjectMessage (type : MessageType)
| Timeout (thread : ThreadId).

(** The members of the timer. *)
Record t := mk { interval_ : Z; deadline_ : Z }.

(** The constructor. *)
Definition new : t := mk 0 0.

(** Modelled from the spec: the object and threading substrate around one
    timer ([Object], [Thread] and the event dispatcher are not part of
    the timer).  [thread] is the thread the timer belongs to;
    [dispatchers] is the set of threads whose event dispatcher holds the
    timer in its set of armed timers; [inbox] holds the invocations
    posted to the timer and not yet executed, oldest first; [effects] is
    the history of what happened, oldest first. *)
Record Env := mk_env {
  thread : ThreadId;
  dispatchers : gset ThreadId;
  inbox : list Method;
  effects : list Effect
}.

Definition log (e : Env) (x : Effect) : Env :=
  mk_env (thread e) (dispatchers e) (inbox e) (effects e ++ [x]).

(** Modelled from the spec: [EventDispatcher::registerTimer] adds the
    timer to the dispatcher's set of armed timers. *)
Definition EventDispatcher_registerTimer (th : ThreadId) (e : Env) : Env :=
  log (mk_env (thread e) ({[ th ]} ∪ dispatchers e) (inbox e) (effects e))
      (RegisterTimer th).

(** Modelled from the spec: [EventDispatcher::unregisterTimer] removes
    the timer from the dispatcher's set of armed timers. *)
Definition EventDispatcher_unregisterTimer (th : ThreadId) (e : Env) : Env :=
  log (mk_env (thread e) (dispatchers e ∖ {[ th ]}) (inbox e) (effects e))
      (UnregisterTimer th).

(** Modelled from the spec: [Object::invokeMethod] posts the invocation
    as a message to the object; it is executed in a later dispatch round
    of the thread the object then belongs to. *)
Definition Object_invokeMethod (m : Method) (e : Env) : Env :=
  log (mk_env (thread e) (dispatchers e) (inbox e ++ [m]) (effects e))
      (InvokeMethod m).

(** [Object::message], the base class handler. *)
Definition Object_message (ty : MessageType) (e : Env) : Env :=
  log e (ObjectMessage ty).

(** [Timer::registerTimer] *)
Definition registerTimer (e : Env) : Env :=
  EventDispatcher_registerTimer (thread e) e.

(** [Timer::unregisterTimer] *)
Definition unregisterTimer (e : Env) : Env :=
  EventDispatcher_unregisterTimer (thread e) e.

(** The deadline [Timer::start] computes, in [unsigned long long]
    arithmetic, from the time [tp] read from [CLOCK_MONOTONIC]. *)
Definition start_deadline (tp : timespec) (msec : Z) : Z :=
  u64 (u64 (u64 (u64 (tv_sec tp) * 1000000000) + u64 (tv_nsec tp))
       + u64 (msec * 1000000)).

(** [Timer::start]; [tp] is what [clock_gettime] stores. *)
Definition start (tp : timespec) (msec : Z) (st : t * Env) : t * Env :=
  let '(this, e) := st in
  let this := mk msec (start_deadline tp msec) in
  (this, registerTimer e).

(** [Timer::stop] *)
Definition stop (st : t * Env) : t * Env :=
  let '(this, e) := st in
  let e := unregisterTimer e in
  (mk (interval_ this) 0, e).

(** [Timer::isRunning] *)
Definition isRunning (this : t) : bool := negb (deadline_ this =? 0).

(** [Timer::message] *)
Definition message (ty : MessageType) (st : t * Env) : t * Env :=
  let '(this, e) := st in
  let e :=
    if is_ThreadMoveMessage ty then
      if negb (deadline_ this =? 0) then
        Object_invokeMethod registerTimer_method (unregisterTimer e)
      else e
    else e in
  (this, Object_message ty e).

(** Modelled from the spec: moving the object to another thread delivers
    a [ThreadMoveMessage] to its [message] hook, then changes the thread
    the object belongs to. *)
Definition moveToThread (target : ThreadId) (st : t * Env) : t * Env :=
  let '(this, e) := message ThreadMoveMessage st in
  (this, mk_env target (dispatchers e) (inbox e) (effects e)).

Definition invoke (m : Method) (e : Env) : Env :=
  match m with registerTimer_method => registerTimer e end.

(** Modelled from the spec: one dispatch round of the event dispatcher of
    thread [th] at time [now] first drains the messages of the objects
    of that thread, then fires each expired timer it holds once: the
    timer leaves the set of armed timers, stops running, and its
    [timeout] signal is emitted. *)
Definition processEvents (th : ThreadId) (now : Z) (st : t * Env) : t * Env :=
  let '(this, e) := st in
  let e :=
    if (th =? thread e)%nat
    then fold_left (fun e m => invoke m e) (inbox e)
                   (mk_env (thread e) (dispatchers e) [] (effects e))
    else e in
  if decide (th ∈ dispatchers e) then
    if deadline_ this <=? now then
      (mk (interval_ this) 0,
       log (mk_env (thread e) (dispatchers e ∖ {[ th ]}) (inbox e) (effects e))
           (Timeout th))
    else (this, e)
  else (this, e).

(** Dispatch rounds on any threads at any times. *)
Definition rounds (rs : list (ThreadId * Z)) (st : t * Env) : t * Env :=
  fold_left (fun st r => processEvents (fst r) (snd r) st) rs st.

Definition is_Timeout (x : Effect) : bool :=
  match x with Timeout _ => true | _ => false end.

(** The [timeout] signals emitted so far. *)
Definition timeouts (e : Env) : list Effect :=
  List.filter is_Timeout (effects e).
End Timer.

(** ** Vocabulary of the statements *)

(** The four raw Bayer media-bus codes. *)
Definition bayer_codes : list Z :=
  [MEDIA_BUS_FMT_SBGGR10_1X10; MEDIA_BUS_FMT_SGBRG10_1X10;
   MEDIA_BUS_FMT_SGRBG10_1X10; MEDIA_BUS_FMT_SRGGB10_1X10].

(** A media-bus code the CIO2 can consume. *)
Definition consumable (code : Z) : bool := negb (mediaBusToFormat code <? 0).

(** The (code, size range) pairs of a format enumeration, in enumeration
    order. *)
Definition flatten (formats : FormatEnum) : list (Z * SizeRange.t) :=
  flat_map (fun it => map (pair (fst it)) (snd it)) formats.

(** The maximum size of the range is at least the requested size in both
    dimensions. *)
Definition fits (config : StreamConfiguration.t) (size : SizeRange.t) : bool :=
  (StreamConfiguration.width config <=? SizeRange.maxWidth size)
  && (StreamConfiguration.height config <=? SizeRange.maxHeight size).

Definition candidate (config : StreamConfiguration.t) (c : Z * SizeRange.t)
  : bool :=
  consumable (fst c) && fits config (snd c).

(** The sensor formats [CIO2Device::configure] chooses among. *)
Definition candidates (formats : FormatEnum) (config : StreamConfiguration.t)
  : list (Z * SizeRange.t) :=
  List.filter (candidate config) (flatten formats).

(** The excess pixel area of a size range over the requested size, as an
    integer without wrap-around. *)
Definition excess (config : StreamConfiguration.t) (c : Z * SizeRange.t) : Z :=
  SizeRange.maxWidth (snd c) * SizeRange.maxHeight (snd c)
  - StreamConfiguration.width config * StreamConfiguration.height config.

(** [c] is the first element of [cs] of minimal excess: everything before
    it has a larger excess, nothing after it a smaller one. *)
Definition first_minimum (config : StreamConfiguration.t)
    (cs : list (Z * SizeRange.t)) (c : Z * SizeRange.t) : Prop :=
  ∃ before after,
    cs = before ++ c :: after
    ∧ Forall (fun x => excess config c < excess config x) before
    ∧ Forall (fun x => excess config c <= excess config x) after.

Definition format_of (c : Z * SizeRange.t) : V4L2SubdeviceFormat.t :=
  V4L2SubdeviceFormat.mk (fst c) (SizeRange.maxWidth (snd c))
                         (SizeRange.maxHeight (snd c)).

(** Every size a format enumeration lists has a pixel area below
    [UINT_MAX]. *)
Definition areas_fit (formats : FormatEnum) : Prop :=
  Forall (fun c => SizeRange.maxWidth (snd c) * SizeRange.maxHeight (snd c)
                   < UINT_MAX)
         (flatten formats).

(** A driver whose devices take every format, crop and compose rectangle
    as it is given. *)
Definition accepting `{Driver} : Prop :=
  (∀ w d pad f, drv_setFormat w d pad f = (0, f))
  ∧ (∀ w d pad r, drv_setCrop w d pad r = (0, r))
  ∧ (∀ w d pad r, drv_setCompose w d pad r = (0, r))
  ∧ (∀ w d f, drv_devSetFormat w d f = (0, f)).

(** The per-camera data of a camera on CSI-2 receiver [id] with ImgU
    instance [index]: its CIO2 and ImgU devices are as their [init] leaves
    them when it returns 0. *)
Definition initialised `{Driver} (cio2Media imguMedia : MediaDevice.t)
    (id index : nat) (data : IPU3CameraData.t) : Prop :=
  CIO2Device_init CIO2Device.new cio2Media id
    = Some (0, IPU3CameraData.cio2_ data)
  ∧ ∃ imgu, IPU3CameraData.imgu_ data = Some imgu
            ∧ ImgUDevice_init ImgUDevice.new imguMedia index = Some (0, imgu).

(** The device calls of a successful [configureStreams] on the devices of
    [data]: the selected format [sel] on the sensor, the CSI-2 receiver and
    the CIO2 output, then the requested size on the ImgU input and on its
    output, viewfinder and statistics nodes. *)
Definition configure_calls (data : IPU3CameraData.t)
    (sel : V4L2SubdeviceFormat.t) (cfg : StreamConfiguration.t)
  : option (list Call) :=
  let requested :=
    V4L2SubdeviceFormat.mk MEDIA_BUS_FMT_FIXED
      (StreamConfiguration.width cfg) (StreamConfiguration.height cfg) in
  let nv12 :=
    V4L2DeviceFormat.mk (StreamConfiguration.width cfg)
      (StreamConfiguration.height cfg) V4L2_PIX_FMT_NV12 2 in
  let raw :=
    V4L2DeviceFormat.mk (V4L2SubdeviceFormat.width sel)
      (V4L2SubdeviceFormat.height sel)
      (mediaBusToFormat (V4L2SubdeviceFormat.mbus_code sel)) 1 in
  let rect :=
    Rectangle.mk 0 0 (V4L2SubdeviceFormat.width sel)
      (V4L2SubdeviceFormat.height sel) in
  sensor ← CIO2Device.sensor_ (IPU3CameraData.cio2_ data);
  csi2 ← CIO2Device.csi2_ (IPU3CameraData.cio2_ data);
  cio2 ← CIO2Device.output_ (IPU3CameraData.cio2_ data);
  imgu ← IPU3CameraData.imgu_ data;
  sub ← ImgUDevice.imgu_ imgu;
  input ← ImgUDevice.input_ imgu;
  output ← ImgUOutput.dev (ImgUDevice.output_ imgu);
  viewfinder ← ImgUOutput.dev (ImgUDevice.viewfinder_ imgu);
  Some [ SubdevSetFormat sensor 0 sel;
         SubdevSetFormat csi2 0 sel;
         DevSetFormat cio2 raw;
         DevSetFormat input raw;
         SubdevSetCrop sub ImgUDevice.PAD_INPUT rect;
         SubdevSetCompose sub ImgUDevice.PAD_INPUT rect;
         SubdevSetFormat sub ImgUDevice.PAD_INPUT requested;
         SubdevSetFormat sub ImgUDevice.PAD_OUTPUT requested;
         DevSetFormat output nv12;
         SubdevSetFormat sub ImgUDevice.PAD_VF requested;
         DevSetFormat viewfinder nv12;
         SubdevSetFormat sub ImgUDevice.PAD_STAT requested ].

(** The formats the sensor of [data] enumerates on pad 0. *)
Definition sensor_formats `{Driver} (data : IPU3CameraData.t) : FormatEnum :=
  match CIO2Device.sensor_ (IPU3CameraData.cio2_ data) with
  | Some sensor => drv_formats sensor 0
  | None => []
  end.

(** Modelled from the spec: the documented error codes are
    invalid-argument, invalid-state, no-device, no-memory and busy. *)
Definition documented_errors : list Z := [EINVAL; EACCES; ENODEV; ENOMEM; EBUSY].

(** The two nested loops of [CIO2Device::configure] as one pass over the
    flattened enumeration. *)
Definition configure_flat_step (config : StreamConfiguration.t) (imageSize : Z)
    (acc : Z * V4L2SubdeviceFormat.t) (c : Z * SizeRange.t)
  : Z * V4L2SubdeviceFormat.t :=
  if mediaBusToFormat (fst c) <? 0 then acc
  else configure_size_step config imageSize (fst c) acc (snd c).

(** The same for the loops of [CIO2Device::init]. *)
Definition init_flat_step (acc : Size.t * Z) (c : Z * SizeRange.t)
  : Size.t * Z :=
  if mediaBusToFormat (fst c) <? 0 then acc
  else init_size_step (mediaBusToFormat (fst c)) acc (snd c).

(** What [best] and [sensorFormat] hold once the candidates [cs] have been
    seen: the initial values when there is none, the first candidate of
    minimal excess otherwise. *)
Definition selection (config : StreamConfiguration.t)
    (cs : list (Z * SizeRange.t)) (acc : Z * V4L2SubdeviceFormat.t) : Prop :=
  (cs = [] ∧ acc = (UINT_MAX, V4L2SubdeviceFormat.zero))
  ∨ ∃ c, first_minimum config cs c ∧ acc = (excess config c, format_of c).

(** ** Building requests *)

(** Modelled from the spec: [createRequest] returns an empty Request bound
    to the camera (the [Camera] and [Request] classes are not part of the
    handler). *)
Definition Camera_createRequest (cookie : nat) : Request.t :=
  Request.mk cookie ∅.

(** Modelled from the spec: [addBuffer] associates a Buffer with its owning
    Stream, and rejects it, with the invalid-argument error, when the
    request already holds a buffer for that stream or the stream is not
    one of the camera. *)
Definition Request_addBuffer (camera : Camera.t) (this : Request.t)
    (stream : Stream) (buffer : Buffer) : Z * Request.t :=
  if decide (stream ∈ Camera.streams camera) then
    match Request.bufferMap_ this !! stream with
    | Some _ => (- EINVAL, this)
    | None =>
        (0, Request.mk (Request.cookie this)
                       (<[stream := buffer]> (Request.bufferMap_ this)))
    end
  else (- EINVAL, this).

(** The requests an application can build for a camera. *)
Inductive constructible (camera : Camera.t) : Request.t → Prop :=
| constructible_create cookie :
    constructible camera (Camera_createRequest cookie)
| constructible_add r stream buffer r' :
    constructible camera r →
    Request_addBuffer camera r stream buffer = (0, r') →
    constructible camera r'.

(** ** The invariant of a capture session *)

(** A request holds buffers for no stream but [stream]. *)
Definition single_stream (stream : Stream) (r : Request.t) : Prop :=
  dom (Request.bufferMap_ r) ⊆ {[ stream ]}.

(** What holds of a capture session on the camera with stream [stream] and
    CIO2 device [cio2] at every moment: the buffers held by the ingress
    device are those of the queued requests, in order; the requests
    completed so far followed by the queued ones are the requests
    [queueRequest] accepted, in order; and the signals emitted are the
    completions of the completed requests. *)
Record capture_inv (stream : Stream) (cio2 : CIO2Device.t) (s : Capture.State)
  : Prop := {
  inv_stream : IPU3CameraData.stream_ (Capture.data s) = stream;
  inv_cio2 : IPU3CameraData.cio2_ (Capture.data s) = cio2;
  inv_hw :
    Forall2 (fun r b => Request.findBuffer r stream = Some b)
            (IPU3CameraData.queuedRequests_ (Capture.data s)) (Capture.hw s);
  inv_fifo :
    Capture.completed (Camera.emitted (IPU3CameraData.camera_ (Capture.data s)))
    ++ IPU3CameraData.queuedRequests_ (Capture.data s)
    = Capture.queued (Capture.returns s);
  inv_signals :
    Camera.emitted (IPU3CameraData.camera_ (Capture.data s))
    = flat_map (Capture.completion stream)
        (Capture.completed
           (Camera.emitted (IPU3CameraData.camera_ (Capture.data s))));
  inv_single :
    Forall (single_stream stream) (Capture.queued (Capture.returns s))
}.

(** ** The cameras registerCameras creates *)

(** [CIO2Device::init] returns 0 on receiver [id]. *)
Definition initialises `{Driver} (media : MediaDevice.t) (id : nat) : bool :=
  match CIO2Device_init CIO2Device.new media id with
  | Some (ret, _) => ret =? 0
  | None => false
  end.

(** The receivers that get a camera: the first two, in increasing order, of
    the receivers 0 to 3 on which [CIO2Device::init] returns 0. *)
Definition scanned `{Driver} (media : MediaDevice.t) : list nat :=
  take 2 (List.filter (initialises media) (seq 0 4)).

(** [data] is the per-camera data of a fresh camera on receiver [id] with
    ImgU instance [imgu]. *)
Definition camera_on `{Driver} (media : MediaDevice.t) (imgu : ImgUDevice.t)
    (id : nat) (data : IPU3CameraData.t) : Prop :=
  CIO2Device_init CIO2Device.new media id = Some (0, IPU3CameraData.cio2_ data)
  ∧ IPU3CameraData.imgu_ data = Some imgu
  ∧ IPU3CameraData.stream_ data = id
  ∧ IPU3CameraData.queuedRequests_ data = []
  ∧ Camera.streams (IPU3CameraData.camera_ data) = {[ id ]}
  ∧ Camera.emitted (IPU3CameraData.camera_ data) = []
  ∧ ∃ sensor,
      CIO2Device.sensor_ (IPU3CameraData.cio2_ data) = Some (subdev sensor)
      ∧ Camera.name (IPU3CameraData.camera_ data)
        = sensor +:+ " " +:+ to_string id.

(** [cameras] are the cameras of the receivers [ids], in order; the camera
    number 0 has ImgU instance [imgu0], the others [imgu1].  [k] is the
    number of the first camera of the list. *)
Fixpoint registered_as `{Driver} (media : MediaDevice.t)
    (imgu0 imgu1 : ImgUDevice.t) (k : nat) (ids : list nat)
    (cameras : list IPU3CameraData.t) : Prop :=
  match ids, cameras with
  | [], [] => True
  | id :: ids', data :: cameras' =>
      camera_on media (if (k =? 0)%nat then imgu0 else imgu1) id data
      ∧ registered_as media imgu0 imgu1 (S k) ids' cameras'
  | _, _ => False
  end.

(** ** Clock readings *)

(** The time of a clock reading, in nanoseconds, as an integer without
    wrap-around. *)
Definition nanoseconds (tp : Timer.timespec) : Z :=
  Timer.tv_sec tp * 1000000000 + Timer.tv_nsec tp.

(** A reading of [CLOCK_MONOTONIC]: a normalised [timespec] for a positive
    time, less than 2^33 seconds (some 272 years) after the clock's
    origin. *)
Definition monotonic_reading (tp : Timer.timespec) : Prop :=
  0 <= Timer.tv_sec tp < 2 ^ 33
  ∧ 0 <= Timer.tv_nsec tp < 1000000000
  ∧ 0 < nanoseconds tp.

(** The timer is held by no dispatcher but that of its own thread, and no
    invocation posted to it is pending. *)
Definition settled (e : Timer.Env) : Prop :=
  Timer.dispatchers e ⊆ {[ Timer.thread e ]} ∧ Timer.inbox e = [].

(** ** A concrete platform

    One sensor, on CSI-2 receiver 0 of an IPU3, whose driver takes every
    call.  The theorems are run on it. *)

Module Sample.
Definition sizes : list SizeRange.t :=
  [ SizeRange.mk 1280 720 1280 720;
    SizeRange.mk 1296 972 1296 972;
    SizeRange.mk 2592 1944 2592 1944 ].

(** A code the CIO2 cannot consume comes first, the Bayer code second. *)
Definition formats : FormatEnum :=
  [ (0x2008, [SizeRange.mk 640 480 640 480]);
    (MEDIA_BUS_FMT_SGRBG10_1X10, sizes) ].

Definition driver : Driver := {|
  drv_formats := fun _ _ => formats;
  drv_subdev_open := fun _ => 0;
  drv_dev_open := fun _ => 0;
  drv_getFormat := fun _ _ _ =>
    (0, V4L2SubdeviceFormat.mk MEDIA_BUS_FMT_SGRBG10_1X10 2592 1944);
  drv_setFormat := fun _ _ _ f => (0, f);
  drv_setCrop := fun _ _ _ r => (0, r);
  drv_setCompose := fun _ _ _ r => (0, r);
  drv_devSetFormat := fun _ _ f => (0, f);
  drv_queueBuffer := fun _ _ _ => 0
|}.

Definition sensor_link : MediaLink.t :=
  MediaLink.mk "ov5670 10-0036" MEDIA_ENT_F_CAM_SENSOR 0.

Definition entity (name : string) : MediaEntity.t :=
  MediaEntity.mk name 0 [].

(** Receivers 0 and 2 have a sensor on their sink pad; receivers 1 and 3
    have a sink pad without links. *)
Definition cio2Media : MediaDevice.t :=
  MediaDevice.mk "ipu3-cio2"
    [ MediaEntity.mk "ipu3-csi2 0" 0 [MediaPad.mk [sensor_link]];
      entity "ipu3-cio2 0";
      MediaEntity.mk "ipu3-csi2 1" 0 [MediaPad.mk []];
      entity "ipu3-cio2 1";
      MediaEntity.mk "ipu3-csi2 2" 0
      [MediaPad.mk [MediaLink.mk "imx355 10-001a" MEDIA_ENT_F_CAM_SENSOR 0]];
      entity "ipu3-cio2 2";
      MediaEntity.mk "ipu3-csi2 3" 0 [MediaPad.mk []];
      entity "ipu3-cio2 3" ]
    false 0 0.

Definition imguMedia : MediaDevice.t :=
  MediaDevice.mk "ipu3-imgu"
    (entity <$>
     [ "ipu3-imgu 0"; "ipu3-imgu 0 input"; "ipu3-imgu 0 parameters";
       "ipu3-imgu 0 output"; "ipu3-imgu 0 viewfinder"; "ipu3-imgu 0 3a stat";
       "ipu3-imgu 1"; "ipu3-imgu 1 input"; "ipu3-imgu 1 parameters";
       "ipu3-imgu 1 output"; "ipu3-imgu 1 viewfinder";
       "ipu3-imgu 1 3a stat" ])
    false 0 0.

Definition enumerator : DeviceEnumerator := [cio2Media; imguMedia].

(** The same system when [disableLinks] fails on the ImgU media device. *)
Definition imguMedia_busy : MediaDevice.t :=
  MediaDevice.mk (MediaDevice.driver imguMedia) (MediaDevice.entities imguMedia)
                 false 0 (- EBUSY).

Definition enumerator_busy : DeviceEnumerator := [cio2Media; imguMedia_busy].

(** The handler once [match] has found the two media devices. *)
Definition handler : PipelineHandlerIPU3.t :=
  PipelineHandlerIPU3.mk ImgUDevice.new ImgUDevice.new (Some 0%nat)
                         (Some 1%nat) [].

Definition cio2 : CIO2Device.t :=
  CIO2Device.mk (Some (videodev "ipu3-cio2 0")) (Some (subdev "ipu3-csi2 0"))
    (Some (subdev "ov5670 10-0036")) V4L2_PIX_FMT_IPU3_SGRBG10
    (Size.mk 2592 1944).

Definition imgu0 : ImgUDevice.t :=
  ImgUDevice.mk 0 "ipu3-imgu 0" (Some (subdev "ipu3-imgu 0"))
    (Some (videodev "ipu3-imgu 0 input"))
    (ImgUOutput.mk (Some (videodev "ipu3-imgu 0 output"))
                   ImgUDevice.PAD_OUTPUT "output")
    (ImgUOutput.mk (Some (videodev "ipu3-imgu 0 viewfinder"))
                   ImgUDevice.PAD_VF "viewfinder")
    (ImgUOutput.mk (Some (videodev "ipu3-imgu 0 3a stat"))
                   ImgUDevice.PAD_STAT "stat").

(** The per-camera data of the camera on receiver 0. *)
Definition data : IPU3CameraData.t :=
  IPU3CameraData.mk (Camera.mk "ov5670 10-0036 0" {[ 0%nat ]} []) [] cio2
                    (Some imgu0) 0%nat.

Definition config (width height : Z) : gmap Stream StreamConfiguration.t :=
  {[ 0%nat := StreamConfiguration.mk width height V4L2_PIX_FMT_NV12 4 ]}.

(** A fresh timer on thread 0, and two clock readings. *)
Definition timer_env : Timer.Env := Timer.mk_env 0%nat ∅ [] [].
Definition tp : Timer.timespec := Timer.mk_timespec 1000 500.
Definition tp' : Timer.timespec := Timer.mk_timespec 1000 900000500.
End Sample.

(** ** Releasing the media devices *)

(** Modelled from the spec: a media device is released on owner drop;
    [release] clears the busy flag that [acquire] set. *)
Definition MediaDevice_release (this : MediaDevice.t) : MediaDevice.t :=
  MediaDevice.mk (MediaDevice.driver this) (MediaDevice.entities this) false
                 (MediaDevice.open_ret this) (MediaDevice.disableLinks_ret this).

(** [PipelineHandlerIPU3::~PipelineHandlerIPU3]: the enumerator, whose media
    devices the destructor releases. *)
Definition PipelineHandlerIPU3_destructor (this : PipelineHandlerIPU3.t)
    (enumerator : DeviceEnumerator) : DeviceEnumerator :=
  let enumerator :=
    match PipelineHandlerIPU3.cio2MediaDev_ this with
    | Some cio2Ptr => alter MediaDevice_release cio2Ptr enumerator
    | None => enumerator
    end in
  match PipelineHandlerIPU3.imguMediaDev_ this with
  | Some imguPtr => alter MediaDevice_release imguPtr enumerator
  | None => enumerator
  end.

(** ** The answers of the driver *)

(** What the driver answers to a device call made after the calls [w]: the
    integer the call returns. *)
Definition drv_answer `{Driver} (w : World) (c : Call) : Z :=
  match c with
  | SubdevSetFormat d pad f => fst (drv_setFormat w d pad f)
  | SubdevSetCrop d pad r => fst (drv_setCrop w d pad r)
  | SubdevSetCompose d pad r => fst (drv_setCompose w d pad r)
  | DevSetFormat d f => fst (drv_devSetFormat w d f)
  | DevQueueBuffer d b => drv_queueBuffer w d b
  end.

(** The answers to the calls [calls] made one after the other, the first
    of them after the calls [w]. *)
Fixpoint answers `{Driver} (w : World) (calls : list Call) : list Z :=
  match calls with
  | [] => []
  | c :: calls' => drv_answer w c :: answers (w ++ [c]) calls'
  end.

(** ** A platform without a raw Bayer format

    The sensor lists one YUV format, and every sub-device answers a format
    request with that format. *)

Module SampleYuv.
Definition format : V4L2SubdeviceFormat.t :=
  V4L2SubdeviceFormat.mk 0x2008 640 480.

Definition driver : Driver := {|
  drv_formats := fun _ _ => [(0x2008, [SizeRange.mk 640 480 640 480])];
  drv_subdev_open := fun _ => 0;
  drv_dev_open := fun _ => 0;
  drv_getFormat := fun _ _ _ => (0, format);
  drv_setFormat := fun _ _ _ _ => (0, format);
  drv_setCrop := fun _ _ _ r => (0, r);
  drv_setCompose := fun _ _ _ r => (0, r);
  drv_devSetFormat := fun _ _ f => (0, f);
  drv_queueBuffer := fun _ _ _ => 0
|}.
End SampleYuv.

(** A system with a second, free ImgU media device behind the one whose
    [disableLinks] fails. *)
Definition Sample_enumerator_spare : DeviceEnumerator :=
  Sample.enumerator_busy ++ [Sample.imguMedia].

(** * Properties *)

(** *** mediaBusToFormat *)

Lemma fourcc_values :
  V4L2_PIX_FMT_IPU3_SBGGR10 = 0x62337069
  ∧ V4L2_PIX_FMT_IPU3_SGBRG10 = 0x67337069
  ∧ V4L2_PIX_FMT_IPU3_SGRBG10 = 0x47337069
  ∧ V4L2_PIX_FMT_IPU3_SRGGB10 = 0x72337069
  ∧ V4L2_PIX_FMT_NV12 = 0x3231564e.
Proof. repeat split; reflexivity. Qed.

Lemma mediaBusToFormat_cases code :
  (code ∈ bayer_codes ∧ 0 < mediaBusToFormat code < 2 ^ 31)
  ∨ ((code ∉ bayer_codes) ∧ mediaBusToFormat code = (- EINVAL)).
Proof.
  unfold mediaBusToFormat, bayer_codes.
  destruct (Z.eqb_spec code MEDIA_BUS_FMT_SBGGR10_1X10) as [-> | H1];
    [left; split; [set_solver | vm_compute; split; reflexivity] |].
  destruct (Z.eqb_spec code MEDIA_BUS_FMT_SGBRG10_1X10) as [-> | H2];
    [left; split; [set_solver | vm_compute; split; reflexivity] |].
  destruct (Z.eqb_spec code MEDIA_BUS_FMT_SGRBG10_1X10) as [-> | H3];
    [left; split; [set_solver | vm_compute; split; reflexivity] |].
  destruct (Z.eqb_spec code MEDIA_BUS_FMT_SRGGB10_1X10) as [-> | H4];
    [left; split; [set_solver | vm_compute; split; reflexivity] |].
  right. split; [| reflexivity].
  intros Hin. apply list_elem_of_In in Hin. simpl in Hin. intuition congruence.
Qed.

Lemma consumable_iff code : consumable code = true ↔ code ∈ bayer_codes.
Proof.
  unfold consumable.
  destruct (mediaBusToFormat_cases code) as [[Hin Hpos] | [Hnin Hneg]].
  - split; [done |]. intros _. apply negb_true_iff, Z.ltb_ge. lia.
  - rewrite Hneg. split; [discriminate | done].
Qed.

(** C7: [CIO2Device::mediaBusToFormat] maps the four raw Bayer media-bus
    codes SBGGR10_1X10, SGBRG10_1X10, SGRBG10_1X10 and SRGGB10_1X10 to
    IPU3_SBGGR10, IPU3_SGBRG10, IPU3_SGRBG10 and IPU3_SRGGB10 respectively
    (none of which is negative), and returns the negative error -EINVAL
    for every other code. *)
Theorem mediaBusToFormat_exact :
  mediaBusToFormat MEDIA_BUS_FMT_SBGGR10_1X10 = V4L2_PIX_FMT_IPU3_SBGGR10
  ∧ mediaBusToFormat MEDIA_BUS_FMT_SGBRG10_1X10 = V4L2_PIX_FMT_IPU3_SGBRG10
  ∧ mediaBusToFormat MEDIA_BUS_FMT_SGRBG10_1X10 = V4L2_PIX_FMT_IPU3_SGRBG10
  ∧ mediaBusToFormat MEDIA_BUS_FMT_SRGGB10_1X10 = V4L2_PIX_FMT_IPU3_SRGGB10
  ∧ ∀ code,
      (code ∈ bayer_codes → 0 <= mediaBusToFormat code)
      ∧ (code ∉ bayer_codes →
         mediaBusToFormat code = (- EINVAL) ∧ mediaBusToFormat code < 0).
Proof.
  repeat (split; [reflexivity |]).
  intros code.
  destruct (mediaBusToFormat_cases code) as [[Hin Hpos] | [Hnin Hneg]].
  - split; [intros _; lia | done].
  - split; [done |]. intros _. rewrite Hneg. split; reflexivity.
Qed.

(** *** The format scans *)

Lemma configure_scan_flat config imageSize formats acc :
  fold_left (configure_format_step config imageSize) formats acc
  = fold_left (configure_flat_step config imageSize) (flatten formats) acc.
Proof.
  revert acc. induction formats as [| [code sizes] formats IH]; intros acc.
  - reflexivity.
  - cbn [flatten flat_map fold_left]. rewrite fold_left_app, IH. f_equal.
    unfold configure_format_step. cbn [fst snd].
    destruct (mediaBusToFormat code <? 0) eqn:Hcode.
    + revert acc. induction sizes as [| size sizes IHs]; intros acc;
        [reflexivity |].
      cbn [map fold_left]. unfold configure_flat_step at 2. cbn [fst snd].
      rewrite Hcode. apply IHs.
    + revert acc. induction sizes as [| size sizes IHs]; intros acc;
        [reflexivity |].
      cbn [map fold_left]. unfold configure_flat_step at 2. cbn [fst snd].
      rewrite Hcode. apply IHs.
Qed.

Lemma init_scan_flat formats acc :
  init_scan formats acc = fold_left init_flat_step (flatten formats) acc.
Proof.
  unfold init_scan. revert acc.
  induction formats as [| [code sizes] formats IH]; intros acc.
  - reflexivity.
  - cbn [flatten flat_map fold_left]. rewrite fold_left_app, IH. f_equal.
    unfold init_format_step. cbn [fst snd].
    destruct (mediaBusToFormat code <? 0) eqn:Hcode.
    + revert acc. induction sizes as [| size sizes IHs]; intros acc;
        [reflexivity |].
      cbn [map fold_left]. unfold init_flat_step at 2. cbn [fst snd].
      rewrite Hcode. apply IHs.
    + revert acc. induction sizes as [| size sizes IHs]; intros acc;
        [reflexivity |].
      cbn [map fold_left]. unfold init_flat_step at 2. cbn [fst snd].
      rewrite Hcode. apply IHs.
Qed.

(** The size [init] caches is the initial one or the maximum size of a
    listed range with a consumable code. *)
Lemma init_scan_entry formats acc :
  init_scan formats acc = acc
  ∨ ∃ c, In c (flatten formats)
         ∧ consumable (fst c) = true
         ∧ fst (init_scan formats acc)
           = Size.mk (SizeRange.maxWidth (snd c)) (SizeRange.maxHeight (snd c)).
Proof.
  rewrite init_scan_flat.
  induction (flatten formats) as [| x l IH] using rev_ind.
  - left. reflexivity.
  - rewrite fold_left_app. cbn [fold_left].
    set (acc' := fold_left init_flat_step l acc) in *.
    assert (Hstep : init_flat_step acc' x = acc'
                    ∨ (consumable (fst x) = true
                       ∧ fst (init_flat_step acc' x)
                         = Size.mk (SizeRange.maxWidth (snd x))
                                   (SizeRange.maxHeight (snd x)))).
    { unfold init_flat_step, consumable.
      destruct (mediaBusToFormat (fst x) <? 0); [by left |].
      unfold init_size_step. destruct acc' as [maxSize code].
      destruct (_ && _); [by right | by left]. }
    destruct Hstep as [-> | [Hcons Hfst]].
    + destruct IH as [-> | (c & Hin & Hcons & Hfst)]; [by left |].
      right. exists c. rewrite in_app_iff. auto.
    + right. exists x. rewrite in_app_iff. simpl. auto.
Qed.

Section Selection.
Variable config : StreamConfiguration.t.
Hypothesis width_nonneg : 0 <= StreamConfiguration.width config.
Hypothesis height_nonneg : 0 <= StreamConfiguration.height config.

Let imageSize : Z :=
  u32 (StreamConfiguration.width config * StreamConfiguration.height config).

(** On a candidate whose area fits, the difference the code computes in
    [unsigned int] is the excess area, and is not the initial [best]. *)
Lemma candidate_diff c :
  candidate config c = true →
  SizeRange.maxWidth (snd c) * SizeRange.maxHeight (snd c) < UINT_MAX →
  u32 (u32 (SizeRange.maxWidth (snd c) * SizeRange.maxHeight (snd c))
       - imageSize) = excess config c
  ∧ 0 <= excess config c < UINT_MAX.
Proof.
  unfold candidate, fits, excess, imageSize, u32, UINT_MAX.
  intros Hc Harea. apply andb_true_iff in Hc as [_ Hfit].
  apply andb_true_iff in Hfit as [Hw Hh].
  apply Z.leb_le in Hw, Hh.
  set (W := SizeRange.maxWidth (snd c)) in *.
  set (H := SizeRange.maxHeight (snd c)) in *.
  set (w := StreamConfiguration.width config) in *.
  set (h := StreamConfiguration.height config) in *.
  assert (0 <= w * h <= W * H) by nia.
  rewrite (Z.mod_small (W * H)) by lia.
  rewrite (Z.mod_small (w * h)) by lia.
  rewrite Z.mod_small by lia. lia.
Qed.

Lemma first_minimum_bound cs c x :
  first_minimum config cs c → In x cs → excess config c <= excess config x.
Proof.
  intros (before & after & -> & Hb & Ha) Hin.
  rewrite Forall_forall in Hb, Ha.
  apply in_app_iff in Hin as [Hin | [<- | Hin]].
  - apply list_elem_of_In, Hb in Hin. lia.
  - lia.
  - apply list_elem_of_In, Ha in Hin. lia.
Qed.

(** One iteration of the flattened loop. *)
Lemma selection_step cs acc x :
  SizeRange.maxWidth (snd x) * SizeRange.maxHeight (snd x) < UINT_MAX →
  selection config cs acc →
  selection config (cs ++ List.filter (candidate config) [x])
            (configure_flat_step config imageSize acc x).
Proof.
  intros Harea Hsel. cbn [List.filter].
  destruct (candidate config x) eqn:Hcand.
  - destruct (candidate_diff x Hcand Harea) as [Hdiff Hrange].
    assert (Hstep : configure_flat_step config imageSize acc x
              = if excess config x >=? fst acc then acc
                else (excess config x, format_of x)).
    { unfold configure_flat_step, configure_size_step.
      unfold candidate, consumable, fits in Hcand.
      apply andb_true_iff in Hcand as [Hcons Hfit].
      apply negb_true_iff in Hcons. rewrite Hcons.
      apply andb_true_iff in Hfit as [Hw Hh].
      apply Z.leb_le in Hw, Hh.
      destruct acc as [best fmt]. cbn [fst].
      rewrite (proj2 (Z.ltb_ge _ _) Hw), (proj2 (Z.ltb_ge _ _) Hh).
      cbn [orb]. fold imageSize. rewrite Hdiff. reflexivity. }
    rewrite Hstep. clear Hstep.
    destruct Hsel as [[-> ->] | (c & Hmin & ->)]; cbn [fst].
    + destruct (Z.geb_spec (excess config x) UINT_MAX); [lia |].
      right. exists x. split; [| reflexivity].
      exists [], []. repeat split; constructor.
    + destruct (Z.geb_spec (excess config x) (excess config c)) as [Hge | Hlt].
      * right. exists c. split; [| reflexivity].
        destruct Hmin as (before & after & -> & Hb & Ha).
        exists before, (after ++ [x]). split; [by rewrite <- app_assoc |].
        split; [done |]. apply Forall_app. split; [done |].
        constructor; [lia | constructor].
      * right. exists x. split; [| reflexivity].
        exists cs, []. split; [done |]. split; [| constructor].
        apply Forall_forall. intros y Hy. apply list_elem_of_In in Hy.
        pose proof (first_minimum_bound _ _ _ Hmin Hy). lia.
  - rewrite app_nil_r.
    assert (Hstep : configure_flat_step config imageSize acc x = acc);
      [| by rewrite Hstep].
    unfold configure_flat_step, configure_size_step.
    unfold candidate, consumable, fits in Hcand.
    destruct (mediaBusToFormat (fst x) <? 0); [done |].
    cbn [negb andb] in Hcand. destruct acc as [best fmt].
    apply andb_false_iff in Hcand as [Hw | Hh].
    + apply Z.leb_gt in Hw. rewrite (proj2 (Z.ltb_lt _ _) Hw). done.
    + apply Z.leb_gt in Hh. rewrite (proj2 (Z.ltb_lt _ _) Hh).
      by rewrite orb_true_r.
Qed.

(** The scan of [CIO2Device::configure] leaves the first candidate of
    minimal excess in [sensorFormat]. *)
Lemma configure_scan_selection formats :
  areas_fit formats →
  selection config (candidates formats config) (configure_scan formats config).
Proof.
  unfold areas_fit, candidates, configure_scan. fold imageSize.
  rewrite configure_scan_flat.
  induction (flatten formats) as [| x l IH] using rev_ind; intros Hareas.
  - left. done.
  - apply Forall_app in Hareas as [Hl Hx]. inversion_clear Hx.
    rewrite List.filter_app, fold_left_app. cbn [fold_left].
    apply selection_step; auto.
Qed.
End Selection.

(** Sizes below 65536 in each dimension have areas that fit. *)
Lemma areas_fit_16bit formats :
  Forall (fun c => 0 <= SizeRange.maxWidth (snd c) < 65536
                   ∧ 0 <= SizeRange.maxHeight (snd c) < 65536)
         (flatten formats) →
  areas_fit formats.
Proof.
  unfold areas_fit, UINT_MAX. intros Hsizes.
  eapply Forall_impl; [exact Hsizes |]. intros c [Hw Hh]. cbn beta. nia.
Qed.

(** *** What a successful init leaves behind *)

(** One test of an init function: a name looked up in the media device, or
    the result of a call compared with 0. *)
Ltac init_step :=
  match goal with
  | |- context [MediaDevice.getEntityByName ?m ?n] =>
      destruct (MediaDevice.getEntityByName m n);
      cbn [mbind option_bind]; [| intros ?; discriminate]
  | |- context [negb (?r =? 0)] =>
      destruct (Z.eqb_spec r 0); cbn [negb];
      [| intros ?; simplify_eq]
  end.

Section InitOk.
Context `{Driver}.

Lemma CIO2Device_init_ok media id cio2 :
  CIO2Device_init CIO2Device.new media id = Some (0, cio2) →
  ∃ sensor csi2 output,
    cio2 = CIO2Device.mk (Some (videodev output)) (Some (subdev csi2))
             (Some (subdev sensor))
             (snd (init_scan (drv_formats (subdev sensor) 0) (Size.zero, 0)))
             (fst (init_scan (drv_formats (subdev sensor) 0) (Size.zero, 0)))
    ∧ Size.width (fst (init_scan (drv_formats (subdev sensor) 0)
                                 (Size.zero, 0))) ≠ 0.
Proof.
  unfold CIO2Device_init, V4L2Device_fromEntityName, subdev_formats.
  init_step.
  destruct (MediaEntity.pads _) as [| sink pads]; [intros ?; discriminate |].
  destruct (MediaPad.links sink) as [| link links];
    [intros ?; discriminate |].
  destruct (negb (MediaLink.source_function link =? _));
    [intros ?; discriminate |].
  do 2 init_step.
  cbn [CIO2Device.set_sensor CIO2Device.set_maxSize CIO2Device.set_csi2
       CIO2Device.set_output CIO2Device.maxSize_ CIO2Device.mbusCode_
       CIO2Device.output_ CIO2Device.csi2_ CIO2Device.sensor_ CIO2Device.new].
  set (scan := init_scan _ _).
  destruct (Z.eqb_spec (Size.width (fst scan)) 0) as [| Hwidth];
    [intros ?; discriminate |].
  do 3 init_step.
  intros [= <-]. eexists (MediaLink.source_name link), _, _.
  split; [reflexivity | done].
Qed.

Lemma ImgUDevice_init_ok this media index imgu :
  ImgUDevice_init this media index = Some (0, imgu) →
  ∃ name_ sub input output viewfinder stat,
    imgu = ImgUDevice.mk index name_ (Some (subdev sub))
             (Some (videodev input))
             (ImgUOutput.mk (Some (videodev output)) ImgUDevice.PAD_OUTPUT
                            "output")
             (ImgUOutput.mk (Some (videodev viewfinder)) ImgUDevice.PAD_VF
                            "viewfinder")
             (ImgUOutput.mk (Some (videodev stat)) ImgUDevice.PAD_STAT
                            "stat").
Proof.
  unfold ImgUDevice_init, V4L2Subdevice_fromEntityName,
    V4L2Device_fromEntityName.
  cbn [ImgUDevice.set_name ImgUDevice.name_].
  do 10 init_step.
  intros [= <-]. cbn. repeat eexists.
Qed.
End InitOk.

(** *** configureStreams *)

Section ConfigureStreams.
Context `{Driver}.

(** C2: when the configuration requested for the camera's stream has a
    width that is not a multiple of 8, a height that is not a multiple of
    4, or a width or height above the cached sensor maximum size,
    [configureStreams] returns -EINVAL, makes no device call (the history
    of calls is unchanged) and leaves the configuration map as it was. *)
Theorem configureStreams_rejects data config cfg w :
  config !! IPU3CameraData.stream_ data = Some cfg →
  StreamConfiguration.width cfg mod 8 ≠ 0
  ∨ StreamConfiguration.height cfg mod 4 ≠ 0
  ∨ StreamConfiguration.width cfg
    > Size.width (CIO2Device.maxSize_ (IPU3CameraData.cio2_ data))
  ∨ StreamConfiguration.height cfg
    > Size.height (CIO2Device.maxSize_ (IPU3CameraData.cio2_ data)) →
  configureStreams data config w = Some ((- EINVAL, config), w).
Proof.
  intros Hcfg Hbad. unfold configureStreams, map_subscript. rewrite Hcfg.
  destruct (Z.eqb_spec (StreamConfiguration.width cfg mod 8) 0) as [Hw |];
    [| reflexivity].
  destruct (Z.eqb_spec (StreamConfiguration.height cfg mod 4) 0) as [Hh |];
    [| reflexivity].
  cbn [negb orb].
  destruct (Z.gtb_spec (StreamConfiguration.width cfg)
              (Size.width (CIO2Device.maxSize_ (IPU3CameraData.cio2_ data))));
    [reflexivity |].
  destruct (Z.gtb_spec (StreamConfiguration.height cfg)
              (Size.height (CIO2Device.maxSize_ (IPU3CameraData.cio2_ data))));
    [reflexivity |].
  lia.
Qed.

Lemma consumable_fourcc code :
  consumable code = true → u32 (mediaBusToFormat code) = mediaBusToFormat code.
Proof.
  intros Hc. apply consumable_iff in Hc.
  destruct (mediaBusToFormat_cases code) as [[_ Hpos] | [Hnin _]]; [| done].
  unfold u32. apply Z.mod_small. lia.
Qed.

(** C1: on a camera whose devices were initialised, with a sensor whose
    listed sizes have areas below [UINT_MAX], for every requested size that
    passes the alignment and oversize checks, the format
    [CIO2Device::configure] selects is the first candidate of minimal
    excess area among the sensor formats with a consumable code and a
    maximum size at least the requested one; and when the devices take
    every format as given, [configureStreams] returns 0 after it has
    applied that format to the sensor, the CSI-2 receiver and the CIO2
    output, and propagated the requested size to the ImgU output,
    viewfinder and statistics nodes. *)
Theorem configureStreams_selects cio2Media imguMedia id index data config
    cfg w :
  initialised cio2Media imguMedia id index data →
  areas_fit (sensor_formats data) →
  config !! IPU3CameraData.stream_ data = Some cfg →
  0 <= StreamConfiguration.width cfg →
  0 <= StreamConfiguration.height cfg →
  StreamConfiguration.width cfg mod 8 = 0 →
  StreamConfiguration.height cfg mod 4 = 0 →
  StreamConfiguration.width cfg
    <= Size.width (CIO2Device.maxSize_ (IPU3CameraData.cio2_ data)) →
  StreamConfiguration.height cfg
    <= Size.height (CIO2Device.maxSize_ (IPU3CameraData.cio2_ data)) →
  ∃ c calls,
    first_minimum cfg (candidates (sensor_formats data) cfg) c
    ∧ snd (configure_scan (sensor_formats data) cfg) = format_of c
    ∧ configure_calls data (format_of c) cfg = Some calls
    ∧ (accepting →
       configureStreams data config w = Some ((0, config), w ++ calls)).
Proof.
  intros [Hcio2 (imgu & Himgu & Hinit)]
    Hareas Hcfg Hw0 Hh0 Hw8 Hh4 Hwmax Hhmax.
  apply CIO2Device_init_ok in Hcio2
    as (sensor & csi2 & output & Hcio2 & Hwidth).
  apply ImgUDevice_init_ok in Hinit
    as (name_ & sub & input & out & vf & stat & ->).
  destruct data as [camera queue cio2 imgu_ stream].
  cbn [IPU3CameraData.cio2_ IPU3CameraData.imgu_ IPU3CameraData.stream_] in *.
  subst cio2 imgu_. unfold sensor_formats in *.
  cbn [IPU3CameraData.cio2_ CIO2Device.sensor_ CIO2Device.maxSize_] in *.
  set (formats := drv_formats (subdev sensor) 0) in *.
  (* the scan selects the first candidate of minimal excess *)
  pose proof (configure_scan_selection cfg Hw0 Hh0 formats Hareas) as Hsel.
  assert (Hne : candidates formats cfg ≠ []).
  { destruct (init_scan_entry formats (Size.zero, 0))
      as [Heq | (c0 & Hin & Hcons & Hmax)].
    - rewrite Heq in Hwidth. done.
    - intros Hnil.
      assert (Hc0 : In c0 (candidates formats cfg)); [| by rewrite Hnil in Hc0].
      apply filter_In. split; [done |].
      unfold candidate, fits. rewrite Hcons, Hmax in *.
      cbn [Size.width Size.height andb] in *.
      apply andb_true_iff. split; by apply Z.leb_le. }
  destruct Hsel as [[Hnil _] | (c & Hmin & Hscan)]; [done |].
  assert (Hcons : consumable (fst c) = true).
  { destruct Hmin as (before & after & Heq & _).
    assert (Hin : In c (candidates formats cfg))
      by (rewrite Heq; apply in_app_iff; right; by left).
    apply filter_In in Hin as [_ Hc].
    by apply andb_true_iff in Hc as [? _]. }
  exists c. eexists. split; [exact Hmin |].
  split; [by rewrite Hscan |]. split; [reflexivity |].
  (* run the handler *)
  intros (Hfmt & Hcrop & Hcompose & Hdev).
  unfold configureStreams, map_subscript.
  cbn [IPU3CameraData.cio2_ IPU3CameraData.imgu_ IPU3CameraData.stream_
       CIO2Device.maxSize_].
  rewrite Hcfg, Hw8, Hh4. cbn [Z.eqb negb orb].
  destruct (Z.gtb_spec (StreamConfiguration.width cfg)
              (Size.width (fst (init_scan formats (Size.zero, 0)))));
    [lia |].
  destruct (Z.gtb_spec (StreamConfiguration.height cfg)
              (Size.height (fst (init_scan formats (Size.zero, 0)))));
    [lia |].
  cbn [orb].
  unfold CIO2Device_configure, ImgUDevice_configureInput,
    ImgUDevice_configureOutput, bind_M, ret_M, deref, subdev_setFormat,
    subdev_setCrop, subdev_setCompose, dev_setFormat, subdev_formats.
  cbn [CIO2Device.sensor_ CIO2Device.csi2_ CIO2Device.output_
       ImgUDevice.imgu_ ImgUDevice.input_ ImgUDevice.output
       ImgUDevice.output_ ImgUDevice.viewfinder_ ImgUDevice.stat_
       ImgUOutput.dev ImgUOutput.pad ImgUDevice.is_stat].
  fold formats. rewrite Hscan. cbn [snd].
  repeat (rewrite ?Hfmt, ?Hcrop, ?Hcompose, ?Hdev; cbn [Z.eqb negb]).
  rewrite <- !app_assoc. cbn [app format_of V4L2SubdeviceFormat.width
    V4L2SubdeviceFormat.height V4L2SubdeviceFormat.mbus_code
    V4L2DeviceFormat.width V4L2DeviceFormat.height].
  rewrite (consumable_fourcc _ Hcons). reflexivity.
Qed.
End ConfigureStreams.

Lemma configureStreams_rejects_witness :
  @configureStreams Sample.driver Sample.data (Sample.config 641 480) []
  = Some ((- EINVAL, Sample.config 641 480), []).
Proof.
  apply (@configureStreams_rejects Sample.driver Sample.data
           (Sample.config 641 480)
           (StreamConfiguration.mk 641 480 V4L2_PIX_FMT_NV12 4) []).
  - reflexivity.
  - left. vm_compute. discriminate.
Defined.

Lemma Sample_accepting : @accepting Sample.driver.
Proof. repeat split. Qed.

Lemma Sample_initialised :
  @initialised Sample.driver Sample.cio2Media Sample.imguMedia 0 0 Sample.data.
Proof.
  split; [vm_compute; reflexivity |].
  exists Sample.imgu0. split; [reflexivity | vm_compute; reflexivity].
Qed.

Lemma Sample_areas_fit : areas_fit (@sensor_formats Sample.driver Sample.data).
Proof. repeat constructor. Qed.

Lemma configureStreams_selects_witness :
  ∃ c calls,
    first_minimum (StreamConfiguration.mk 1280 720 V4L2_PIX_FMT_NV12 4)
      (candidates (@sensor_formats Sample.driver Sample.data)
                  (StreamConfiguration.mk 1280 720 V4L2_PIX_FMT_NV12 4)) c
    ∧ format_of c
      = V4L2SubdeviceFormat.mk MEDIA_BUS_FMT_SGRBG10_1X10 1280 720
    ∧ configure_calls Sample.data (format_of c)
        (StreamConfiguration.mk 1280 720 V4L2_PIX_FMT_NV12 4) = Some calls
    ∧ @configureStreams Sample.driver Sample.data (Sample.config 1280 720) []
      = Some ((0, Sample.config 1280 720), [] ++ calls).
Proof.
  destruct (@configureStreams_selects Sample.driver Sample.cio2Media
              Sample.imguMedia 0 0 Sample.data (Sample.config 1280 720)
              (StreamConfiguration.mk 1280 720 V4L2_PIX_FMT_NV12 4) [])
    as (c & calls & Hmin & Hsel & Hcalls & Hrun).
  - exact Sample_initialised.
  - exact Sample_areas_fit.
  - reflexivity.
  - vm_compute. discriminate.
  - vm_compute. discriminate.
  - reflexivity.
  - reflexivity.
  - vm_compute. discriminate.
  - vm_compute. discriminate.
  - exists c, calls. split; [exact Hmin |]. split; [by rewrite <- Hsel |].
    split; [exact Hcalls |]. exact (Hrun Sample_accepting).
Defined.

(** Why the areas must fit.  When the excess area of the only candidate
    is [UINT_MAX], the initial value of [best], nothing is selected; and
    an area that wraps around modulo 2^32 can beat a smaller one. *)
Example configure_scan_sentinel :
  configure_scan [(MEDIA_BUS_FMT_SGRBG10_1X10, [SizeRange.mk 0 0 65535 65537])]
                 (StreamConfiguration.mk 0 0 V4L2_PIX_FMT_NV12 4)
  = (UINT_MAX, V4L2SubdeviceFormat.zero).
Proof. reflexivity. Qed.

Example configure_scan_wraps :
  snd (configure_scan
         [(MEDIA_BUS_FMT_SGRBG10_1X10,
           [SizeRange.mk 0 0 1280 720; SizeRange.mk 0 0 65536 65541])]
         (StreamConfiguration.mk 640 480 V4L2_PIX_FMT_NV12 4))
  = V4L2SubdeviceFormat.mk MEDIA_BUS_FMT_SGRBG10_1X10 65536 65541.
Proof. reflexivity. Qed.

(** *** streamConfiguration *)

(** C6, as stated, fails: asked for two streams, [streamConfiguration]
    returns a single configuration, that of the camera's own stream. *)
Lemma streamConfiguration_ignores_streams :
  ({[ 0%nat; 1%nat ]} : gset Stream) ≠ ∅
  ∧ fst (drv_getFormat (Driver := Sample.driver) []
           (subdev "ov5670 10-0036") 0) = 0
  ∧ ∃ configs,
      @streamConfiguration Sample.driver Sample.data {[ 0%nat; 1%nat ]} []
      = Some (configs, [])
      ∧ dom configs ≠ {[ 0%nat; 1%nat ]}
      ∧ configs !! 1%nat = None.
Proof.
  split; [by vm_compute |]. split; [reflexivity |].
  exists {[ 0%nat := StreamConfiguration.mk 2592 1944
                       V4L2_PIX_FMT_IPU3_SGRBG10 4 ]}.
  split; [by vm_compute |]. split; by vm_compute.
Qed.

(** C6, amended: for every set of requested streams, [streamConfiguration]
    makes no device call and returns exactly one configuration, for the
    camera's own stream whatever streams were requested, holding the width
    and height of the sensor's current format, pixel format IPU3_SGRBG10
    and bufferCount 4; it returns no configuration when querying the
    sensor's current format fails.  The result has one configuration per
    requested stream when the requested set is the camera's stream. *)
Theorem streamConfiguration_single `{Driver} data streams w sensor :
  CIO2Device.sensor_ (IPU3CameraData.cio2_ data) = Some sensor →
  ∃ configs,
    streamConfiguration data streams w = Some (configs, w)
    ∧ (fst (drv_getFormat w sensor 0) ≠ 0 → configs = ∅)
    ∧ (fst (drv_getFormat w sensor 0) = 0 →
       configs
       = {[ IPU3CameraData.stream_ data :=
              StreamConfiguration.mk
                (V4L2SubdeviceFormat.width (snd (drv_getFormat w sensor 0)))
                (V4L2SubdeviceFormat.height (snd (drv_getFormat w sensor 0)))
                V4L2_PIX_FMT_IPU3_SGRBG10 4 ]}
       ∧ (streams = {[ IPU3CameraData.stream_ data ]} → dom configs = streams)).
Proof.
  intros Hsensor.
  unfold streamConfiguration, bind_M, ret_M, deref, subdev_getFormat.
  rewrite Hsensor. destruct (drv_getFormat w sensor 0) as [ret format].
  cbn [fst snd]. destruct (Z.eqb_spec ret 0) as [-> | Hret]; cbn [negb].
  - eexists. split; [reflexivity |]. split; [done |]. intros _.
    split; [apply insert_empty |]. intros ->.
    by rewrite dom_insert_L, dom_empty_L, union_empty_r_L.
  - eexists. split; [reflexivity |]. split; done.
Qed.

Lemma streamConfiguration_single_witness :
  ∃ configs,
    @streamConfiguration Sample.driver Sample.data {[ 0%nat ]} []
    = Some (configs, [])
    ∧ configs
      = {[ 0%nat := StreamConfiguration.mk 2592 1944
                      V4L2_PIX_FMT_IPU3_SGRBG10 4 ]}
    ∧ dom configs = {[ 0%nat ]}.
Proof.
  destruct (@streamConfiguration_single Sample.driver Sample.data {[ 0%nat ]}
              [] (subdev "ov5670 10-0036") eq_refl)
    as (configs & Hrun & _ & Hok).
  destruct (Hok eq_refl) as [Hconfigs Hdom].
  exists configs. split; [exact Hrun |]. split; [exact Hconfigs |].
  exact (Hdom eq_refl).
Defined.

(** *** queueRequest *)

(** C4, as stated, fails: for a request without a buffer for the camera's
    stream, [queueRequest] returns -ENOENT, which is none of the documented
    error codes. *)
Lemma queueRequest_ENOENT_undocumented :
  @queueRequest Sample.driver Sample.data (Request.mk 0 ∅) []
  = Some ((- ENOENT, Sample.data), [])
  ∧ - ENOENT ≠ 0
  ∧ ¬ ∃ e, e ∈ documented_errors ∧ - ENOENT = - e.
Proof.
  split; [reflexivity |]. split; [done |].
  intros (e & He & Heq). assert (e = ENOENT) as -> by lia.
  apply list_elem_of_In in He. vm_compute in He.
  repeat destruct He as [He | He]; try discriminate He. done.
Qed.

(** C4, amended: [queueRequest] returns -ENOENT when the request holds no
    buffer for the camera's stream, and the negative value the ingress
    device returned when the device refuses the buffer; whenever it
    returns a nonzero value, that value is negative and is one of these
    two, and the per-camera data, with its queued FIFO, is unchanged: no
    request is appended. *)
Theorem queueRequest_failure `{Driver} data request w cio2 :
  CIO2Device.output_ (IPU3CameraData.cio2_ data) = Some cio2 →
  ∃ ret data' w',
    queueRequest data request w = Some ((ret, data'), w')
    ∧ (Request.findBuffer request (IPU3CameraData.stream_ data) = None →
       ret = - ENOENT ∧ data' = data ∧ w' = w)
    ∧ (∀ buffer,
         Request.findBuffer request (IPU3CameraData.stream_ data)
         = Some buffer →
         drv_queueBuffer w cio2 buffer < 0 →
         ret = drv_queueBuffer w cio2 buffer ∧ data' = data)
    ∧ (ret ≠ 0 →
       ret < 0
       ∧ data' = data
       ∧ (Request.findBuffer request (IPU3CameraData.stream_ data) = None
          ∧ ret = - ENOENT
          ∨ ∃ buffer,
              Request.findBuffer request (IPU3CameraData.stream_ data)
              = Some buffer
              ∧ ret = drv_queueBuffer w cio2 buffer)).
Proof.
  intros Hcio2. unfold queueRequest.
  destruct (Request.findBuffer request _) as [buffer |].
  - unfold bind_M, ret_M, deref, dev_queueBuffer. rewrite Hcio2.
    destruct (Z.ltb_spec (drv_queueBuffer w cio2 buffer) 0) as [Hneg | Hpos].
    + do 3 eexists. split; [reflexivity |]. split; [done |].
      split; [by intros ? [= <-] |]. intros _. split; [done |].
      split; [done |]. right. by exists buffer.
    + do 3 eexists. split; [reflexivity |]. split; [done |].
      split; [intros ? [= <-]; lia | done].
  - do 3 eexists. split; [reflexivity |]. split; [done |].
    split; [done |]. intros _. split; [done |]. split; [done |]. by left.
Qed.

Lemma queueRequest_failure_witness :
  ∃ ret data' w',
    @queueRequest Sample.driver Sample.data (Request.mk 0 ∅) []
    = Some ((ret, data'), w')
    ∧ ret = - ENOENT ∧ data' = Sample.data ∧ w' = [].
Proof.
  destruct (@queueRequest_failure Sample.driver Sample.data (Request.mk 0 ∅)
              [] (videodev "ipu3-cio2 0") eq_refl)
    as (ret & data' & w' & Hrun & Hnone & _).
  exists ret, data', w'. split; [exact Hrun |]. exact (Hnone eq_refl).
Defined.

(** *** Completion in queue order *)

Lemma completed_app s1 s2 :
  Capture.completed (s1 ++ s2) = Capture.completed s1 ++ Capture.completed s2.
Proof.
  induction s1 as [| [r b | r] s1 IH]; cbn [Capture.completed app];
    [done | done | by rewrite IH].
Qed.

Lemma queued_app rs1 rs2 :
  Capture.queued (rs1 ++ rs2) = Capture.queued rs1 ++ Capture.queued rs2.
Proof. unfold Capture.queued. by rewrite filter_app, fmap_app. Qed.

Lemma queued_one r ret :
  Capture.queued [(r, ret)] = if ret =? 0 then [r] else [].
Proof.
  unfold Capture.queued. rewrite filter_cons, filter_nil. cbn [snd].
  destruct (Z.eqb_spec ret 0); case_decide; done.
Qed.

(** The slot completes the request at the head of the queue. *)
Lemma bufferReady_head data r q buffer :
  IPU3CameraData.queuedRequests_ data = r :: q →
  ∃ data',
    bufferReady data buffer = Some data'
    ∧ IPU3CameraData.queuedRequests_ data' = q
    ∧ Camera.emitted (IPU3CameraData.camera_ data')
      = Camera.emitted (IPU3CameraData.camera_ data)
        ++ [bufferCompleted r buffer; requestCompleted r]
    ∧ IPU3CameraData.stream_ data' = IPU3CameraData.stream_ data
    ∧ IPU3CameraData.cio2_ data' = IPU3CameraData.cio2_ data.
Proof.
  intros Hq. unfold bufferReady. rewrite Hq. eexists. split; [reflexivity |].
  unfold PipelineHandler_completeRequest, PipelineHandler_completeBuffer.
  cbn. rewrite Hq. cbn. by rewrite <- app_assoc.
Qed.

(** When every completed request holds one buffer, each [requestCompleted]
    comes when all streams of its request have a completed buffer. *)
Lemma completions_justified_single stream done :
  Forall (single_stream stream) done →
  Capture.completions_justified (flat_map (Capture.completion stream) done).
Proof.
  induction done as [| r1 done IH]; intros Hsingle before r after Heq.
  - by destruct before.
  - inversion_clear Hsingle as [| ? ? Hr1 Hdone].
    cbn [flat_map] in Heq. unfold Capture.completion at 1 in Heq.
    destruct (Request.findBuffer r1 stream) as [b1 |] eqn:Hb1.
    + destruct before as [| x [| y before]]; [done | |].
      * injection Heq as <- <- _. intros st b Hst.
        assert (st = stream) as ->.
        { apply elem_of_dom_2 in Hst. apply Hr1 in Hst.
          by apply elem_of_singleton in Hst. }
        unfold Request.findBuffer in Hb1. rewrite Hb1 in Hst.
        injection Hst as ->. by left.
      * injection Heq as <- <- Heq. intros st b Hst.
        do 2 right. by apply (IH Hdone before r after Heq st b).
    + cbn [app] in Heq. by apply (IH Hdone before r after Heq).
Qed.

Section Fifo.
Context `{Driver}.
Hypothesis queueBuffer_ret : ∀ w d b, drv_queueBuffer w d b <= 0.

Variable stream : Stream.
Variable cio2 : CIO2Device.t.
Variable output : V4L2Device.
Hypothesis output_set : CIO2Device.output_ cio2 = Some output.

Lemma step_inv s a :
  capture_inv stream cio2 s →
  (∀ r, a = Capture.Queue r → single_stream stream r) →
  ∃ s', Capture.step s a = Some s' ∧ capture_inv stream cio2 s'.
Proof.
  intros [Hstream Hcio2 Hhw Hfifo Hsignals Hsingle] Ha.
  destruct a as [r |].
  - (* queueRequest *)
    specialize (Ha r eq_refl).
    unfold Capture.step, Capture.accepted, queueRequest.
    rewrite Hstream, Hcio2, output_set.
    destruct (Request.findBuffer r stream) as [b |] eqn:Hb.
    + unfold bind_M, ret_M, deref, dev_queueBuffer.
      pose proof (queueBuffer_ret (Capture.world s) output b) as Hret.
      destruct (Z.ltb_spec (drv_queueBuffer (Capture.world s) output b) 0)
        as [Hneg | Hpos]; cbn [mbind option_bind].
      * (* the device refuses the buffer *)
        assert (E : (drv_queueBuffer (Capture.world s) output b =? 0) = false)
          by (apply Z.eqb_neq; lia).
        rewrite E, app_nil_r. eexists. split; [reflexivity |].
        constructor;
          cbn [Capture.data Capture.hw Capture.returns]; try done.
        -- by rewrite queued_app, queued_one, E, app_nil_r.
        -- by rewrite queued_app, queued_one, E, app_nil_r.
      * (* the device takes the buffer *)
        assert (Hzero : drv_queueBuffer (Capture.world s) output b = 0) by lia.
        rewrite Hzero. cbn [Z.eqb]. eexists. split; [reflexivity |].
        unfold PipelineHandler_queueRequest.
        constructor;
          cbn [Capture.data Capture.hw Capture.returns
               IPU3CameraData.set_queuedRequests IPU3CameraData.stream_
               IPU3CameraData.cio2_ IPU3CameraData.queuedRequests_
               IPU3CameraData.camera_]; try done.
        -- apply Forall2_app; [done | by constructor].
        -- rewrite queued_app, queued_one. cbn [Z.eqb].
           by rewrite app_assoc, Hfifo.
        -- rewrite queued_app, queued_one. cbn [Z.eqb].
           apply Forall_app. split; [done | by constructor].
    + unfold ret_M. cbn [mbind option_bind]. rewrite app_nil_r.
      eexists. split; [reflexivity |].
      assert (E : (- ENOENT =? 0) = false) by reflexivity.
      constructor; cbn [Capture.data Capture.hw Capture.returns]; try done.
      * by rewrite queued_app, queued_one, E, app_nil_r.
      * by rewrite queued_app, queued_one, E, app_nil_r.
  - (* a buffer completes *)
    unfold Capture.step. destruct (Capture.hw s) as [| b hw'] eqn:Hhw'.
    + eexists. split; [reflexivity |]. constructor; try done.
      by rewrite Hhw'.
    + destruct (IPU3CameraData.queuedRequests_ (Capture.data s))
        as [| r q] eqn:Hq; [inversion Hhw |].
      apply Forall2_cons_1 in Hhw as [Hb Hhw].
      destruct (bufferReady_head _ r q b Hq)
        as (data' & -> & Hq' & Hemit & Hstream' & Hcio2').
      cbn [mbind option_bind]. eexists. split; [reflexivity |].
      constructor; cbn [Capture.data Capture.hw Capture.returns].
      * congruence.
      * congruence.
      * by rewrite Hq'.
      * rewrite Hq', Hemit, completed_app. cbn [Capture.completed].
        by rewrite <- app_assoc.
      * rewrite Hemit, completed_app. cbn [Capture.completed].
        rewrite flat_map_app, <- Hsignals. cbn [flat_map].
        unfold Capture.completion. rewrite Hb. by rewrite app_nil_r.
      * done.
Qed.

Lemma run_inv actions : ∀ s,
  capture_inv stream cio2 s →
  (∀ r, Capture.Queue r ∈ actions → single_stream stream r) →
  ∃ s', Capture.run s actions = Some s' ∧ capture_inv stream cio2 s'.
Proof.
  induction actions as [| a actions IH]; intros s Hinv Hsingle.
  - exists s. done.
  - destruct (step_inv s a Hinv) as (s1 & Hstep & Hinv1).
    { intros r ->. apply Hsingle. by left. }
    destruct (IH s1 Hinv1) as (s' & Hrun & Hinv').
    { intros r Hr. apply Hsingle. by right. }
    exists s'. cbn [Capture.run]. rewrite Hstep. done.
Qed.
End Fifo.

Lemma constructible_streams camera r :
  constructible camera r →
  dom (Request.bufferMap_ r) ⊆ Camera.streams camera.
Proof.
  induction 1 as [cookie | r stream buffer r' _ IH Hadd].
  - cbn. rewrite dom_empty_L. apply empty_subseteq.
  - unfold Request_addBuffer in Hadd.
    destruct (decide (stream ∈ Camera.streams camera)) as [Hin |];
      [| discriminate].
    destruct (Request.bufferMap_ r !! stream); [discriminate |].
    injection Hadd as <-. cbn. rewrite dom_insert_L.
    apply union_least; [by apply singleton_subseteq_l | done].
Qed.

(** C3: take a camera whose only stream is the ingress stream, with
    nothing queued and no signal emitted, an ingress device that answers
    [queueBuffer] with 0 or a negative error, and any sequence of
    [queueRequest] calls, on requests built for the camera, and of buffer
    completions.  Each invocation of the completion slot completes the
    request at the head of the queued FIFO: it emits [bufferCompleted] for
    that request and the completed buffer, then [requestCompleted], and
    pops the request.  The session runs without reading an empty queue;
    the signals emitted are, for the completed requests in order,
    [bufferCompleted] followed by [requestCompleted]; every
    [requestCompleted] comes when all streams of its request have a
    completed buffer; and the completed requests followed by the ones
    still queued are the accepted requests in the order they were queued,
    so the order of [requestCompleted] is the order of [queueRequest]. *)
Theorem requests_complete_in_queue_order `{Driver} data w actions output :
  (∀ w d b, drv_queueBuffer w d b <= 0) →
  CIO2Device.output_ (IPU3CameraData.cio2_ data) = Some output →
  Camera.streams (IPU3CameraData.camera_ data)
  = {[ IPU3CameraData.stream_ data ]} →
  IPU3CameraData.queuedRequests_ data = [] →
  Camera.emitted (IPU3CameraData.camera_ data) = [] →
  (∀ r, Capture.Queue r ∈ actions →
        constructible (IPU3CameraData.camera_ data) r) →
  (∀ d r q buffer,
     IPU3CameraData.queuedRequests_ d = r :: q →
     ∃ d', bufferReady d buffer = Some d'
           ∧ IPU3CameraData.queuedRequests_ d' = q
           ∧ Camera.emitted (IPU3CameraData.camera_ d')
             = Camera.emitted (IPU3CameraData.camera_ d)
               ++ [bufferCompleted r buffer; requestCompleted r])
  ∧ ∃ s,
      Capture.run (Capture.mk data w [] []) actions = Some s
      ∧ let signals := Camera.emitted (IPU3CameraData.camera_ (Capture.data s)) in
        Capture.completed signals
        ++ IPU3CameraData.queuedRequests_ (Capture.data s)
        = Capture.queued (Capture.returns s)
        ∧ signals
          = flat_map (Capture.completion (IPU3CameraData.stream_ data))
                     (Capture.completed signals)
        ∧ Capture.completions_justified signals
        ∧ (Capture.hw s = [] →
           Capture.completed signals = Capture.queued (Capture.returns s)).
Proof.
  intros Hret Houtput Hstreams Hqueue Hemitted Hbuilt. split.
  { intros d r q buffer Hq.
    destruct (bufferReady_head d r q buffer Hq) as (d' & ? & ? & ? & _).
    by exists d'. }
  destruct (run_inv Hret (IPU3CameraData.stream_ data)
              (IPU3CameraData.cio2_ data) output Houtput actions
              (Capture.mk data w [] []))
    as (s & Hrun & [Hstream Hcio2 Hhw Hfifo Hsignals Hsingles]).
  { constructor; cbn [Capture.data Capture.hw Capture.returns];
      rewrite ?Hqueue, ?Hemitted; try done; constructor. }
  { intros r Hr. unfold single_stream. rewrite <- Hstreams.
    by apply constructible_streams, Hbuilt. }
  exists s. split; [exact Hrun |]. cbn zeta.
  split; [exact Hfifo |]. split; [exact Hsignals |]. split.
  - rewrite Hsignals. apply completions_justified_single.
    rewrite <- Hfifo in Hsingles. by apply Forall_app in Hsingles as [? _].
  - intros Hempty. rewrite Hempty in Hhw. apply Forall2_nil_inv_r in Hhw.
    by rewrite <- Hfifo, Hhw, app_nil_r.
Qed.

Lemma Sample_constructible cookie buffer :
  constructible (IPU3CameraData.camera_ Sample.data)
                (Request.mk cookie {[ 0%nat := buffer ]}).
Proof.
  apply (constructible_add _ (Camera_createRequest cookie) 0%nat buffer);
    [constructor |].
  unfold Request_addBuffer, Sample.data.
  cbn [IPU3CameraData.camera_ Camera.streams].
  rewrite decide_True by (by apply elem_of_singleton).
  cbn. by rewrite lookup_empty, insert_empty.
Qed.

Lemma requests_complete_in_queue_order_witness :
  ∃ s,
    @Capture.run Sample.driver (Capture.mk Sample.data [] [] [])
      [ Capture.Queue (Request.mk 1 {[ 0%nat := 10%nat ]});
        Capture.Queue (Request.mk 2 {[ 0%nat := 11%nat ]});
        Capture.Complete;
        Capture.Queue (Request.mk 3 {[ 0%nat := 12%nat ]});
        Capture.Complete; Capture.Complete ] = Some s
    ∧ Capture.completed
        (Camera.emitted (IPU3CameraData.camera_ (Capture.data s)))
      = Capture.queued (Capture.returns s).
Proof.
  destruct (@requests_complete_in_queue_order Sample.driver Sample.data []
              [ Capture.Queue (Request.mk 1 {[ 0%nat := 10%nat ]});
                Capture.Queue (Request.mk 2 {[ 0%nat := 11%nat ]});
                Capture.Complete;
                Capture.Queue (Request.mk 3 {[ 0%nat := 12%nat ]});
                Capture.Complete; Capture.Complete ]
              (videodev "ipu3-cio2 0"))
    as [_ (s & Hrun & _ & _ & _ & Hall)].
  - intros w d b. vm_compute. discriminate.
  - reflexivity.
  - reflexivity.
  - reflexivity.
  - reflexivity.
  - intros r Hr.
    repeat (apply elem_of_cons in Hr as [Hr | Hr];
            [try discriminate Hr; injection Hr as ->;
             apply Sample_constructible |]).
    by apply elem_of_nil in Hr.
  - exists s. split; [exact Hrun |]. apply Hall.
    vm_compute in Hrun. by injection Hrun as <-.
Defined.

(** *** registerCameras *)

Lemma getEntityByName_matches dm media name :
  DeviceMatch.matches dm media = true →
  In name (DeviceMatch.entities dm) →
  is_Some (MediaDevice.getEntityByName media name).
Proof.
  unfold DeviceMatch.matches, MediaDevice.getEntityByName.
  intros Hm Hin. apply andb_true_iff in Hm as [_ Hall].
  rewrite forallb_forall in Hall. specialize (Hall name Hin).
  apply existsb_exists in Hall as (e & He & Heq).
  destruct (find _ _) as [e' |] eqn:Hfind; [by eexists |].
  apply (find_none _ _ Hfind) in He. rewrite String.eqb_sym in He. congruence.
Qed.

Section RegisterCameras.
Context `{Driver}.

(** On a media device that satisfies the CIO2 match, [CIO2Device::init]
    dereferences no null pointer. *)
Lemma CIO2Device_init_defined media id :
  DeviceMatch.matches cio2_dm media = true →
  (id < 4)%nat →
  is_Some (CIO2Device_init CIO2Device.new media id).
Proof.
  intros Hm Hid.
  assert (Hcsi2 : is_Some (MediaDevice.getEntityByName media
                             ("ipu3-csi2 " +:+ to_string id))).
  { apply (getEntityByName_matches _ _ _ Hm).
    do 4 (destruct id as [| id]; [vm_compute; tauto |]). lia. }
  assert (Hcio2 : is_Some (MediaDevice.getEntityByName media
                             ("ipu3-cio2 " +:+ to_string id))).
  { apply (getEntityByName_matches _ _ _ Hm).
    do 4 (destruct id as [| id]; [vm_compute; tauto |]). lia. }
  destruct Hcsi2 as [csi2Entity Hcsi2], Hcio2 as [cio2Entity Hcio2].
  unfold CIO2Device_init, V4L2Device_fromEntityName.
  rewrite Hcsi2, Hcio2. cbn [mbind option_bind].
  repeat (case_match; try done).
Qed.

Lemma initialises_true media id :
  initialises media id = true →
  ∃ cio2, CIO2Device_init CIO2Device.new media id = Some (0, cio2).
Proof.
  unfold initialises.
  destruct (CIO2Device_init CIO2Device.new media id) as [[ret cio2] |];
    [| done].
  intros ->%Z.eqb_eq. by exists cio2.
Qed.

(** The loop of [registerCameras]: with [n] cameras so far, it adds the
    cameras of the first [2 - n] receivers of [ids] on which init
    succeeds. *)
Lemma registerCameras_loop_spec media ids : ∀ n this,
  (∀ id, In id ids → is_Some (CIO2Device_init CIO2Device.new media id)) →
  (n <= 2)%nat →
  ∃ cameras,
    let good := take (2 - n) (List.filter (initialises media) ids) in
    registerCameras_loop media ids n this
    = Some ((n + length good)%nat,
            PipelineHandlerIPU3.mk
              (PipelineHandlerIPU3.imgu0_ this)
              (PipelineHandlerIPU3.imgu1_ this)
              (PipelineHandlerIPU3.cio2MediaDev_ this)
              (PipelineHandlerIPU3.imguMediaDev_ this)
              (PipelineHandlerIPU3.cameras this ++ cameras))
    ∧ registered_as media (PipelineHandlerIPU3.imgu0_ this)
        (PipelineHandlerIPU3.imgu1_ this) n good cameras.
Proof.
  induction ids as [| id ids IH]; intros n this Hdef Hn.
  - exists []. cbn. rewrite take_nil, app_nil_r, Nat.add_0_r.
    by destruct this.
  - cbn [registerCameras_loop List.filter].
    destruct (Nat.ltb_spec n 2) as [Hlt | Hge]; cbn [negb].
    + destruct (Hdef id (or_introl eq_refl)) as [[ret cio2] Hinit].
      assert (Hi : initialises media id = (ret =? 0))
        by (unfold initialises; by rewrite Hinit).
      rewrite Hi, Hinit. cbn [mbind option_bind].
      destruct (Z.eqb_spec ret 0) as [-> | Hret]; cbn [negb].
      * (* a camera is created *)
        destruct (CIO2Device_init_ok _ _ _ Hinit)
          as (sensor & csi2 & output & -> & _).
        cbn [CIO2Device.sensor_ CIO2Device.output_ mbind option_bind].
        assert (Hdef' : ∀ id', In id' ids →
                  is_Some (CIO2Device_init CIO2Device.new media id'))
          by (intros; apply Hdef; by right).
        assert (Hn' : (S n <= 2)%nat) by lia.
        match goal with
        | |- context [registerCameras_loop media ids (S n) ?t] =>
            destruct (IH (S n) t Hdef' Hn') as (cameras & Hloop & Hreg)
        end.
        eexists (_ :: cameras). cbn zeta in *.
        replace (2 - n)%nat with (S (2 - S n)) by lia.
        cbn [take length]. rewrite Hloop.
        cbn [PipelineHandler_registerCamera PipelineHandlerIPU3.imgu0_
             PipelineHandlerIPU3.imgu1_ PipelineHandlerIPU3.cio2MediaDev_
             PipelineHandlerIPU3.imguMediaDev_ PipelineHandlerIPU3.cameras]
          in *.
        split.
        -- rewrite <- app_assoc, Nat.add_succ_r. reflexivity.
        -- cbn [registered_as]. split; [| exact Hreg].
           unfold camera_on. cbn. rewrite Hinit.
           repeat split; try done.
           ++ by destruct (n =? 0)%nat.
           ++ by exists sensor.
      * (* init fails: the receiver is skipped *)
        apply IH; [intros; apply Hdef; by right | lia].
    + exists []. replace (2 - n)%nat with 0%nat by lia.
      cbn. rewrite app_nil_r, Nat.add_0_r. by destruct this.
Qed.
End RegisterCameras.

Lemma registered_as_length `{Driver} media imgu0 imgu1 ids : ∀ k cameras,
  registered_as media imgu0 imgu1 k ids cameras → length cameras = length ids.
Proof.
  induction ids as [| id ids IH]; intros k [| data cameras];
    cbn [registered_as length]; try done.
  intros [_ Hrest]. f_equal. by apply (IH (S k)).
Qed.

(** C10: on the media devices [match] found, once both ImgU instances
    initialise (instance 0 then instance 1), [registerCameras] creates the
    cameras of the first two, in increasing order, of the receivers 0 to 3
    on which [CIO2Device::init] returns 0, skipping the others: at most two
    cameras, the first with ImgU instance 0 and the second with ImgU
    instance 1.  It returns -ENODEV exactly when it created no camera, and
    0 otherwise. *)
Theorem registerCameras_scan `{Driver} enumerator this cio2Ptr imguPtr
    cio2Media imguMedia imgu0 imgu1 :
  PipelineHandlerIPU3.cio2MediaDev_ this = Some cio2Ptr →
  enumerator !! cio2Ptr = Some cio2Media →
  PipelineHandlerIPU3.imguMediaDev_ this = Some imguPtr →
  enumerator !! imguPtr = Some imguMedia →
  DeviceMatch.matches cio2_dm cio2Media = true →
  ImgUDevice_init (PipelineHandlerIPU3.imgu0_ this) imguMedia 0
  = Some (0, imgu0) →
  ImgUDevice_init (PipelineHandlerIPU3.imgu1_ this) imguMedia 1
  = Some (0, imgu1) →
  ∃ ret this' cameras,
    registerCameras enumerator this = Some (ret, this')
    ∧ PipelineHandlerIPU3.cameras this'
      = PipelineHandlerIPU3.cameras this ++ cameras
    ∧ registered_as cio2Media imgu0 imgu1 0 (scanned cio2Media) cameras
    ∧ ImgUDevice.index_ imgu0 = 0%nat
    ∧ ImgUDevice.index_ imgu1 = 1%nat
    ∧ (length cameras <= 2)%nat
    ∧ (ret = - ENODEV ↔ cameras = [])
    ∧ (ret = 0 ↔ cameras ≠ []).
Proof.
  intros Hcio2 Hcio2Media Himgu HimguMedia Hmatch Hinit0 Hinit1.
  unfold registerCameras.
  rewrite Himgu. cbn [mbind option_bind]. rewrite HimguMedia.
  cbn [mbind option_bind]. rewrite Hinit0. cbn [mbind option_bind negb Z.eqb].
  cbn [PipelineHandlerIPU3.imgu0_ PipelineHandlerIPU3.imgu1_
       PipelineHandlerIPU3.cio2MediaDev_ PipelineHandlerIPU3.imguMediaDev_
       PipelineHandlerIPU3.cameras].
  rewrite Hinit1. cbn [mbind option_bind negb Z.eqb].
  rewrite Hcio2. cbn [mbind option_bind]. rewrite Hcio2Media.
  cbn [mbind option_bind].
  match goal with
  | |- context [registerCameras_loop cio2Media (seq 0 4) 0 ?t] =>
      destruct (registerCameras_loop_spec cio2Media (seq 0 4) 0%nat t)
        as (cameras & Hloop & Hreg)
  end.
  { intros id Hid. apply CIO2Device_init_defined; [done |].
    apply in_seq in Hid. lia. }
  { lia. }
  cbn zeta in Hloop, Hreg. rewrite Hloop. cbn [mbind option_bind].
  cbn [PipelineHandlerIPU3.imgu0_ PipelineHandlerIPU3.imgu1_
       PipelineHandlerIPU3.cameras] in *.
  fold (scanned cio2Media) in *.
  pose proof (registered_as_length _ _ _ _ _ _ Hreg) as Hlen.
  destruct (ImgUDevice_init_ok _ _ _ _ Hinit0) as (? & ? & ? & ? & ? & ? & ->).
  destruct (ImgUDevice_init_ok _ _ _ _ Hinit1) as (? & ? & ? & ? & ? & ? & ->).
  do 2 eexists. exists cameras. split; [reflexivity |].
  split; [done |]. split; [exact Hreg |]. split; [done |]. split; [done |].
  split; [rewrite Hlen; unfold scanned; rewrite length_take; lia |].
  rewrite <- Hlen. cbn [Nat.add].
  destruct cameras as [| data cameras]; cbn [length Nat.eqb negb];
    split; split; done.
Qed.

Lemma registerCameras_scan_witness :
  ∃ ret this' cameras,
    @registerCameras Sample.driver Sample.enumerator Sample.handler
    = Some (ret, this')
    ∧ PipelineHandlerIPU3.cameras this' = cameras
    ∧ IPU3CameraData.stream_ <$> cameras = [0%nat; 2%nat]
    ∧ ret = 0.
Proof.
  destruct (@registerCameras_scan Sample.driver Sample.enumerator
              Sample.handler 0%nat 1%nat Sample.cio2Media Sample.imguMedia
              Sample.imgu0
              (ImgUDevice.mk 1 "ipu3-imgu 1" (Some (subdev "ipu3-imgu 1"))
                 (Some (videodev "ipu3-imgu 1 input"))
                 (ImgUOutput.mk (Some (videodev "ipu3-imgu 1 output"))
                                ImgUDevice.PAD_OUTPUT "output")
                 (ImgUOutput.mk (Some (videodev "ipu3-imgu 1 viewfinder"))
                                ImgUDevice.PAD_VF "viewfinder")
                 (ImgUOutput.mk (Some (videodev "ipu3-imgu 1 3a stat"))
                                ImgUDevice.PAD_STAT "stat")))
    as (ret & this' & cameras & Hrun & Hcams & _ & _ & _ & _ & _ & Hzero).
  - reflexivity.
  - reflexivity.
  - reflexivity.
  - reflexivity.
  - vm_compute. reflexivity.
  - vm_compute. reflexivity.
  - vm_compute. reflexivity.
  - exists ret, this', cameras. split; [exact Hrun |].
    vm_compute in Hrun. injection Hrun as <- <-.
    vm_compute in Hcams. subst cameras.
    repeat split; reflexivity.
Defined.

(** A camera [registerCameras] created has the devices [configureStreams]
    needs, and the single stream the completion slot relies on. *)
Lemma camera_on_initialised `{Driver} cio2Media imguMedia id index imgu data :
  camera_on cio2Media imgu id data →
  ImgUDevice_init ImgUDevice.new imguMedia index = Some (0, imgu) →
  initialised cio2Media imguMedia id index data
  ∧ Camera.streams (IPU3CameraData.camera_ data)
    = {[ IPU3CameraData.stream_ data ]}
  ∧ IPU3CameraData.queuedRequests_ data = []
  ∧ Camera.emitted (IPU3CameraData.camera_ data) = [].
Proof.
  intros (Hcio2 & Himgu & Hstream & Hqueue & Hstreams & Hemitted & _) Hinit.
  repeat split; try done.
  - by exists imgu.
  - by rewrite Hstream.
Qed.

(** *** match *)

Section MatchCases.
Context `{Driver}.

(** When [disableLinks] fails on the ImgU media device, [match] jumps to
    the [error] label with [ret] never assigned: what it returns is decided
    by the indeterminate value of the variable, and no camera is
    registered. *)
Lemma match_imgu_disableLinks_fails indeterminate this enumerator cio2Ptr
    imguPtr cio2Media imguMedia :
  let acquired :=
    alter MediaDevice.acquire imguPtr
          (alter MediaDevice.acquire cio2Ptr enumerator) in
  DeviceEnumerator_search enumerator cio2_dm = Some cio2Ptr →
  DeviceEnumerator_search (alter MediaDevice.acquire cio2Ptr enumerator) imgu_dm
  = Some imguPtr →
  acquired !! cio2Ptr = Some cio2Media →
  acquired !! imguPtr = Some imguMedia →
  MediaDevice.open_ret cio2Media = 0 →
  MediaDevice.disableLinks_ret cio2Media = 0 →
  MediaDevice.open_ret imguMedia = 0 →
  MediaDevice.disableLinks_ret imguMedia ≠ 0 →
  ∃ this',
    match_ indeterminate this enumerator
    = Some (indeterminate =? 0, this', acquired)
    ∧ PipelineHandlerIPU3.cameras this' = PipelineHandlerIPU3.cameras this.
Proof.
  intros acquired Hs1 Hs2 Hc Hi Ho1 Hd1 Ho2 Hd2. unfold match_.
  rewrite Hs1, Hs2. fold acquired. rewrite Hc, Hi.
  cbn [mbind option_bind]. rewrite Ho1, Hd1, Ho2. cbn [Z.eqb negb].
  apply Z.eqb_neq in Hd2. rewrite Hd2. cbn [negb].
  eexists. split; reflexivity.
Qed.

(** On every other path [match] returns true only when both media devices
    were found, both opened, the links were disabled on both, and
    [registerCameras] returned 0. *)
Lemma match_true indeterminate this enumerator this' enumerator' :
  match_ indeterminate this enumerator = Some (true, this', enumerator') →
  ∃ cio2Ptr imguPtr cio2Media imguMedia,
    DeviceEnumerator_search enumerator cio2_dm = Some cio2Ptr
    ∧ DeviceEnumerator_search (alter MediaDevice.acquire cio2Ptr enumerator)
                              imgu_dm = Some imguPtr
    ∧ enumerator' !! cio2Ptr = Some cio2Media
    ∧ enumerator' !! imguPtr = Some imguMedia
    ∧ MediaDevice.open_ret cio2Media = 0
    ∧ MediaDevice.disableLinks_ret cio2Media = 0
    ∧ MediaDevice.open_ret imguMedia = 0
    ∧ (MediaDevice.disableLinks_ret imguMedia = 0
       ∧ (∃ before, registerCameras enumerator' before = Some (0, this'))
       ∨ MediaDevice.disableLinks_ret imguMedia ≠ 0 ∧ indeterminate = 0).
Proof.
  unfold match_.
  destruct (DeviceEnumerator_search enumerator cio2_dm) as [cio2Ptr |]
    eqn:Hs1; [| intros ?; discriminate].
  destruct (DeviceEnumerator_search _ imgu_dm) as [imguPtr |]
    eqn:Hs2; [| intros ?; discriminate].
  set (acquired := alter MediaDevice.acquire imguPtr _).
  destruct (acquired !! cio2Ptr) as [cio2Media |] eqn:Hc;
    cbn [mbind option_bind]; [| intros ?; discriminate].
  destruct (acquired !! imguPtr) as [imguMedia |] eqn:Hi;
    cbn [mbind option_bind]; [| intros ?; discriminate].
  destruct (Z.eqb_spec (MediaDevice.open_ret cio2Media) 0) as [Ho1 |];
    cbn [negb]; [| intros ?; discriminate].
  destruct (Z.eqb_spec (MediaDevice.disableLinks_ret cio2Media) 0) as [Hd1 |];
    cbn [negb]; [| intros ?; discriminate].
  destruct (Z.eqb_spec (MediaDevice.open_ret imguMedia) 0) as [Ho2 |];
    cbn [negb]; [| intros ?; discriminate].
  destruct (Z.eqb_spec (MediaDevice.disableLinks_ret imguMedia) 0) as [Hd2 | Hd2];
    cbn [negb].
  - destruct (registerCameras acquired _) as [[ret that] |] eqn:Hreg;
      cbn [mbind option_bind]; [| intros ?; discriminate].
    intros [= Hret -> <-]. apply Z.eqb_eq in Hret as ->.
    exists cio2Ptr, imguPtr, cio2Media, imguMedia.
    repeat (split; [done |]). left. split; [done |]. by eexists.
  - intros [= Hret <- <-]. apply Z.eqb_eq in Hret.
    exists cio2Ptr, imguPtr, cio2Media, imguMedia.
    repeat (split; [done |]). by right.
Qed.
End MatchCases.

(** C5, the failing input: both media devices are found and opened, the
    links of the CIO2 media device are disabled, [disableLinks] fails on
    the ImgU media device with -EBUSY, and the uninitialised [ret] happens
    to hold 0: [match] returns true, with no camera registered. *)
Theorem match_true_after_imgu_disableLinks_failure :
  MediaDevice.disableLinks_ret Sample.imguMedia_busy = - EBUSY
  ∧ ∃ this' enumerator',
      @match_ Sample.driver 0 PipelineHandlerIPU3.new Sample.enumerator_busy
      = Some (true, this', enumerator')
      ∧ PipelineHandlerIPU3.cameras this' = [].
Proof.
  split; [reflexivity |]. do 2 eexists. split; [vm_compute; reflexivity |].
  reflexivity.
Qed.

(** *** The timer *)

Lemma start_deadline_exact tp msec :
  monotonic_reading tp →
  0 <= msec < 2 ^ 32 →
  Timer.start_deadline tp msec = nanoseconds tp + msec * 1000000
  ∧ 0 < Timer.start_deadline tp msec.
Proof.
  unfold monotonic_reading, nanoseconds, Timer.start_deadline, u64.
  intros (Hsec & Hnsec & Hpos) Hmsec.
  rewrite (Z.mod_small (Timer.tv_sec tp)) by lia.
  rewrite (Z.mod_small (Timer.tv_sec tp * _)) by lia.
  rewrite (Z.mod_small (Timer.tv_nsec tp)) by lia.
  rewrite (Z.mod_small (msec * _)) by lia.
  rewrite (Z.mod_small (_ + Timer.tv_nsec tp)) by lia.
  rewrite Z.mod_small by lia. lia.
Qed.

(** A dispatch round does nothing to a timer that no dispatcher holds and
    that has no invocation pending. *)
Lemma processEvents_idle th now this e :
  Timer.dispatchers e = ∅ →
  Timer.inbox e = [] →
  Timer.processEvents th now (this, e) = (this, e).
Proof.
  intros Hd Hi. unfold Timer.processEvents. destruct e as [t d i x].
  cbn [Timer.dispatchers Timer.inbox Timer.thread Timer.effects] in *.
  subst d i. cbn [fold_left].
  destruct (th =? t)%nat; cbn [Timer.dispatchers];
    (case_decide as Hin; [by apply not_elem_of_empty in Hin | done]).
Qed.

Lemma rounds_idle rs this e :
  Timer.dispatchers e = ∅ →
  Timer.inbox e = [] →
  Timer.rounds rs (this, e) = (this, e).
Proof.
  intros Hd Hi. unfold Timer.rounds.
  induction rs as [| [th now] rs IH]; [done |].
  cbn [fold_left fst snd]. by rewrite processEvents_idle.
Qed.

(** Start, stop and restart of a settled timer: one that no foreign
    dispatcher holds and that has no invocation pending.  With a reading
    [tp] of [CLOCK_MONOTONIC] during [start], for every duration [msec] and
    whatever the state of the timer before, idle or running: after [start]
    the deadline is the time read plus [msec] milliseconds, in nanoseconds
    (so at least that time plus [msec]), the interval is [msec],
    [isRunning] is true and the timer is registered with the dispatcher of
    its thread; after a [stop] that follows directly the deadline is zero,
    [isRunning] is false and the timer is registered with no dispatcher, so
    that no dispatch round on any thread at any later time emits its
    [timeout] signal; starting the running timer again leaves it running
    with the deadline of the second start. *)
Theorem start_stop_restart tp tp' msec msec' this e :
  monotonic_reading tp →
  monotonic_reading tp' →
  0 <= msec < 2 ^ 32 →
  0 <= msec' < 2 ^ 32 →
  settled e →
  let started := Timer.start tp msec (this, e) in
  let stopped := Timer.stop started in
  let restarted := Timer.start tp' msec' started in
  (Timer.deadline_ (fst started) = nanoseconds tp + msec * 1000000
   ∧ nanoseconds tp + msec <= Timer.deadline_ (fst started)
   ∧ Timer.interval_ (fst started) = msec
   ∧ Timer.isRunning (fst started) = true
   ∧ Timer.dispatchers (snd started) = {[ Timer.thread e ]})
  ∧ (Timer.deadline_ (fst stopped) = 0
     ∧ Timer.isRunning (fst stopped) = false
     ∧ Timer.dispatchers (snd stopped) = ∅
     ∧ ∀ rs, Timer.rounds rs stopped = stopped
             ∧ Timer.timeouts (snd (Timer.rounds rs stopped))
               = Timer.timeouts e)
  ∧ (Timer.deadline_ (fst restarted) = nanoseconds tp' + msec' * 1000000
     ∧ Timer.interval_ (fst restarted) = msec'
     ∧ Timer.isRunning (fst restarted) = true
     ∧ Timer.dispatchers (snd restarted) = {[ Timer.thread e ]}).
Proof.
  intros Htp Htp' Hmsec Hmsec' [Hdisp Hinbox].
  destruct (start_deadline_exact tp msec Htp Hmsec) as [Hd Hpos].
  destruct (start_deadline_exact tp' msec' Htp' Hmsec') as [Hd' Hpos'].
  cbn zeta. unfold Timer.start, Timer.stop, Timer.isRunning,
    Timer.registerTimer, Timer.unregisterTimer,
    Timer.EventDispatcher_registerTimer,
    Timer.EventDispatcher_unregisterTimer, Timer.log.
  destruct e as [t d i x].
  cbn [fst snd Timer.deadline_ Timer.interval_ Timer.dispatchers
       Timer.thread Timer.inbox Timer.effects] in *.
  assert (Hreg : {[ t ]} ∪ d = ({[ t ]} : gset Timer.ThreadId))
    by (rewrite union_comm_L; by apply subseteq_union_1_L).
  split; [| split].
  - rewrite Hd at 1 2. repeat split; [lia | | done].
    apply negb_true_iff, Z.eqb_neq. lia.
  - assert (Hnone : ({[ t ]} ∪ d) ∖ {[ t ]} = (∅ : gset Timer.ThreadId))
      by (rewrite Hreg; apply difference_diag_L).
    repeat split; [done |..].
    + rewrite rounds_idle; done.
    + rewrite rounds_idle by done.
      unfold Timer.timeouts. cbn [snd Timer.effects].
      rewrite !List.filter_app. cbn. by rewrite !app_nil_r.
  - rewrite Hd' at 1. repeat split; [| rewrite Hreg; apply union_idemp_L].
    apply negb_true_iff, Z.eqb_neq. lia.
Qed.

Lemma start_stop_restart_witness :
  let started := Timer.start Sample.tp 1000 (Timer.new, Sample.timer_env) in
  Timer.deadline_ (fst started) = 1001000000500
  ∧ Timer.isRunning (fst started) = true
  ∧ Timer.isRunning (fst (Timer.stop started)) = false
  ∧ Timer.deadline_ (fst (Timer.start Sample.tp' 50 started)) = 1000950000500.
Proof.
  destruct (start_stop_restart Sample.tp Sample.tp' 1000 50 Timer.new
              Sample.timer_env)
    as [(Hd & _ & _ & Hrun & _) [(_ & Hstop & _) (Hd' & _)]].
  - unfold monotonic_reading, nanoseconds. cbn. lia.
  - unfold monotonic_reading, nanoseconds. cbn. lia.
  - lia.
  - lia.
  - split; [| reflexivity]. cbn. apply empty_subseteq.
  - cbn zeta. split; [exact Hd |]. split; [exact Hrun |].
    split; [exact Hstop | exact Hd'].
Defined.

(** C8, the failing input: a fresh timer is started for 1000 ms, moved to
    thread 1 and stopped.  [start] leaves the deadline the claim states and
    [isRunning] true; [stop] leaves the deadline zero and [isRunning]
    false, and no [timeout] has been emitted.  But [stop] does not
    withdraw the invocation of [registerTimer] that [message] posted for
    the move: the next dispatch round of thread 1, at the very time the
    timer was started, registers the timer again with the deadline 0 and
    emits its [timeout] signal, after [stop] has returned. *)
Theorem timeout_after_stop :
  let armed := Timer.start Sample.tp 1000 (Timer.new, Sample.timer_env) in
  let stopped := Timer.stop (Timer.moveToThread 1%nat armed) in
  let later := Timer.processEvents 1%nat (nanoseconds Sample.tp) stopped in
  Timer.deadline_ (fst armed) = nanoseconds Sample.tp + 1000 * 1000000
  ∧ Timer.isRunning (fst armed) = true
  ∧ Timer.deadline_ (fst stopped) = 0
  ∧ Timer.isRunning (fst stopped) = false
  ∧ Timer.inbox (snd stopped) = [Timer.registerTimer_method]
  ∧ Timer.timeouts (snd stopped) = []
  ∧ Timer.timeouts (snd later) = [Timer.Timeout 1%nat].
Proof. cbn zeta. repeat split; vm_compute; reflexivity. Qed.

(** C9: when the timer receives a [ThreadMoveMessage], its members are not
    modified, so the deadline and [isRunning] are preserved.  If it is
    armed (deadline nonzero) it first unregisters from the dispatcher of
    its thread, the old one, then posts the invocation of [registerTimer],
    then hands the message to [Object::message]; once the object belongs
    to the new thread, the next dispatch round of that thread registers
    the timer there, and the old thread's dispatcher no longer holds it.
    If it is not armed it neither unregisters nor posts anything. *)
Theorem message_thread_move this e :
  let moved := Timer.message Timer.ThreadMoveMessage (this, e) in
  fst moved = this
  ∧ Timer.isRunning (fst moved) = Timer.isRunning this
  ∧ Timer.thread (snd moved) = Timer.thread e
  ∧ (Timer.deadline_ this ≠ 0 →
     Timer.effects (snd moved)
     = Timer.effects e
       ++ [ Timer.UnregisterTimer (Timer.thread e);
            Timer.InvokeMethod Timer.registerTimer_method;
            Timer.ObjectMessage Timer.ThreadMoveMessage ]
     ∧ Timer.dispatchers (snd moved)
       = Timer.dispatchers e ∖ {[ Timer.thread e ]}
     ∧ Timer.inbox (snd moved) = Timer.inbox e ++ [Timer.registerTimer_method]
     ∧ ∀ target now,
         settled e →
         now < Timer.deadline_ this →
         let there :=
           Timer.processEvents target now
             (Timer.moveToThread target (this, e)) in
         fst there = this
         ∧ Timer.thread (snd there) = target
         ∧ Timer.dispatchers (snd there) = {[ target ]}
         ∧ Timer.inbox (snd there) = []
         ∧ Timer.effects (snd there)
           = Timer.effects (snd moved) ++ [Timer.RegisterTimer target])
  ∧ (Timer.deadline_ this = 0 →
     Timer.effects (snd moved)
     = Timer.effects e ++ [Timer.ObjectMessage Timer.ThreadMoveMessage]
     ∧ Timer.dispatchers (snd moved) = Timer.dispatchers e
     ∧ Timer.inbox (snd moved) = Timer.inbox e).
Proof.
  cbn zeta. unfold Timer.moveToThread, Timer.message.
  cbn [Timer.is_ThreadMoveMessage fst snd].
  destruct e as [t d i x].
  unfold Timer.Object_message, Timer.Object_invokeMethod,
    Timer.unregisterTimer, Timer.EventDispatcher_unregisterTimer, Timer.log.
  destruct (Z.eqb_spec (Timer.deadline_ this) 0) as [Hz | Hnz];
    cbn [negb Timer.thread Timer.dispatchers Timer.inbox Timer.effects].
  - repeat split; done.
  - split; [done |]. split; [done |]. split; [done |]. split; [| done].
    intros _. split; [by rewrite <- !app_assoc |]. split; [done |].
    split; [done |].
    intros target now [Hdisp Hinbox] Hnow.
    cbn [Timer.dispatchers Timer.inbox Timer.thread] in Hdisp, Hinbox.
    subst i.
    assert (Hnone : d ∖ {[ t ]} = (∅ : gset Timer.ThreadId))
      by (by apply subseteq_empty_difference_L).
    unfold Timer.processEvents.
    cbn [Timer.thread Timer.dispatchers Timer.inbox Timer.effects app
         fold_left Timer.invoke].
    rewrite Nat.eqb_refl, Hnone.
    unfold Timer.registerTimer, Timer.EventDispatcher_registerTimer,
      Timer.log.
    cbn [Timer.thread Timer.dispatchers Timer.inbox Timer.effects].
    rewrite union_empty_r_L.
    rewrite decide_True by (by apply elem_of_singleton).
    destruct (Z.leb_spec (Timer.deadline_ this) now) as [Hle | _]; [lia |].
    cbn [fst snd Timer.thread Timer.dispatchers Timer.inbox Timer.effects].
    repeat split; done.
Qed.

Lemma message_thread_move_witness :
  let armed := Timer.start Sample.tp 1000 (Timer.new, Sample.timer_env) in
  let there :=
    Timer.processEvents 1%nat 0 (Timer.moveToThread 1%nat armed) in
  fst there = fst armed
  ∧ Timer.dispatchers (snd there) = {[ 1%nat ]}.
Proof.
  destruct (message_thread_move
              (fst (Timer.start Sample.tp 1000 (Timer.new, Sample.timer_env)))
              (snd (Timer.start Sample.tp 1000 (Timer.new, Sample.timer_env))))
    as (_ & _ & _ & Harmed & _).
  destruct Harmed as (_ & _ & _ & Hmove); [by vm_compute |].
  destruct (Hmove 1%nat 0) as (Hthis & _ & Hdisp & _).
  - split; [| reflexivity]. cbn. by rewrite union_empty_r_L.
  - by vm_compute.
  - cbn zeta. split; [exact Hthis | exact Hdisp].
Defined.

(** * Further properties *)

(** ** The format scans *)

Lemma configure_flat_step_cases config imageSize acc x :
  configure_flat_step config imageSize acc x = acc
  ∨ (candidate config x = true
     ∧ snd (configure_flat_step config imageSize acc x) = format_of x).
Proof.
  unfold configure_flat_step, configure_size_step, candidate, consumable, fits.
  destruct (mediaBusToFormat (fst x) <? 0); [by left |].
  destruct acc as [best fmt].
  destruct (Z.ltb_spec (SizeRange.maxWidth (snd x))
              (StreamConfiguration.width config)); [by left |].
  destruct (Z.ltb_spec (SizeRange.maxHeight (snd x))
              (StreamConfiguration.height config)); [by left |].
  cbn [orb negb andb]. destruct (_ >=? best); [by left |].
  right. split; [| reflexivity].
  apply andb_true_iff. split; by apply Z.leb_le.
Qed.

(** X1: whatever the sensor enumerates, the format
    [CIO2Device::configure] selects is either the all-zero initial format
    or a listed one with a consumable code and a maximum size at least the
    requested size in both dimensions: the scan never selects a format the
    ImgU would have to up-scale.  When no listed format qualifies, in
    particular when the enumeration is empty, [best] and [sensorFormat]
    keep their initial values. *)
Theorem configure_scan_never_upscales formats config :
  (candidates formats config = [] →
   configure_scan formats config = (UINT_MAX, V4L2SubdeviceFormat.zero))
  ∧ (snd (configure_scan formats config) = V4L2SubdeviceFormat.zero
     ∨ ∃ c,
         In c (flatten formats)
         ∧ snd (configure_scan formats config) = format_of c
         ∧ consumable (fst c) = true
         ∧ StreamConfiguration.width config <= SizeRange.maxWidth (snd c)
         ∧ StreamConfiguration.height config <= SizeRange.maxHeight (snd c)).
Proof.
  unfold candidates, configure_scan. rewrite configure_scan_flat.
  set (imageSize := u32 _). set (init := (UINT_MAX, V4L2SubdeviceFormat.zero)).
  split.
  - generalize init. induction (flatten formats) as [| x l IH]; intros acc Hnil;
      [done |].
    cbn [List.filter] in Hnil. destruct (candidate config x) eqn:Hx;
      [discriminate |].
    cbn [fold_left].
    destruct (configure_flat_step_cases config imageSize acc x)
      as [-> | [Hc _]]; [by apply IH | congruence].
  - assert (Hgen : ∀ l acc,
      (∀ x, In x l → In x (flatten formats)) →
      (snd acc = V4L2SubdeviceFormat.zero
       ∨ ∃ c, In c (flatten formats) ∧ snd acc = format_of c
              ∧ candidate config c = true) →
      snd (fold_left (configure_flat_step config imageSize) l acc)
      = V4L2SubdeviceFormat.zero
      ∨ ∃ c, In c (flatten formats)
             ∧ snd (fold_left (configure_flat_step config imageSize) l acc)
               = format_of c
             ∧ candidate config c = true).
    { induction l as [| x l IH]; intros acc Hincl Hacc; [done |].
      cbn [fold_left]. apply IH; [intros; apply Hincl; by right |].
      destruct (configure_flat_step_cases config imageSize acc x)
        as [-> | [Hc Hsel]]; [done |].
      right. exists x. split; [apply Hincl; by left | done]. }
    destruct (Hgen (flatten formats) init) as [Hz | (c & Hin & Hsel & Hc)];
      [done | by left | by left |].
    right. exists c. unfold candidate, fits in Hc.
    apply andb_true_iff in Hc as [Hcons Hfit].
    apply andb_true_iff in Hfit as [Hw Hh]. apply Z.leb_le in Hw, Hh. done.
Qed.

(** X2: when the sensor lists the requested size itself under a consumable
    code, and the listed areas fit, [CIO2Device::configure] selects a
    format of exactly the requested width and height. *)
Theorem configure_scan_exact_fit formats config c :
  areas_fit formats →
  0 < StreamConfiguration.width config →
  0 < StreamConfiguration.height config →
  In c (flatten formats) →
  consumable (fst c) = true →
  SizeRange.maxWidth (snd c) = StreamConfiguration.width config →
  SizeRange.maxHeight (snd c) = StreamConfiguration.height config →
  V4L2SubdeviceFormat.width (snd (configure_scan formats config))
  = StreamConfiguration.width config
  ∧ V4L2SubdeviceFormat.height (snd (configure_scan formats config))
    = StreamConfiguration.height config
  ∧ consumable
      (V4L2SubdeviceFormat.mbus_code (snd (configure_scan formats config)))
    = true.
Proof.
  intros Hareas Hw Hh Hin Hcons HW HH.
  assert (Hc : In c (candidates formats config)).
  { apply filter_In. split; [done |]. unfold candidate, fits.
    rewrite Hcons, HW, HH, !Z.leb_refl. done. }
  destruct (configure_scan_selection config ltac:(lia) ltac:(lia) formats
              Hareas) as [[Hnil _] | (c0 & Hmin & ->)];
    [by rewrite Hnil in Hc |].
  pose proof (first_minimum_bound _ _ _ _ Hmin Hc) as Hle.
  assert (Hc0 : In c0 (candidates formats config)).
  { destruct Hmin as (before & after & -> & _).
    apply in_app_iff. right. by left. }
  apply filter_In in Hc0 as [_ Hc0]. unfold candidate, fits in Hc0.
  apply andb_true_iff in Hc0 as [Hcons0 Hfit].
  apply andb_true_iff in Hfit as [Hw0 Hh0]. apply Z.leb_le in Hw0, Hh0.
  unfold excess in Hle. rewrite HW, HH in Hle.
  cbn [snd format_of V4L2SubdeviceFormat.width V4L2SubdeviceFormat.height
       V4L2SubdeviceFormat.mbus_code].
  split; [nia |]. split; [nia | done].
Qed.

Lemma configure_scan_exact_fit_witness :
  V4L2SubdeviceFormat.width
    (snd (configure_scan Sample.formats
            (StreamConfiguration.mk 1296 972 V4L2_PIX_FMT_NV12 4))) = 1296
  ∧ V4L2SubdeviceFormat.height
      (snd (configure_scan Sample.formats
              (StreamConfiguration.mk 1296 972 V4L2_PIX_FMT_NV12 4))) = 972.
Proof.
  destruct (configure_scan_exact_fit Sample.formats
              (StreamConfiguration.mk 1296 972 V4L2_PIX_FMT_NV12 4)
              (MEDIA_BUS_FMT_SGRBG10_1X10, SizeRange.mk 1296 972 1296 972))
    as (Hw & Hh & _).
  - exact Sample_areas_fit.
  - reflexivity.
  - reflexivity.
  - vm_compute. tauto.
  - reflexivity.
  - reflexivity.
  - reflexivity.
  - split; [exact Hw | exact Hh].
Defined.

Lemma init_flat_step_cases acc x :
  (init_flat_step acc x = acc
   ∧ (consumable (fst x) = true →
      ¬ (Size.width (fst acc) < SizeRange.maxWidth (snd x)
         ∧ Size.height (fst acc) < SizeRange.maxHeight (snd x))))
  ∨ (consumable (fst x) = true
     ∧ Size.width (fst acc) < SizeRange.maxWidth (snd x)
     ∧ Size.height (fst acc) < SizeRange.maxHeight (snd x)
     ∧ init_flat_step acc x
       = (Size.mk (SizeRange.maxWidth (snd x)) (SizeRange.maxHeight (snd x)),
          mediaBusToFormat (fst x))).
Proof.
  unfold init_flat_step, init_size_step.
  destruct (consumable (fst x)) eqn:Hcons.
  - pose proof (consumable_fourcc _ Hcons) as Hfourcc.
    unfold consumable in Hcons. apply negb_true_iff in Hcons. rewrite Hcons.
    destruct acc as [maxSize code]. cbn [fst].
    destruct (Z.ltb_spec (Size.width maxSize) (SizeRange.maxWidth (snd x)));
      [| left; split; [done | lia]].
    destruct (Z.ltb_spec (Size.height maxSize) (SizeRange.maxHeight (snd x)));
      [| left; split; [done | lia]].
    right. cbn [andb]. rewrite Hfourcc. done.
  - unfold consumable in Hcons. apply negb_false_iff in Hcons. rewrite Hcons.
    left. done.
Qed.

(** X3: the maximum size [CIO2Device::init] caches only grows during the
    scan, and once the scan is over no listed size with a consumable code
    is larger than it in both width and height.  (It need not be the
    largest listed width or the largest listed height: a size that is
    larger in one dimension only never replaces it.) *)
Theorem init_scan_undominated formats acc :
  Size.width (fst acc) <= Size.width (fst (init_scan formats acc))
  ∧ Size.height (fst acc) <= Size.height (fst (init_scan formats acc))
  ∧ ∀ c, In c (flatten formats) →
         consumable (fst c) = true →
         ¬ (Size.width (fst (init_scan formats acc))
              < SizeRange.maxWidth (snd c)
            ∧ Size.height (fst (init_scan formats acc))
              < SizeRange.maxHeight (snd c)).
Proof.
  rewrite init_scan_flat. revert acc.
  induction (flatten formats) as [| x l IH]; intros acc.
  - cbn. split; [lia |]. split; [lia | tauto].
  - cbn [fold_left].
    destruct (IH (init_flat_step acc x)) as (Hw & Hh & Hall).
    destruct (init_flat_step_cases acc x) as [[Heq Hx] | (Hcons & Hlw & Hlh & Heq)];
      rewrite Heq in *; cbn [fst Size.width Size.height] in *.
    + split; [lia |]. split; [lia |].
      intros c [<- | Hc] Hcons; [| by apply Hall].
      specialize (Hx Hcons). lia.
    + split; [lia |]. split; [lia |].
      intros c [<- | Hc] Hcons'; [lia | by apply Hall].
Qed.

Example init_scan_not_componentwise :
  fst (init_scan [(MEDIA_BUS_FMT_SGRBG10_1X10,
                   [SizeRange.mk 0 0 100 50; SizeRange.mk 0 0 80 60])]
                 (Size.zero, 0))
  = Size.mk 100 50.
Proof. reflexivity. Qed.

(** The scan of [CIO2Device::init] from the empty size of a fresh device:
    nothing is cached, or the maximum size of a listed range with a
    consumable code, which is positive in both dimensions. *)
Lemma init_scan_fresh formats :
  init_scan formats (Size.zero, 0) = (Size.zero, 0)
  ∨ ∃ c,
      In c (flatten formats)
      ∧ consumable (fst c) = true
      ∧ init_scan formats (Size.zero, 0)
        = (Size.mk (SizeRange.maxWidth (snd c)) (SizeRange.maxHeight (snd c)),
           mediaBusToFormat (fst c))
      ∧ 0 < SizeRange.maxWidth (snd c)
      ∧ 0 < SizeRange.maxHeight (snd c).
Proof.
  rewrite init_scan_flat.
  assert (Hgen : ∀ l acc,
    (∀ x, In x l → In x (flatten formats)) →
    0 <= Size.width (fst acc) → 0 <= Size.height (fst acc) →
    fold_left init_flat_step l acc = acc
    ∨ ∃ c, In c (flatten formats) ∧ consumable (fst c) = true
           ∧ fold_left init_flat_step l acc
             = (Size.mk (SizeRange.maxWidth (snd c))
                        (SizeRange.maxHeight (snd c)),
                mediaBusToFormat (fst c))
           ∧ 0 < SizeRange.maxWidth (snd c)
           ∧ 0 < SizeRange.maxHeight (snd c)).
  { induction l as [| x l IH]; intros acc Hincl Hw Hh; [by left |].
    cbn [fold_left].
    destruct (init_flat_step_cases acc x)
      as [[Heq _] | (Hcons & Hlw & Hlh & Heq)]; rewrite Heq.
    - apply IH; [intros; apply Hincl; by right | done | done].
    - destruct (IH (Size.mk (SizeRange.maxWidth (snd x))
                            (SizeRange.maxHeight (snd x)),
                    mediaBusToFormat (fst x)))
        as [-> | Hc]; cbn [fst Size.width Size.height];
        [intros; apply Hincl; by right | lia | lia | | by right].
      right. exists x. split; [apply Hincl; by left |].
      split; [done |]. split; [done |]. lia. }
  by apply Hgen.
Qed.

(** X4: starting from the empty size of a fresh device, the scan of
    [CIO2Device::init] either caches nothing, or caches the maximum size of
    a listed range with a consumable code, with a positive width and a
    positive height, together with the IPU3 pixel format of that code:
    [mbusCode_] then holds the fourcc [mediaBusToFormat] returns, not the
    media-bus code. *)
Theorem init_scan_cached formats :
  init_scan formats (Size.zero, 0) = (Size.zero, 0)
  ∨ ∃ c,
      In c (flatten formats)
      ∧ consumable (fst c) = true
      ∧ init_scan formats (Size.zero, 0)
        = (Size.mk (SizeRange.maxWidth (snd c)) (SizeRange.maxHeight (snd c)),
           mediaBusToFormat (fst c))
      ∧ 0 < SizeRange.maxWidth (snd c)
      ∧ 0 < SizeRange.maxHeight (snd c)
      ∧ snd (init_scan formats (Size.zero, 0)) ≠ fst c.
Proof.
  destruct (init_scan_fresh formats)
    as [Heq | (c & Hin & Hcons & Heq & Hw & Hh)]; [by left |].
  right. exists c. rewrite Heq. repeat (split; [done |]). cbn [snd].
  apply consumable_iff in Hcons. apply list_elem_of_In in Hcons.
  destruct Hcons as [<- | [<- | [<- | [<- | []]]]]; by vm_compute.
Qed.

(** ** Initialisation of the devices *)

Lemma getEntityByName_name media name e :
  MediaDevice.getEntityByName media name = Some e → MediaEntity.name e = name.
Proof.
  unfold MediaDevice.getEntityByName. intros Hfind.
  apply find_some in Hfind as [_ Heq]. by apply String.eqb_eq in Heq.
Qed.

Section InitBinds.
Context `{Driver}.

(** X5: when [CIO2Device::init] returns 0 for receiver [id], the device is
    bound to the CSI-2 receiver and the CIO2 video node named after [id],
    and to the entity at the source of the first link of the receiver's
    first pad, which is a camera sensor whose link was enabled; the sensor,
    the receiver and the video node were opened with result 0; and the
    cached maximum size has a positive width and a positive height. *)
Theorem CIO2Device_init_binds media id cio2 :
  CIO2Device_init CIO2Device.new media id = Some (0, cio2) →
  CIO2Device.csi2_ cio2 = Some (subdev ("ipu3-csi2 " +:+ to_string id))
  ∧ CIO2Device.output_ cio2 = Some (videodev ("ipu3-cio2 " +:+ to_string id))
  ∧ drv_subdev_open (subdev ("ipu3-csi2 " +:+ to_string id)) = 0
  ∧ drv_dev_open (videodev ("ipu3-cio2 " +:+ to_string id)) = 0
  ∧ 0 < Size.width (CIO2Device.maxSize_ cio2)
  ∧ 0 < Size.height (CIO2Device.maxSize_ cio2)
  ∧ ∃ csi2Entity sink pads link links,
      MediaDevice.getEntityByName media ("ipu3-csi2 " +:+ to_string id)
      = Some csi2Entity
      ∧ MediaEntity.pads csi2Entity = sink :: pads
      ∧ MediaPad.links sink = link :: links
      ∧ MediaLink.source_function link = MEDIA_ENT_F_CAM_SENSOR
      ∧ MediaLink.setEnabled_ret link = 0
      ∧ CIO2Device.sensor_ cio2 = Some (subdev (MediaLink.source_name link))
      ∧ drv_subdev_open (subdev (MediaLink.source_name link)) = 0.
Proof.
  unfold CIO2Device_init, V4L2Device_fromEntityName, subdev_formats.
  destruct (MediaDevice.getEntityByName media ("ipu3-csi2 " +:+ _))
    as [csi2Entity |] eqn:Hcsi2; cbn [mbind option_bind];
    [| intros ?; discriminate].
  destruct (MediaEntity.pads _) as [| sink pads] eqn:Hpads;
    [intros ?; discriminate |].
  destruct (MediaPad.links sink) as [| link links] eqn:Hlinks;
    [intros ?; discriminate |].
  destruct (Z.eqb_spec (MediaLink.source_function link)
              MEDIA_ENT_F_CAM_SENSOR) as [Hfun |];
    cbn [negb]; [| intros ?; discriminate].
  destruct (Z.eqb_spec (MediaLink.setEnabled_ret link) 0) as [Hen |];
    cbn [negb]; [| intros ?; simplify_eq].
  destruct (Z.eqb_spec (drv_subdev_open (subdev (MediaLink.source_name link)))
              0) as [Hsensor |]; cbn [negb]; [| intros ?; simplify_eq].
  cbn [CIO2Device.set_sensor CIO2Device.set_maxSize CIO2Device.set_csi2
       CIO2Device.set_output CIO2Device.maxSize_ CIO2Device.mbusCode_
       CIO2Device.output_ CIO2Device.csi2_ CIO2Device.sensor_ CIO2Device.new].
  destruct (init_scan_fresh (drv_formats (subdev (MediaLink.source_name link))
                                         0))
    as [Hnone | (c & _ & _ & Hscan & Hw & Hh)].
  { rewrite Hnone. cbn. intros ?; discriminate. }
  rewrite Hscan. cbn [fst snd Size.width].
  destruct (Z.eqb_spec (SizeRange.maxWidth (snd c)) 0); [lia |].
  rewrite (getEntityByName_name _ _ _ Hcsi2).
  destruct (Z.eqb_spec (drv_subdev_open (subdev ("ipu3-csi2 " +:+ to_string id)))
              0) as [Hopen |]; cbn [negb]; [| intros ?; simplify_eq].
  destruct (MediaDevice.getEntityByName media ("ipu3-cio2 " +:+ _))
    as [cio2Entity |] eqn:Hcio2; cbn [mbind option_bind];
    [| intros ?; discriminate].
  rewrite (getEntityByName_name _ _ _ Hcio2).
  destruct (Z.eqb_spec (drv_dev_open (videodev ("ipu3-cio2 " +:+ to_string id)))
              0) as [Hout |]; cbn [negb]; [| intros ?; simplify_eq].
  intros [= <-].
  cbn [CIO2Device.csi2_ CIO2Device.output_ CIO2Device.sensor_
       CIO2Device.maxSize_ Size.width Size.height].
  repeat (split; [done |]).
  exists csi2Entity, sink, pads, link, links. done.
Qed.

(** X6: [CIO2Device::init] returns -ENODEV and leaves the device object
    untouched when the receiver has no pad, when its first pad has no
    link, and when the entity at the source of the first link of the first
    pad is not a camera sensor, whatever else is connected. *)
Theorem CIO2Device_init_no_sensor this media id csi2Entity :
  MediaDevice.getEntityByName media ("ipu3-csi2 " +:+ to_string id)
  = Some csi2Entity →
  match MediaEntity.pads csi2Entity with
  | [] => True
  | sink :: _ =>
      match MediaPad.links sink with
      | [] => True
      | link :: _ => MediaLink.source_function link ≠ MEDIA_ENT_F_CAM_SENSOR
      end
  end →
  CIO2Device_init this media id = Some (- ENODEV, this).
Proof.
  intros Hcsi2 Hno. unfold CIO2Device_init. rewrite Hcsi2.
  cbn [mbind option_bind].
  destruct (MediaEntity.pads csi2Entity) as [| sink pads]; [done |].
  destruct (MediaPad.links sink) as [| link links]; [done |].
  apply Z.eqb_neq in Hno. by rewrite Hno.
Qed.

(** A scan that finds no size of a consumable code with a positive width
    and height leaves an empty maximum size, and the code beside it, as
    they were. *)
Lemma init_scan_nothing formats code :
  Forall (fun c => consumable (fst c) = false
                   ∨ SizeRange.maxWidth (snd c) <= 0
                   ∨ SizeRange.maxHeight (snd c) <= 0)
         (flatten formats) →
  init_scan formats (Size.zero, code) = (Size.zero, code).
Proof.
  rewrite init_scan_flat.
  induction (flatten formats) as [| x l IH]; intros Hnone; [reflexivity |].
  apply Forall_cons in Hnone as [Hx Hl]. cbn [fold_left].
  destruct (init_flat_step_cases (Size.zero, code) x)
    as [[-> _] | (Hcons & Hw & Hh & _)]; [by apply IH |].
  cbn [fst Size.zero Size.width Size.height] in Hw, Hh.
  destruct Hx as [Hx | [Hx | Hx]]; [congruence | lia | lia].
Qed.

(** X7: on a device whose cached maximum size is empty, as the constructor
    leaves it, and whatever [mbusCode_] holds (the constructor does not
    initialise it): when the sensor lists no size of a consumable code
    with a positive width and height, [CIO2Device::init] returns -ENODEV
    after the sensor was opened.  The object is changed in [sensor_] only:
    it keeps the sensor it created, [mbusCode_] and [maxSize_] are not
    written, and neither the CSI-2 receiver nor the CIO2 video node is
    created. *)
Theorem CIO2Device_init_no_format this media id csi2Entity sink pads link
    links :
  CIO2Device.maxSize_ this = Size.zero →
  MediaDevice.getEntityByName media ("ipu3-csi2 " +:+ to_string id)
  = Some csi2Entity →
  MediaEntity.pads csi2Entity = sink :: pads →
  MediaPad.links sink = link :: links →
  MediaLink.source_function link = MEDIA_ENT_F_CAM_SENSOR →
  MediaLink.setEnabled_ret link = 0 →
  drv_subdev_open (subdev (MediaLink.source_name link)) = 0 →
  Forall (fun c => consumable (fst c) = false
                   ∨ SizeRange.maxWidth (snd c) <= 0
                   ∨ SizeRange.maxHeight (snd c) <= 0)
         (flatten (drv_formats (subdev (MediaLink.source_name link)) 0)) →
  CIO2Device_init this media id
  = Some (- ENODEV,
          CIO2Device.set_sensor this
            (Some (subdev (MediaLink.source_name link)))).
Proof.
  intros Hempty Hcsi2 Hpads Hlinks Hfun Hen Hopen Hnone.
  unfold CIO2Device_init, subdev_formats. rewrite Hcsi2.
  cbn [mbind option_bind]. rewrite Hpads, Hlinks, Hfun, Hen, Hopen.
  rewrite Z.eqb_refl. cbn [Z.eqb negb].
  destruct this as [output csi2 sensor code maxSize].
  cbn [CIO2Device.maxSize_] in Hempty. subst maxSize.
  cbn [CIO2Device.set_sensor CIO2Device.set_maxSize CIO2Device.maxSize_
       CIO2Device.mbusCode_ CIO2Device.output_ CIO2Device.csi2_
       CIO2Device.sensor_].
  rewrite (init_scan_nothing _ code Hnone). reflexivity.
Qed.
End InitBinds.

Lemma CIO2Device_init_no_sensor_witness :
  @CIO2Device_init Sample.driver CIO2Device.new Sample.cio2Media 1
  = Some (- ENODEV, CIO2Device.new).
Proof.
  apply (@CIO2Device_init_no_sensor Sample.driver CIO2Device.new
           Sample.cio2Media 1
           (MediaEntity.mk "ipu3-csi2 1" 0 [MediaPad.mk []])).
  - reflexivity.
  - exact I.
Defined.

Lemma CIO2Device_init_binds_witness :
  CIO2Device.csi2_ Sample.cio2 = Some (subdev "ipu3-csi2 0")
  ∧ CIO2Device.output_ Sample.cio2 = Some (videodev "ipu3-cio2 0").
Proof.
  destruct (@CIO2Device_init_binds Sample.driver Sample.cio2Media 0
              Sample.cio2) as (Hcsi2 & Hout & _).
  - vm_compute. reflexivity.
  - split; [exact Hcsi2 | exact Hout].
Defined.

Lemma CIO2Device_init_no_format_witness :
  @CIO2Device_init SampleYuv.driver
    (CIO2Device.mk None None None 0xabababab Size.zero) Sample.cio2Media 0
  = Some (- ENODEV,
          CIO2Device.mk None None (Some (subdev "ov5670 10-0036")) 0xabababab
                        Size.zero).
Proof.
  apply (@CIO2Device_init_no_format SampleYuv.driver
           (CIO2Device.mk None None None 0xabababab Size.zero)
           Sample.cio2Media 0
           (MediaEntity.mk "ipu3-csi2 0" 0 [MediaPad.mk [Sample.sensor_link]])
           (MediaPad.mk [Sample.sensor_link]) [] Sample.sensor_link []).
  - reflexivity.
  - reflexivity.
  - reflexivity.
  - reflexivity.
  - reflexivity.
  - reflexivity.
  - reflexivity.
  - constructor; [left; reflexivity | constructor].
Defined.

(** One entity looked up by name and found: the device created from it
    carries the name that was asked for. *)
Ltac lookup_step :=
  match goal with
  | |- context [MediaDevice.getEntityByName ?m ?n] =>
      let E := fresh "Hentity" in
      destruct (MediaDevice.getEntityByName m n) eqn:E;
      cbn [mbind option_bind];
      [rewrite (getEntityByName_name _ _ _ E) | intros ?; discriminate]
  end.

Section ImgUInit.
Context `{Driver}.

(** X8: when [ImgUDevice::init] returns 0 for instance [index], whatever the
    object held before, the instance is bound to the sub-device
    "ipu3-imgu <index>" and to its "input", "output", "viewfinder" and
    "3a stat" video nodes, with pads 2, 3 and 4 for the three outputs, and
    all five devices were opened with result 0. *)
Theorem ImgUDevice_init_binds this media index imgu :
  ImgUDevice_init this media index = Some (0, imgu) →
  let name := "ipu3-imgu " +:+ to_string index in
  imgu
  = ImgUDevice.mk index name (Some (subdev name))
      (Some (videodev (name +:+ " input")))
      (ImgUOutput.mk (Some (videodev (name +:+ " output")))
                     ImgUDevice.PAD_OUTPUT "output")
      (ImgUOutput.mk (Some (videodev (name +:+ " viewfinder")))
                     ImgUDevice.PAD_VF "viewfinder")
      (ImgUOutput.mk (Some (videodev (name +:+ " 3a stat")))
                     ImgUDevice.PAD_STAT "stat")
  ∧ drv_subdev_open (subdev name) = 0
  ∧ Forall (fun node => drv_dev_open (videodev (name +:+ node)) = 0)
           [" input"; " output"; " viewfinder"; " 3a stat"].
Proof.
  unfold ImgUDevice_init, V4L2Subdevice_fromEntityName,
    V4L2Device_fromEntityName.
  cbn [ImgUDevice.set_name ImgUDevice.name_].
  set (name := "ipu3-imgu " +:+ to_string index).
  lookup_step.
  destruct (Z.eqb_spec (drv_subdev_open (subdev name)) 0) as [Hsub |];
    cbn [negb]; [| intros ?; simplify_eq].
  lookup_step.
  destruct (Z.eqb_spec (drv_dev_open (videodev (name +:+ " input"))) 0)
    as [Hin |]; cbn [negb]; [| intros ?; simplify_eq].
  lookup_step.
  destruct (Z.eqb_spec (drv_dev_open (videodev (name +:+ " output"))) 0)
    as [Hout |]; cbn [negb]; [| intros ?; simplify_eq].
  lookup_step.
  destruct (Z.eqb_spec (drv_dev_open (videodev (name +:+ " viewfinder"))) 0)
    as [Hvf |]; cbn [negb]; [| intros ?; simplify_eq].
  lookup_step.
  destruct (Z.eqb_spec (drv_dev_open (videodev (name +:+ " 3a stat"))) 0)
    as [Hstat |]; cbn [negb]; [| intros ?; simplify_eq].
  intros [= <-]. cbn zeta. split; [reflexivity |]. split; [done |].
  repeat constructor; done.
Qed.

(** On a media device that satisfies the ImgU match, [ImgUDevice::init]
    for instance 0 or 1 dereferences no null pointer, and returns 0 exactly
    when the five devices of the instance open with result 0. *)
Lemma ImgUDevice_init_defined this media index :
  DeviceMatch.matches imgu_dm media = true →
  (index < 2)%nat →
  let name := "ipu3-imgu " +:+ to_string index in
  ∃ ret imgu,
    ImgUDevice_init this media index = Some (ret, imgu)
    ∧ (ret = 0 ↔
       drv_subdev_open (subdev name) = 0
       ∧ Forall (fun node => drv_dev_open (videodev (name +:+ node)) = 0)
                [" input"; " output"; " viewfinder"; " 3a stat"]).
Proof.
  intros Hm Hindex name.
  assert (Hfound : ∀ node,
            In node [""; " input"; " output"; " viewfinder"; " 3a stat"] →
            ∃ e, MediaDevice.getEntityByName media (name +:+ node) = Some e
                 ∧ MediaEntity.name e = name +:+ node).
  { intros node Hnode.
    destruct (getEntityByName_matches imgu_dm media (name +:+ node) Hm)
      as [e He].
    - subst name. destruct index as [| [| index]]; [| | lia];
        cbn in Hnode;
        destruct Hnode as [<- | [<- | [<- | [<- | [<- | []]]]]];
        vm_compute; tauto.
    - exists e. split; [done |]. by apply getEntityByName_name in He. }
  destruct (Hfound "") as (e0 & He0 & Hn0); [cbn; tauto |].
  destruct (Hfound " input") as (e1 & He1 & Hn1); [cbn; tauto |].
  destruct (Hfound " output") as (e2 & He2 & Hn2); [cbn; tauto |].
  destruct (Hfound " viewfinder") as (e3 & He3 & Hn3); [cbn; tauto |].
  destruct (Hfound " 3a stat") as (e4 & He4 & Hn4); [cbn; tauto |].
  assert (Hname : name +:+ "" = name).
  { subst name. destruct index as [| [| index]]; [done | done | lia]. }
  rewrite Hname in He0, Hn0.
  unfold ImgUDevice_init, V4L2Subdevice_fromEntityName,
    V4L2Device_fromEntityName.
  cbn [ImgUDevice.set_name ImgUDevice.name_]. fold name.
  rewrite He0, He1, He2, He3, He4. cbn [mbind option_bind].
  rewrite Hn0, Hn1, Hn2, Hn3, Hn4.
  destruct (Z.eqb_spec (drv_subdev_open (subdev name)) 0) as [Hsub | Hsub];
    cbn [negb].
  2: { do 2 eexists. split; [reflexivity |]. split; [done | tauto]. }
  destruct (Z.eqb_spec (drv_dev_open (videodev (name +:+ " input"))) 0)
    as [Hin | Hin]; cbn [negb].
  2: { do 2 eexists. split; [reflexivity |]. split; [done |].
       intros [_ Hall]. by inversion Hall. }
  destruct (Z.eqb_spec (drv_dev_open (videodev (name +:+ " output"))) 0)
    as [Hout | Hout]; cbn [negb].
  2: { do 2 eexists. split; [reflexivity |]. split; [done |].
       intros [_ Hall]. inversion_clear Hall as [| ? ? _ Hall'].
       by inversion Hall'. }
  destruct (Z.eqb_spec (drv_dev_open (videodev (name +:+ " viewfinder"))) 0)
    as [Hvf | Hvf]; cbn [negb].
  2: { do 2 eexists. split; [reflexivity |]. split; [done |].
       intros [_ Hall]. inversion_clear Hall as [| ? ? _ Hall'].
       inversion_clear Hall' as [| ? ? _ Hall'']. by inversion Hall''. }
  destruct (Z.eqb_spec (drv_dev_open (videodev (name +:+ " 3a stat"))) 0)
    as [Hstat | Hstat]; cbn [negb].
  2: { do 2 eexists. split; [reflexivity |]. split; [done |].
       intros [_ Hall]. inversion_clear Hall as [| ? ? _ Hall'].
       inversion_clear Hall' as [| ? ? _ Hall''].
       inversion_clear Hall'' as [| ? ? _ Hall''']. by inversion Hall'''. }
  do 2 eexists. split; [reflexivity |]. split; [| done]. intros _.
  split; [done |]. repeat constructor; done.
Qed.
End ImgUInit.

Lemma ImgUDevice_init_binds_witness :
  Sample.imgu0
  = ImgUDevice.mk 0 "ipu3-imgu 0" (Some (subdev "ipu3-imgu 0"))
      (Some (videodev "ipu3-imgu 0 input"))
      (ImgUOutput.mk (Some (videodev "ipu3-imgu 0 output")) 2 "output")
      (ImgUOutput.mk (Some (videodev "ipu3-imgu 0 viewfinder")) 3 "viewfinder")
      (ImgUOutput.mk (Some (videodev "ipu3-imgu 0 3a stat")) 4 "stat").
Proof.
  destruct (@ImgUDevice_init_binds Sample.driver ImgUDevice.new
              Sample.imguMedia 0 Sample.imgu0) as [Heq _].
  - vm_compute. reflexivity.
  - exact Heq.
Defined.

(** ** match, registerCameras and the destructor *)

Lemma search_Some enumerator dm ptr :
  DeviceEnumerator_search enumerator dm = Some ptr →
  ∃ media,
    enumerator !! ptr = Some media
    ∧ DeviceMatch.matches dm media = true
    ∧ MediaDevice.acquired media = false.
Proof.
  unfold DeviceEnumerator_search.
  intros ([i media] & Hfind & ->)%fmap_Some.
  apply list_find_Some in Hfind as (Hlookup & [Hm Ha] & _).
  by exists media.
Qed.

Lemma matches_acquire dm media :
  DeviceMatch.matches dm (MediaDevice.acquire media)
  = DeviceMatch.matches dm media.
Proof. reflexivity. Qed.

Lemma acquire_release (enumerator : list MediaDevice.t) (ptr : nat) media :
  enumerator !! ptr = Some media →
  MediaDevice.acquired media = false →
  alter MediaDevice_release ptr (alter MediaDevice.acquire ptr enumerator)
  = enumerator.
Proof.
  unfold DeviceEnumerator in *.
  intros Hlookup Hfree. apply list_eq. intros j.
  destruct (decide (ptr = j)) as [<- | Hne].
  - rewrite !list_lookup_alter_eq, Hlookup. cbn. f_equal.
    destruct media. cbn in Hfree. by subst.
  - by rewrite !list_lookup_alter_ne.
Qed.

Lemma alter_alter_ne {A} (f g : A → A) (l : list A) i j :
  i ≠ j → alter f i (alter g j l) = alter g j (alter f i l).
Proof.
  intros Hne. apply list_eq. intros k.
  destruct (decide (k = i)) as [-> | Hik].
  - rewrite list_lookup_alter_eq.
    rewrite !(list_lookup_alter_ne g _ j i) by done.
    by rewrite list_lookup_alter_eq.
  - rewrite (list_lookup_alter_ne f _ i k) by done.
    destruct (decide (k = j)) as [-> | Hjk].
    + rewrite !list_lookup_alter_eq.
      by rewrite (list_lookup_alter_ne f _ i j) by done.
    + rewrite !(list_lookup_alter_ne g _ j k) by done.
      by rewrite (list_lookup_alter_ne f _ i k) by done.
Qed.

Section MatchStructure.
Context `{Driver}.

Lemma registerCameras_loop_keeps media ids : ∀ n this n' this',
  registerCameras_loop media ids n this = Some (n', this') →
  PipelineHandlerIPU3.imgu0_ this' = PipelineHandlerIPU3.imgu0_ this
  ∧ PipelineHandlerIPU3.imgu1_ this' = PipelineHandlerIPU3.imgu1_ this
  ∧ PipelineHandlerIPU3.cio2MediaDev_ this'
    = PipelineHandlerIPU3.cio2MediaDev_ this
  ∧ PipelineHandlerIPU3.imguMediaDev_ this'
    = PipelineHandlerIPU3.imguMediaDev_ this.
Proof.
  induction ids as [| id ids IH]; intros n this n' this'.
  - intros [= _ <-]. done.
  - cbn [registerCameras_loop].
    destruct (negb (n <? 2)%nat); [intros [= _ <-]; done |].
    destruct (CIO2Device_init CIO2Device.new media id) as [[ret cio2] |];
      cbn [mbind option_bind]; [| intros ?; discriminate].
    destruct (negb (ret =? 0)); [apply IH |].
    destruct (CIO2Device.sensor_ cio2) as [sensor |];
      cbn [mbind option_bind]; [| intros ?; discriminate].
    destruct (CIO2Device.output_ cio2) as [output |];
      cbn [mbind option_bind]; [| intros ?; discriminate].
    intros Hloop. apply IH in Hloop. exact Hloop.
Qed.

Lemma registerCameras_keeps enumerator this ret this' :
  registerCameras enumerator this = Some (ret, this') →
  PipelineHandlerIPU3.cio2MediaDev_ this'
  = PipelineHandlerIPU3.cio2MediaDev_ this
  ∧ PipelineHandlerIPU3.imguMediaDev_ this'
    = PipelineHandlerIPU3.imguMediaDev_ this.
Proof.
  unfold registerCameras.
  destruct (PipelineHandlerIPU3.imguMediaDev_ this) as [imguPtr |] eqn:Himgu;
    cbn [mbind option_bind]; [| intros ?; discriminate].
  destruct (enumerator !! imguPtr) as [imguMedia |];
    cbn [mbind option_bind]; [| intros ?; discriminate].
  destruct (ImgUDevice_init _ imguMedia 0) as [[ret0 imgu0] |];
    cbn [mbind option_bind]; [| intros ?; discriminate].
  destruct (negb (ret0 =? 0)); [by intros [= _ <-] |].
  cbn [PipelineHandlerIPU3.imgu0_ PipelineHandlerIPU3.imgu1_
       PipelineHandlerIPU3.cio2MediaDev_ PipelineHandlerIPU3.imguMediaDev_
       PipelineHandlerIPU3.cameras].
  destruct (ImgUDevice_init _ imguMedia 1) as [[ret1 imgu1] |];
    cbn [mbind option_bind]; [| intros ?; discriminate].
  destruct (negb (ret1 =? 0)); [by intros [= _ <-] |].
  destruct (PipelineHandlerIPU3.cio2MediaDev_ this) as [cio2Ptr |];
    cbn [mbind option_bind]; [| intros ?; discriminate].
  destruct (enumerator !! cio2Ptr) as [cio2Media |];
    cbn [mbind option_bind]; [| intros ?; discriminate].
  destruct (registerCameras_loop cio2Media (seq 0 4) 0 _)
    as [[n that] |] eqn:Hloop; cbn [mbind option_bind];
    [| intros ?; discriminate].
  intros [= _ <-]. apply registerCameras_loop_keeps in Hloop.
  by destruct Hloop as (_ & _ & -> & ->).
Qed.

(** The media devices [match] searches for and acquires. *)
Lemma match_media_devices indeterminate this enumerator b this' enumerator' :
  match_ indeterminate this enumerator = Some (b, this', enumerator') →
  PipelineHandlerIPU3.cio2MediaDev_ this'
  = DeviceEnumerator_search enumerator cio2_dm
  ∧ match DeviceEnumerator_search enumerator cio2_dm with
    | None =>
        b = false ∧ enumerator' = enumerator
        ∧ PipelineHandlerIPU3.imguMediaDev_ this'
          = PipelineHandlerIPU3.imguMediaDev_ this
    | Some cio2Ptr =>
        let acquired := alter MediaDevice.acquire cio2Ptr enumerator in
        PipelineHandlerIPU3.imguMediaDev_ this'
        = DeviceEnumerator_search acquired imgu_dm
        ∧ match DeviceEnumerator_search acquired imgu_dm with
          | None => b = false ∧ enumerator' = acquired
          | Some imguPtr =>
              enumerator' = alter MediaDevice.acquire imguPtr acquired
          end
    end.
Proof.
  unfold match_.
  destruct (DeviceEnumerator_search enumerator cio2_dm) as [cio2Ptr |];
    [| by intros [= <- <- <-]].
  cbn zeta.
  destruct (DeviceEnumerator_search _ imgu_dm) as [imguPtr |];
    [| by intros [= <- <- <-]].
  destruct (_ !! cio2Ptr) as [cio2Media |];
    cbn [mbind option_bind]; [| intros ?; discriminate].
  destruct (_ !! imguPtr) as [imguMedia |];
    cbn [mbind option_bind]; [| intros ?; discriminate].
  repeat (match goal with
          | |- context [if negb ?c then _ else _] => destruct (negb c)
          end; [by intros [= <- <- <-] |]).
  destruct (registerCameras _ _) as [[ret that] |] eqn:Hreg;
    cbn [mbind option_bind]; [| intros ?; discriminate].
  intros [= <- <- <-]. apply registerCameras_keeps in Hreg as [-> ->]. done.
Qed.

(** X9: the busy flags after [match].  The media devices the handler
    holds afterwards were in the enumerator and free before, and are busy
    after; the busy flag of every other media device is as it was, and
    the enumerator holds as many media devices as before.  This holds on
    the paths where [match] returns false as well, where the devices found
    so far stay acquired.  (Nothing is said of the links, which [match]
    disables and [CIO2Device::init] enables.) *)
Theorem match_acquires indeterminate this enumerator b this' enumerator' :
  PipelineHandlerIPU3.imguMediaDev_ this = None →
  match_ indeterminate this enumerator = Some (b, this', enumerator') →
  length enumerator' = length enumerator
  ∧ (∀ ptr,
       PipelineHandlerIPU3.cio2MediaDev_ this' = Some ptr
       ∨ PipelineHandlerIPU3.imguMediaDev_ this' = Some ptr →
       MediaDevice.acquired <$> enumerator !! ptr = Some false
       ∧ MediaDevice.acquired <$> enumerator' !! ptr = Some true)
  ∧ (∀ ptr,
       PipelineHandlerIPU3.cio2MediaDev_ this' ≠ Some ptr →
       PipelineHandlerIPU3.imguMediaDev_ this' ≠ Some ptr →
       MediaDevice.acquired <$> enumerator' !! ptr
       = MediaDevice.acquired <$> enumerator !! ptr).
Proof.
  intros Hfresh Hmatch.
  apply match_media_devices in Hmatch as [Hcio2 Hrest]. rewrite Hcio2.
  destruct (DeviceEnumerator_search enumerator cio2_dm) as [cio2Ptr |]
    eqn:Hs1.
  2: { destruct Hrest as (_ & -> & ->). rewrite Hfresh.
       split; [done |]. split; [| done]. by intros ptr [? | ?]. }
  cbn zeta in Hrest. destruct Hrest as [-> Hrest].
  apply search_Some in Hs1 as (cio2Media & Hl1 & _ & Hfree1).
  unfold DeviceEnumerator, MediaDevicePtr in *.
  destruct (DeviceEnumerator_search _ imgu_dm) as [imguPtr |] eqn:Hs2.
  - apply search_Some in Hs2 as (imguMedia' & Hl2 & _ & Hfree2). subst.
    unfold DeviceEnumerator, MediaDevicePtr in *.
    assert (Hne : cio2Ptr ≠ imguPtr).
    { intros <-. rewrite list_lookup_alter_eq, Hl1 in Hl2.
      injection Hl2 as <-. discriminate Hfree2. }
    rewrite (list_lookup_alter_ne MediaDevice.acquire _ cio2Ptr imguPtr)
      in Hl2 by done.
    split; [by rewrite !length_alter |]. split.
    + intros ptr [[= <-] | [= <-]].
      * rewrite (list_lookup_alter_ne MediaDevice.acquire _ imguPtr cio2Ptr)
          by done.
        rewrite list_lookup_alter_eq, Hl1. cbn. by rewrite Hfree1.
      * rewrite list_lookup_alter_eq.
        rewrite (list_lookup_alter_ne MediaDevice.acquire _ cio2Ptr imguPtr)
          by done.
        rewrite Hl2. cbn. by rewrite Hfree2.
    + intros ptr Hc Hi.
      rewrite (list_lookup_alter_ne MediaDevice.acquire _ imguPtr ptr)
        by congruence.
      by rewrite (list_lookup_alter_ne MediaDevice.acquire _ cio2Ptr ptr)
        by congruence.
  - destruct Hrest as [_ ->].
    split; [by rewrite length_alter |]. split.
    + intros ptr [[= <-] | [=]].
      rewrite list_lookup_alter_eq, Hl1. cbn. by rewrite Hfree1.
    + intros ptr Hc _.
      by rewrite (list_lookup_alter_ne MediaDevice.acquire _ cio2Ptr ptr)
        by congruence.
Qed.

(** X10: [match] followed by the destructor leaves every media device
    with the busy flag it had before [match]: every media device [match]
    acquired is released, on the paths where [match] returns false as
    well.  (The destructor only calls [release]: nothing is said of the
    links, which it does not restore.) *)
Theorem match_destructor_round_trip indeterminate this enumerator b this'
    enumerator' :
  PipelineHandlerIPU3.imguMediaDev_ this = None →
  match_ indeterminate this enumerator = Some (b, this', enumerator') →
  MediaDevice.acquired <$> PipelineHandlerIPU3_destructor this' enumerator'
  = MediaDevice.acquired <$> enumerator.
Proof.
  intros Hfresh Hmatch. apply match_media_devices in Hmatch as [Hcio2 Hrest].
  unfold PipelineHandlerIPU3_destructor. rewrite Hcio2.
  unfold DeviceEnumerator in *.
  destruct (DeviceEnumerator_search enumerator cio2_dm) as [cio2Ptr |]
    eqn:Hs1.
  - apply search_Some in Hs1 as (cio2Media & Hl1 & _ & Hfree1).
    cbn zeta in Hrest. destruct Hrest as [-> Hrest].
    destruct (DeviceEnumerator_search _ imgu_dm) as [imguPtr |] eqn:Hs2.
    + apply search_Some in Hs2 as (imguMedia & Hl2 & _ & Hfree2). subst.
      unfold DeviceEnumerator, MediaDevicePtr in *.
      assert (Hne : cio2Ptr ≠ imguPtr).
      { intros <-. rewrite list_lookup_alter_eq, Hl1 in Hl2.
        injection Hl2 as <-. discriminate Hfree2. }
      rewrite list_lookup_alter_ne in Hl2 by done.
      rewrite (alter_alter_ne MediaDevice_release MediaDevice.acquire) by done.
      rewrite (acquire_release _ _ _ Hl1 Hfree1).
      by rewrite (acquire_release _ _ _ Hl2 Hfree2).
    + destruct Hrest as [_ ->].
      unfold DeviceEnumerator, MediaDevicePtr in *.
      by rewrite (acquire_release _ _ _ Hl1 Hfree1).
  - destruct Hrest as (_ & -> & ->). by rewrite Hfresh.
Qed.

Lemma registerCameras_loop_count media ids : ∀ n this n' this',
  registerCameras_loop media ids n this = Some (n', this') →
  (n <= 2)%nat →
  ∃ cameras,
    PipelineHandlerIPU3.cameras this'
    = PipelineHandlerIPU3.cameras this ++ cameras
    ∧ n' = (n + length cameras)%nat
    ∧ (n' <= 2)%nat.
Proof.
  induction ids as [| id ids IH]; intros n this n' this'.
  - intros [= <- <-] Hn. exists []. by rewrite app_nil_r, Nat.add_0_r.
  - cbn [registerCameras_loop].
    destruct (Nat.ltb_spec n 2) as [Hlt | Hge]; cbn [negb].
    2: { intros [= <- <-] Hn. exists [].
         by rewrite app_nil_r, Nat.add_0_r. }
    destruct (CIO2Device_init CIO2Device.new media id) as [[ret cio2] |];
      cbn [mbind option_bind]; [| intros ?; discriminate].
    destruct (negb (ret =? 0)); [apply IH |].
    destruct (CIO2Device.sensor_ cio2) as [sensor |];
      cbn [mbind option_bind]; [| intros ?; discriminate].
    destruct (CIO2Device.output_ cio2) as [output |];
      cbn [mbind option_bind]; [| intros ?; discriminate].
    intros Hloop _. apply IH in Hloop as (cameras & Hc & -> & Hle); [| lia].
    cbn [PipelineHandler_registerCamera PipelineHandlerIPU3.cameras] in Hc.
    eexists (_ :: cameras). rewrite Hc, <- app_assoc.
    split; [reflexivity |]. cbn [length]. lia.
Qed.

(** [registerCameras] adds at most two cameras, and returns 0 exactly when
    it added one: when an ImgU instance fails to initialise, and when no
    receiver has a usable sensor, the cameras are as before. *)
Lemma registerCameras_cameras enumerator this ret this' :
  registerCameras enumerator this = Some (ret, this') →
  ∃ cameras,
    PipelineHandlerIPU3.cameras this'
    = PipelineHandlerIPU3.cameras this ++ cameras
    ∧ (length cameras <= 2)%nat
    ∧ (ret = 0 ↔ cameras ≠ []).
Proof.
  unfold registerCameras.
  destruct (PipelineHandlerIPU3.imguMediaDev_ this) as [imguPtr |];
    cbn [mbind option_bind]; [| intros ?; discriminate].
  destruct (enumerator !! imguPtr) as [imguMedia |];
    cbn [mbind option_bind]; [| intros ?; discriminate].
  destruct (ImgUDevice_init _ imguMedia 0) as [[ret0 imgu0] |];
    cbn [mbind option_bind]; [| intros ?; discriminate].
  destruct (Z.eqb_spec ret0 0) as [-> | Hret0]; cbn [negb].
  2: { intros [= <- <-]. exists []. rewrite app_nil_r.
       split; [done |]. split; [cbn; lia |]. done. }
  cbn [PipelineHandlerIPU3.imgu0_ PipelineHandlerIPU3.imgu1_
       PipelineHandlerIPU3.cio2MediaDev_ PipelineHandlerIPU3.imguMediaDev_
       PipelineHandlerIPU3.cameras].
  destruct (ImgUDevice_init _ imguMedia 1) as [[ret1 imgu1] |];
    cbn [mbind option_bind]; [| intros ?; discriminate].
  destruct (Z.eqb_spec ret1 0) as [-> | Hret1]; cbn [negb].
  2: { intros [= <- <-]. exists []. rewrite app_nil_r.
       split; [done |]. split; [cbn; lia |]. done. }
  destruct (PipelineHandlerIPU3.cio2MediaDev_ this) as [cio2Ptr |];
    cbn [mbind option_bind]; [| intros ?; discriminate].
  destruct (enumerator !! cio2Ptr) as [cio2Media |];
    cbn [mbind option_bind]; [| intros ?; discriminate].
  destruct (registerCameras_loop cio2Media (seq 0 4) 0 _)
    as [[n that] |] eqn:Hloop; cbn [mbind option_bind];
    [| intros ?; discriminate].
  intros [= <- <-].
  apply registerCameras_loop_count in Hloop as (cameras & Hc & -> & Hle);
    [| lia].
  cbn [PipelineHandlerIPU3.cameras] in Hc. exists cameras.
  split; [done |]. split; [done |].
  destruct cameras; cbn [length Nat.add Nat.eqb negb]; split; done.
Qed.

(** X11: [match] registers at most two cameras.  When it returns false it
    has registered none, on every path: a media device missing, [open] or
    [disableLinks] failing, an ImgU instance failing to initialise, no
    receiver with a usable sensor.  When it returns true, both media
    devices were found and opened and the links of the CIO2 media device
    were disabled, and one of two things happened: [disableLinks]
    returned 0 on the ImgU media device and at least one camera was
    registered; or [disableLinks] failed on the ImgU media device, no
    camera was registered, and the value returned is that of the
    variable [ret] read before it was assigned, which held 0. *)
Theorem match_cameras indeterminate this enumerator b this' enumerator' :
  match_ indeterminate this enumerator = Some (b, this', enumerator') →
  ∃ cameras,
    PipelineHandlerIPU3.cameras this'
    = PipelineHandlerIPU3.cameras this ++ cameras
    ∧ (length cameras <= 2)%nat
    ∧ (b = false → cameras = [])
    ∧ (b = true →
       ∃ cio2Ptr imguPtr cio2Media imguMedia,
         PipelineHandlerIPU3.cio2MediaDev_ this' = Some cio2Ptr
         ∧ PipelineHandlerIPU3.imguMediaDev_ this' = Some imguPtr
         ∧ enumerator' !! cio2Ptr = Some cio2Media
         ∧ enumerator' !! imguPtr = Some imguMedia
         ∧ MediaDevice.open_ret cio2Media = 0
         ∧ MediaDevice.disableLinks_ret cio2Media = 0
         ∧ MediaDevice.open_ret imguMedia = 0
         ∧ (MediaDevice.disableLinks_ret imguMedia = 0 ∧ cameras ≠ []
            ∨ MediaDevice.disableLinks_ret imguMedia ≠ 0
              ∧ cameras = [] ∧ indeterminate = 0)).
Proof.
  unfold match_.
  assert (Hnone : ∀ c0 c1 e,
            Some (false,
                  PipelineHandlerIPU3.mk (PipelineHandlerIPU3.imgu0_ this)
                    (PipelineHandlerIPU3.imgu1_ this) c0 c1
                    (PipelineHandlerIPU3.cameras this), e)
            = Some (b, this', enumerator') →
            ∃ cameras,
              PipelineHandlerIPU3.cameras this'
              = PipelineHandlerIPU3.cameras this ++ cameras
              ∧ (length cameras <= 2)%nat
              ∧ (b = false → cameras = [])
              ∧ (b = true →
                 ∃ cio2Ptr imguPtr cio2Media imguMedia,
                   PipelineHandlerIPU3.cio2MediaDev_ this' = Some cio2Ptr
                   ∧ PipelineHandlerIPU3.imguMediaDev_ this' = Some imguPtr
                   ∧ enumerator' !! cio2Ptr = Some cio2Media
                   ∧ enumerator' !! imguPtr = Some imguMedia
                   ∧ MediaDevice.open_ret cio2Media = 0
                   ∧ MediaDevice.disableLinks_ret cio2Media = 0
                   ∧ MediaDevice.open_ret imguMedia = 0
                   ∧ (MediaDevice.disableLinks_ret imguMedia = 0
                      ∧ cameras ≠ []
                      ∨ MediaDevice.disableLinks_ret imguMedia ≠ 0
                        ∧ cameras = [] ∧ indeterminate = 0))).
  { intros c0 c1 e [= <- <- <-]. exists []. rewrite app_nil_r.
    split; [done |]. split; [cbn; lia |]. done. }
  destruct (DeviceEnumerator_search enumerator cio2_dm) as [cio2Ptr |];
    [| apply Hnone].
  cbn zeta.
  destruct (DeviceEnumerator_search _ imgu_dm) as [imguPtr |];
    [| apply Hnone].
  set (acquired := alter MediaDevice.acquire imguPtr _).
  destruct (acquired !! cio2Ptr) as [cio2Media |] eqn:Hc;
    cbn [mbind option_bind]; [| intros ?; discriminate].
  destruct (acquired !! imguPtr) as [imguMedia |] eqn:Hi;
    cbn [mbind option_bind]; [| intros ?; discriminate].
  cbn [PipelineHandlerIPU3.imgu0_ PipelineHandlerIPU3.imgu1_
       PipelineHandlerIPU3.cameras].
  destruct (Z.eqb_spec (MediaDevice.open_ret cio2Media) 0) as [Ho1 |];
    cbn [negb]; [| apply Hnone].
  destruct (Z.eqb_spec (MediaDevice.disableLinks_ret cio2Media) 0)
    as [Hd1 |]; cbn [negb]; [| apply Hnone].
  destruct (Z.eqb_spec (MediaDevice.open_ret imguMedia) 0) as [Ho2 |];
    cbn [negb]; [| apply Hnone].
  destruct (Z.eqb_spec (MediaDevice.disableLinks_ret imguMedia) 0)
    as [Hd2 | Hd2]; cbn [negb].
  2: { intros [= <- <- <-]. exists []. rewrite app_nil_r.
       split; [done |]. split; [cbn; lia |]. split; [done |].
       intros ->%Z.eqb_eq.
       exists cio2Ptr, imguPtr, cio2Media, imguMedia.
       repeat (split; [done |]). by right. }
  destruct (registerCameras _ _) as [[ret that] |] eqn:Hreg;
    cbn [mbind option_bind]; [| intros ?; discriminate].
  intros [= <- <- <-].
  pose proof (registerCameras_keeps _ _ _ _ Hreg) as [Hkc Hki].
  cbn [PipelineHandlerIPU3.cio2MediaDev_ PipelineHandlerIPU3.imguMediaDev_]
    in Hkc, Hki.
  apply registerCameras_cameras in Hreg as (cameras & Hcam & Hlen & Hret).
  cbn [PipelineHandlerIPU3.cameras] in Hcam. exists cameras.
  split; [done |]. split; [done |].
  destruct (Z.eqb_spec ret 0) as [-> | Hne].
  - split; [done |]. intros _.
    exists cio2Ptr, imguPtr, cio2Media, imguMedia.
    repeat (split; [done |]). left. split; [done |]. by apply Hret.
  - split; [| done]. intros _. destruct cameras; [done |].
    exfalso. apply Hne, Hret. done.
Qed.

(** [registerCameras] dereferences no null pointer on the media devices
    [match] hands to it. *)
Lemma registerCameras_defined enumerator this cio2Ptr imguPtr cio2Media
    imguMedia :
  PipelineHandlerIPU3.cio2MediaDev_ this = Some cio2Ptr →
  PipelineHandlerIPU3.imguMediaDev_ this = Some imguPtr →
  enumerator !! cio2Ptr = Some cio2Media →
  enumerator !! imguPtr = Some imguMedia →
  DeviceMatch.matches cio2_dm cio2Media = true →
  DeviceMatch.matches imgu_dm imguMedia = true →
  is_Some (registerCameras enumerator this).
Proof.
  intros Hcio2 Himgu Hc Hi Hmc Hmi. unfold registerCameras.
  rewrite Himgu. cbn [mbind option_bind]. rewrite Hi.
  cbn [mbind option_bind].
  destruct (ImgUDevice_init_defined (PipelineHandlerIPU3.imgu0_ this)
              imguMedia 0 Hmi ltac:(lia)) as (ret0 & imgu0 & -> & _).
  cbn [mbind option_bind].
  destruct (negb (ret0 =? 0)); [done |].
  cbn [PipelineHandlerIPU3.imgu0_ PipelineHandlerIPU3.imgu1_
       PipelineHandlerIPU3.cio2MediaDev_ PipelineHandlerIPU3.imguMediaDev_
       PipelineHandlerIPU3.cameras].
  destruct (ImgUDevice_init_defined (PipelineHandlerIPU3.imgu1_ this)
              imguMedia 1 Hmi ltac:(lia)) as (ret1 & imgu1 & -> & _).
  cbn [mbind option_bind].
  destruct (negb (ret1 =? 0)); [done |].
  rewrite Hcio2. cbn [mbind option_bind]. rewrite Hc.
  cbn [mbind option_bind].
  match goal with
  | |- context [registerCameras_loop cio2Media (seq 0 4) 0 ?t] =>
      destruct (registerCameras_loop_spec cio2Media (seq 0 4) 0%nat t)
        as (cameras & Hloop & _)
  end.
  { intros id Hid. apply CIO2Device_init_defined; [done |].
    apply in_seq in Hid. lia. }
  { lia. }
  cbn zeta in Hloop. rewrite Hloop. done.
Qed.

(** X12: [match] dereferences no null pointer, whatever media devices the
    enumerator holds and whatever state the handler is in: every entity
    that [ImgUDevice::init], [CIO2Device::init] and [registerCameras] look
    up by name and use without a test is one the two device matches ask
    for, on the media device that satisfied the match. *)
Theorem match_defined indeterminate this enumerator :
  ∃ b this' enumerator',
    match_ indeterminate this enumerator = Some (b, this', enumerator')
    ∧ length enumerator' = length enumerator.
Proof.
  unfold match_.
  destruct (DeviceEnumerator_search enumerator cio2_dm) as [cio2Ptr |]
    eqn:Hs1; [| by do 3 eexists].
  cbn zeta.
  destruct (DeviceEnumerator_search _ imgu_dm) as [imguPtr |] eqn:Hs2;
    [| do 3 eexists; split; [reflexivity |];
       unfold DeviceEnumerator, MediaDevicePtr in *; by rewrite length_alter].
  apply search_Some in Hs1 as (cio2Media & Hl1 & Hm1 & Hfree1).
  apply search_Some in Hs2 as (imguMedia & Hl2 & Hm2 & Hfree2).
  unfold DeviceEnumerator, MediaDevicePtr in *.
  assert (Hne : cio2Ptr ≠ imguPtr).
  { intros <-. rewrite list_lookup_alter_eq, Hl1 in Hl2.
    injection Hl2 as <-. discriminate Hfree2. }
  set (acquired := alter MediaDevice.acquire imguPtr
                     (alter MediaDevice.acquire cio2Ptr enumerator)).
  assert (Hc : acquired !! cio2Ptr = Some (MediaDevice.acquire cio2Media)).
  { subst acquired.
    rewrite (list_lookup_alter_ne MediaDevice.acquire _ imguPtr cio2Ptr)
      by done.
    by rewrite list_lookup_alter_eq, Hl1. }
  assert (Hi : acquired !! imguPtr = Some (MediaDevice.acquire imguMedia)).
  { subst acquired. by rewrite list_lookup_alter_eq, Hl2. }
  assert (Hlen : length acquired = length enumerator)
    by (subst acquired; by rewrite !length_alter).
  rewrite Hc, Hi. cbn [mbind option_bind].
  repeat (match goal with
          | |- context [if negb ?c then _ else _] => destruct (negb c)
          end; [by do 3 eexists |]).
  match goal with
  | |- context [registerCameras acquired ?t] =>
      destruct (registerCameras_defined acquired t cio2Ptr imguPtr
                  (MediaDevice.acquire cio2Media)
                  (MediaDevice.acquire imguMedia))
        as [[ret that] ->]; try done
  end.
  cbn [mbind option_bind]. by do 3 eexists.
Qed.

(** X13: the media devices a handler holds after [match] are acquired: no
    later search of the enumerator, for any device match, finds one of
    them, so no other handler can get the same IPU3. *)
Theorem match_exclusive indeterminate this enumerator b this' enumerator' dm
    ptr :
  PipelineHandlerIPU3.imguMediaDev_ this = None →
  match_ indeterminate this enumerator = Some (b, this', enumerator') →
  DeviceEnumerator_search enumerator' dm = Some ptr →
  PipelineHandlerIPU3.cio2MediaDev_ this' ≠ Some ptr
  ∧ PipelineHandlerIPU3.imguMediaDev_ this' ≠ Some ptr.
Proof.
  intros Hfresh Hmatch Hsearch.
  apply match_media_devices in Hmatch as [Hcio2 Hrest].
  apply search_Some in Hsearch as (media & Hl & _ & Hfree).
  rewrite Hcio2.
  destruct (DeviceEnumerator_search enumerator cio2_dm) as [cio2Ptr |]
    eqn:Hs1.
  2: { destruct Hrest as (_ & _ & ->). by rewrite Hfresh. }
  cbn zeta in Hrest. destruct Hrest as [-> Hrest].
  apply search_Some in Hs1 as (cio2Media & Hl1 & _ & _).
  unfold DeviceEnumerator, MediaDevicePtr in *.
  destruct (DeviceEnumerator_search _ imgu_dm) as [imguPtr |] eqn:Hs2.
  - apply search_Some in Hs2 as (imguMedia & Hl2 & _ & Hfree2). subst.
    unfold DeviceEnumerator, MediaDevicePtr in *.
    assert (Hne : cio2Ptr ≠ imguPtr).
    { intros <-. rewrite list_lookup_alter_eq, Hl1 in Hl2.
      injection Hl2 as <-. discriminate Hfree2. }
    split; intros [= <-].
    + rewrite (list_lookup_alter_ne MediaDevice.acquire _ imguPtr cio2Ptr)
        in Hl by done.
      rewrite list_lookup_alter_eq, Hl1 in Hl. injection Hl as <-.
      discriminate Hfree.
    + rewrite list_lookup_alter_eq, Hl2 in Hl. injection Hl as <-.
      discriminate Hfree.
  - destruct Hrest as [_ ->]. split; [| done]. intros [= <-].
    rewrite list_lookup_alter_eq, Hl1 in Hl. injection Hl as <-.
    discriminate Hfree.
Qed.

Lemma lookup_alter_acquire (l : list MediaDevice.t) (i j : nat) x :
  alter MediaDevice.acquire i l !! j = Some x →
  ∃ y, l !! j = Some y
       ∧ (x = y ∨ j = i ∧ x = MediaDevice.acquire y).
Proof.
  destruct (decide (i = j)) as [<- | Hne].
  - rewrite list_lookup_alter_eq.
    intros (y & Hy & ->)%fmap_Some. exists y. auto.
  - rewrite list_lookup_alter_ne by done. intros Hy. exists x. auto.
Qed.

(** X14: enumerator exclusivity.  Once a handler has matched, holding the
    only media device of the system that satisfies the CIO2 device match,
    [match] of any other handler instance on the same enumerator finds no
    CIO2 media device: it returns false, acquires nothing and registers no
    camera, whatever the state of that handler. *)
Theorem match_second_handler_fails indeterminate this enumerator b this'
    enumerator' cio2Ptr indeterminate' that :
  match_ indeterminate this enumerator = Some (b, this', enumerator') →
  PipelineHandlerIPU3.cio2MediaDev_ this' = Some cio2Ptr →
  (∀ ptr media,
     enumerator !! ptr = Some media →
     DeviceMatch.matches cio2_dm media = true →
     ptr = cio2Ptr) →
  match_ indeterminate' that enumerator'
  = Some (false,
          PipelineHandlerIPU3.mk
            (PipelineHandlerIPU3.imgu0_ that) (PipelineHandlerIPU3.imgu1_ that)
            None (PipelineHandlerIPU3.imguMediaDev_ that)
            (PipelineHandlerIPU3.cameras that),
          enumerator').
Proof.
  intros Hmatch Hheld Honly.
  apply match_media_devices in Hmatch as [Hcio2 Hrest].
  rewrite Hheld in Hcio2. symmetry in Hcio2. rewrite Hcio2 in Hrest.
  cbn zeta in Hrest. destruct Hrest as [_ Hrest].
  apply search_Some in Hcio2 as (cio2Media & Hl1 & _ & _).
  unfold DeviceEnumerator, MediaDevicePtr in *.
  assert (Hbusy : ∀ ptr media,
            alter MediaDevice.acquire cio2Ptr enumerator !! ptr = Some media →
            DeviceMatch.matches cio2_dm media = true →
            MediaDevice.acquired media = true).
  { intros ptr media Hl Hm.
    destruct (decide (ptr = cio2Ptr)) as [-> | Hne].
    - rewrite list_lookup_alter_eq, Hl1 in Hl. by injection Hl as <-.
    - rewrite list_lookup_alter_ne in Hl by done.
      exfalso. apply Hne. by eapply Honly. }
  assert (Hnone : DeviceEnumerator_search enumerator' cio2_dm = None).
  { unfold DeviceEnumerator_search. apply fmap_None, list_find_None.
    apply Forall_lookup. intros ptr media Hl [Hm Hfree].
    assert (Hacq : MediaDevice.acquired media = true); [| congruence].
    destruct (DeviceEnumerator_search _ imgu_dm) as [imguPtr |].
    - subst enumerator'.
      apply lookup_alter_acquire in Hl as (y & Hy & Hcase).
      destruct Hcase as [-> | [_ ->]]; [by eapply Hbusy | done].
    - destruct Hrest as [_ ->]. by eapply Hbusy. }
  unfold match_. by rewrite Hnone.
Qed.
End MatchStructure.

Lemma match_acquires_witness :
  MediaDevice.acquired <$> Sample.enumerator_busy !! 0%nat = Some false
  ∧ MediaDevice.acquired
    <$> alter MediaDevice.acquire 1%nat
          (alter MediaDevice.acquire 0%nat Sample.enumerator_busy) !! 0%nat
    = Some true.
Proof.
  destruct (@match_acquires Sample.driver 0 PipelineHandlerIPU3.new
              Sample.enumerator_busy true Sample.handler
              (alter MediaDevice.acquire 1%nat
                 (alter MediaDevice.acquire 0%nat Sample.enumerator_busy)))
    as (_ & Hheld & _).
  - reflexivity.
  - vm_compute. reflexivity.
  - apply Hheld. left. reflexivity.
Defined.

Lemma match_destructor_round_trip_witness :
  MediaDevice.acquired
  <$> PipelineHandlerIPU3_destructor Sample.handler
        (alter MediaDevice.acquire 1%nat
           (alter MediaDevice.acquire 0%nat Sample.enumerator_busy))
  = [false; false].
Proof.
  apply (@match_destructor_round_trip Sample.driver 0 PipelineHandlerIPU3.new
           Sample.enumerator_busy true).
  - reflexivity.
  - vm_compute. reflexivity.
Defined.

Lemma match_cameras_witness :
  ∃ cameras imguPtr imguMedia,
    PipelineHandlerIPU3.cameras Sample.handler
    = PipelineHandlerIPU3.cameras PipelineHandlerIPU3.new ++ cameras
    ∧ cameras = []
    ∧ PipelineHandlerIPU3.imguMediaDev_ Sample.handler = Some imguPtr
    ∧ alter MediaDevice.acquire 1%nat
        (alter MediaDevice.acquire 0%nat Sample.enumerator_busy) !! imguPtr
      = Some imguMedia
    ∧ MediaDevice.disableLinks_ret imguMedia ≠ 0.
Proof.
  destruct (@match_cameras Sample.driver 0 PipelineHandlerIPU3.new
              Sample.enumerator_busy true Sample.handler
              (alter MediaDevice.acquire 1%nat
                 (alter MediaDevice.acquire 0%nat Sample.enumerator_busy)))
    as (cameras & Hcameras & _ & _ & Htrue).
  - vm_compute. reflexivity.
  - destruct (Htrue eq_refl)
      as (cio2Ptr & imguPtr & cio2Media & imguMedia & _ & Hptr & _ & Hmedia
          & _ & _ & _ & [[_ Hsome] | (Hfail & Hnone & _)]).
    + exfalso. apply Hsome. symmetry. exact Hcameras.
    + exists cameras, imguPtr, imguMedia.
      split; [exact Hcameras |]. split; [exact Hnone |].
      split; [exact Hptr |]. split; [exact Hmedia | exact Hfail].
Defined.

Lemma match_exclusive_witness :
  PipelineHandlerIPU3.cio2MediaDev_ Sample.handler ≠ Some 2%nat
  ∧ PipelineHandlerIPU3.imguMediaDev_ Sample.handler ≠ Some 2%nat.
Proof.
  apply (@match_exclusive Sample.driver 0 PipelineHandlerIPU3.new
           Sample_enumerator_spare true Sample.handler
           (alter MediaDevice.acquire 1%nat
              (alter MediaDevice.acquire 0%nat Sample_enumerator_spare))
           imgu_dm 2%nat).
  - reflexivity.
  - vm_compute. reflexivity.
  - vm_compute. reflexivity.
Defined.

Lemma match_second_handler_fails_witness :
  @match_ Sample.driver 0 PipelineHandlerIPU3.new
    (alter MediaDevice.acquire 1%nat
       (alter MediaDevice.acquire 0%nat Sample.enumerator_busy))
  = Some (false, PipelineHandlerIPU3.new,
          alter MediaDevice.acquire 1%nat
            (alter MediaDevice.acquire 0%nat Sample.enumerator_busy)).
Proof.
  apply (@match_second_handler_fails Sample.driver 0 PipelineHandlerIPU3.new
           Sample.enumerator_busy true Sample.handler
           (alter MediaDevice.acquire 1%nat
              (alter MediaDevice.acquire 0%nat Sample.enumerator_busy))
           0%nat 0 PipelineHandlerIPU3.new).
  - vm_compute. reflexivity.
  - reflexivity.
  - intros [| [| ptr]] media Hl Hm.
    + reflexivity.
    + injection Hl as <-. vm_compute in Hm. discriminate Hm.
    + discriminate Hl.
Defined.

(** ** configureStreams on any driver *)

(** One device call of a configure function: the answer of the driver is
    named, and the call either failed, which ends the function, or
    returned 0. *)
Ltac answer_step :=
  match goal with
  | |- context [match ?call with pair _ _ => _ end] =>
      let ret := fresh "ret" in
      let ans := fresh "ans" in
      let Hne := fresh "Hne" in
      destruct call as [ret ans];
      destruct (Z.eqb_spec ret 0) as [-> | Hne]; cbn [negb Z.eqb fst snd];
      [| rewrite ?(proj2 (Z.eqb_neq ret 0) Hne); cbn [negb];
         intros ?; simplify_eq]
  end.

(** The end of a run of [configureStreams]: the calls made and what they
    were answered. *)
Ltac trace_end :=
  do 2 eexists;
  split; [rewrite <- ?app_assoc; reflexivity |];
  cbn [app length answers drv_answer Nat.sub replicate];
  repeat match goal with
         | E : _ = (_, _) |- _ => rewrite E; clear E
         end;
  cbn [fst];
  split; [lia |]; split; [try done |]; split; [try done |]; try done.

(** One device call, answered 0 or not. *)
Ltac trace_step :=
  match goal with
  | |- context [match ?call with pair _ _ => _ end] =>
      let ret := fresh "ret" in
      let ans := fresh "ans" in
      let Hne := fresh "Hne" in
      let E := fresh "E" in
      destruct call as [ret ans] eqn:E;
      destruct (Z.eqb_spec ret 0) as [-> | Hne]; cbn [negb Z.eqb fst snd];
      [| rewrite ?(proj2 (Z.eqb_neq ret 0) Hne); cbn [negb]; trace_end]
  end.

(** One device call of [configureStreams], when only the result is of
    interest. *)
Ltac run_step :=
  match goal with
  | |- context [match ?call with pair _ _ => _ end] =>
      let ret := fresh "ret" in
      let ans := fresh "ans" in
      let Hne := fresh "Hne" in
      destruct call as [ret ans];
      destruct (Z.eqb_spec ret 0) as [-> | Hne]; cbn [negb Z.eqb fst snd];
      [| rewrite ?(proj2 (Z.eqb_neq ret 0) Hne); cbn [negb];
         do 2 eexists; rewrite <- ?app_assoc; reflexivity]
  end.

Section Negotiation.
Context `{Driver}.

(** The devices of an initialised camera: no pointer the configure
    functions dereference is null, and the cached maximum size is positive. *)
Lemma initialised_devices cio2Media imguMedia id index data :
  initialised cio2Media imguMedia id index data →
  ∃ sensor csi2 cio2 name_ sub input output viewfinder stat,
    CIO2Device.sensor_ (IPU3CameraData.cio2_ data) = Some sensor
    ∧ CIO2Device.csi2_ (IPU3CameraData.cio2_ data) = Some csi2
    ∧ CIO2Device.output_ (IPU3CameraData.cio2_ data) = Some cio2
    ∧ 0 < Size.width (CIO2Device.maxSize_ (IPU3CameraData.cio2_ data))
    ∧ 0 < Size.height (CIO2Device.maxSize_ (IPU3CameraData.cio2_ data))
    ∧ IPU3CameraData.imgu_ data
      = Some (ImgUDevice.mk index name_ (Some sub) (Some input)
                (ImgUOutput.mk (Some output) ImgUDevice.PAD_OUTPUT "output")
                (ImgUOutput.mk (Some viewfinder) ImgUDevice.PAD_VF
                               "viewfinder")
                (ImgUOutput.mk (Some stat) ImgUDevice.PAD_STAT "stat")).
Proof.
  intros [Hcio2 (imgu & Himgu & Hinit)].
  apply CIO2Device_init_ok in Hcio2
    as (sensor & csi2 & output & Hcio2 & Hwidth).
  apply ImgUDevice_init_ok in Hinit
    as (name_ & sub & input & out & vf & stat & ->).
  rewrite Hcio2, Himgu.
  cbn [CIO2Device.sensor_ CIO2Device.csi2_ CIO2Device.output_
       CIO2Device.maxSize_].
  exists (subdev sensor), (subdev csi2), (videodev output), name_,
    (subdev sub), (videodev input), (videodev out), (videodev vf),
    (videodev stat).
  do 3 (split; [reflexivity |]).
  destruct (init_scan_fresh (drv_formats (subdev sensor) 0))
    as [Hnone | (c & _ & _ & Hscan & Hw & Hh)].
  - rewrite Hnone in Hwidth. done.
  - rewrite Hscan. cbn [fst Size.width Size.height]. done.
Qed.

(** X15: on a camera whose devices were initialised, whatever the devices
    answer, [configureStreams] dereferences no null pointer and makes at
    most twelve device calls.  When it makes none it returns -EINVAL: it
    rejected the size itself.  Otherwise every call but the last was
    answered 0 and the value returned is the answer to the last call: the
    function stops at the first call that fails, returns what that call
    returned, and undoes nothing of what the calls before it configured.
    It returns 0 only after all twelve calls. *)
Theorem configureStreams_all_or_error cio2Media imguMedia id index data
    config w :
  initialised cio2Media imguMedia id index data →
  ∃ ret calls,
    configureStreams data config w
    = Some ((ret,
             fst (map_subscript StreamConfiguration.zero config
                                (IPU3CameraData.stream_ data))),
            w ++ calls)
    ∧ (length calls <= 12)%nat
    ∧ (calls = [] → ret = - EINVAL)
    ∧ (calls ≠ [] →
       answers w calls = replicate (length calls - 1) 0 ++ [ret])
    ∧ (ret = 0 → length calls = 12%nat).
Proof.
  intros (sensor & csi2 & cio2 & name_ & sub & input & output & viewfinder
          & stat & Hsensor & Hcsi2 & Hout & _ & _ & Himgu)%initialised_devices.
  unfold configureStreams.
  destruct (map_subscript _ _ _) as [config' cfg]. cbn [fst].
  rewrite Himgu.
  destruct (_ || _).
  { exists (- EINVAL), []. rewrite app_nil_r. cbn. repeat split; done || lia. }
  destruct (_ || _).
  { exists (- EINVAL), []. rewrite app_nil_r. cbn. repeat split; done || lia. }
  unfold CIO2Device_configure, ImgUDevice_configureInput,
    ImgUDevice_configureOutput, bind_M, ret_M, deref, subdev_setFormat,
    subdev_setCrop, subdev_setCompose, dev_setFormat, subdev_formats.
  rewrite Hsensor, Hcsi2, Hout.
  cbn [ImgUDevice.imgu_ ImgUDevice.input_ ImgUDevice.output
       ImgUDevice.output_ ImgUDevice.viewfinder_ ImgUDevice.stat_
       ImgUOutput.dev ImgUOutput.pad ImgUDevice.is_stat].
  cbn zeta.
  do 12 trace_step.
  trace_end.
Qed.

(** X16: a configuration map with no entry for the camera's stream is not
    rejected.  [config[&data->stream_]] inserts an all-zero configuration
    into the caller's map, the size 0x0 passes the alignment and the
    maximum-size checks, and the handler goes on to the devices: the sensor
    is asked for the format the scan selects for a 0x0 request. *)
Theorem configureStreams_missing_key cio2Media imguMedia id index data config
    w sensor :
  initialised cio2Media imguMedia id index data →
  CIO2Device.sensor_ (IPU3CameraData.cio2_ data) = Some sensor →
  config !! IPU3CameraData.stream_ data = None →
  ∃ ret calls,
    configureStreams data config w
    = Some ((ret,
             <[IPU3CameraData.stream_ data := StreamConfiguration.zero]>
               config),
            w ++ SubdevSetFormat sensor 0
                   (snd (configure_scan (drv_formats sensor 0)
                                        StreamConfiguration.zero))
                 :: calls).
Proof.
  intros (sensor' & csi2 & cio2 & name_ & sub & input & output & viewfinder
          & stat & _ & Hcsi2 & Hout & Hw & Hh & Himgu)%initialised_devices
         Hsensor Hnone.
  unfold configureStreams, map_subscript. rewrite Hnone, Himgu.
  cbn [StreamConfiguration.zero StreamConfiguration.width
       StreamConfiguration.height].
  change (negb (0 mod 8 =? 0) || negb (0 mod 4 =? 0)) with false.
  cbn match.
  destruct (Z.gtb_spec 0 (Size.width (CIO2Device.maxSize_
                                        (IPU3CameraData.cio2_ data))));
    [lia |].
  destruct (Z.gtb_spec 0 (Size.height (CIO2Device.maxSize_
                                         (IPU3CameraData.cio2_ data))));
    [lia |].
  cbn [orb].
  unfold CIO2Device_configure, ImgUDevice_configureInput,
    ImgUDevice_configureOutput, bind_M, ret_M, deref, subdev_setFormat,
    subdev_setCrop, subdev_setCompose, dev_setFormat, subdev_formats.
  rewrite Hsensor, Hcsi2, Hout.
  cbn [ImgUDevice.imgu_ ImgUDevice.input_ ImgUDevice.output
       ImgUDevice.output_ ImgUDevice.viewfinder_ ImgUDevice.stat_
       ImgUOutput.dev ImgUOutput.pad ImgUDevice.is_stat].
  cbn zeta.
  do 12 run_step.
  do 2 eexists. rewrite <- ?app_assoc. reflexivity.
Qed.


(** X17: when [configureStreams] returns 0, whatever the devices made of
    the formats they were given, the calls are these twelve, each format
    being the one the device before it in the chain left behind: the CSI-2
    receiver gets what the sensor answered, the CIO2 output the size and
    code the receiver answered, the ImgU input what the CIO2 output
    answered, the crop rectangle is the size the ImgU input answered and
    the compose rectangle what the crop left.  The ImgU input pad and the
    three output pads get the requested size with the fixed media-bus
    code, the output and viewfinder nodes the requested size in NV12 with
    two planes, and the statistics video node gets no format.  The
    configuration map is unchanged. *)
Theorem configureStreams_propagates data config cfg w config' w' sensor csi2
    cio2 imgu sub input output viewfinder :
  CIO2Device.sensor_ (IPU3CameraData.cio2_ data) = Some sensor →
  CIO2Device.csi2_ (IPU3CameraData.cio2_ data) = Some csi2 →
  CIO2Device.output_ (IPU3CameraData.cio2_ data) = Some cio2 →
  IPU3CameraData.imgu_ data = Some imgu →
  ImgUDevice.imgu_ imgu = Some sub →
  ImgUDevice.input_ imgu = Some input →
  ImgUOutput.dev (ImgUDevice.output_ imgu) = Some output →
  ImgUOutput.dev (ImgUDevice.viewfinder_ imgu) = Some viewfinder →
  config !! IPU3CameraData.stream_ data = Some cfg →
  configureStreams data config w = Some ((0, config'), w') →
  let requested :=
    V4L2SubdeviceFormat.mk MEDIA_BUS_FMT_FIXED
      (StreamConfiguration.width cfg) (StreamConfiguration.height cfg) in
  let nv12 :=
    V4L2DeviceFormat.mk (StreamConfiguration.width cfg)
      (StreamConfiguration.height cfg) V4L2_PIX_FMT_NV12 2 in
  let sel := snd (configure_scan (drv_formats sensor 0) cfg) in
  let w1 := w ++ [SubdevSetFormat sensor 0 sel] in
  let f1 := snd (drv_setFormat w sensor 0 sel) in
  let w2 := w1 ++ [SubdevSetFormat csi2 0 f1] in
  let f2 := snd (drv_setFormat w1 csi2 0 f1) in
  let raw :=
    V4L2DeviceFormat.mk (V4L2SubdeviceFormat.width f2)
      (V4L2SubdeviceFormat.height f2)
      (u32 (mediaBusToFormat (V4L2SubdeviceFormat.mbus_code f2))) 1 in
  let w3 := w2 ++ [DevSetFormat cio2 raw] in
  let f3 := snd (drv_devSetFormat w2 cio2 raw) in
  let w4 := w3 ++ [DevSetFormat input f3] in
  let f4 := snd (drv_devSetFormat w3 input f3) in
  let rect :=
    Rectangle.mk 0 0 (V4L2DeviceFormat.width f4)
                 (V4L2DeviceFormat.height f4) in
  let w5 := w4 ++ [SubdevSetCrop sub ImgUDevice.PAD_INPUT rect] in
  let r5 := snd (drv_setCrop w4 sub ImgUDevice.PAD_INPUT rect) in
  config' = config
  ∧ w' = w5
         ++ [ SubdevSetCompose sub ImgUDevice.PAD_INPUT r5;
              SubdevSetFormat sub ImgUDevice.PAD_INPUT requested;
              SubdevSetFormat sub (ImgUOutput.pad (ImgUDevice.output_ imgu))
                              requested;
              DevSetFormat output nv12;
              SubdevSetFormat sub
                (ImgUOutput.pad (ImgUDevice.viewfinder_ imgu)) requested;
              DevSetFormat viewfinder nv12;
              SubdevSetFormat sub (ImgUOutput.pad (ImgUDevice.stat_ imgu))
                              requested ].
Proof.
  intros Hsensor Hcsi2 Hout Himgu Hsub Hinput Houtput Hvf Hcfg.
  unfold configureStreams, map_subscript. rewrite Hcfg, Himgu.
  destruct (_ || _); [by intros [= ? ? ?] |].
  destruct (_ || _); [by intros [= ? ? ?] |].
  unfold CIO2Device_configure, ImgUDevice_configureInput,
    ImgUDevice_configureOutput, bind_M, ret_M, deref, subdev_setFormat,
    subdev_setCrop, subdev_setCompose, dev_setFormat, subdev_formats.
  cbn [ImgUDevice.output ImgUDevice.is_stat].
  rewrite Hsensor, Hcsi2, Hout, Hsub, Hinput, Houtput, Hvf.
  cbn zeta.
  do 12 answer_step.
  intros [= <- <-]. split; [done |]. by rewrite <- !app_assoc.
Qed.

(** X18: [CIO2Device::configure] uses the result of [mediaBusToFormat]
    without a test.  When the CSI-2 receiver leaves a media-bus code that
    is not one of the four raw Bayer codes, the function does not fail: it
    asks the CIO2 output for the pixel format 0xFFFFFFEA, which is -EINVAL
    as an unsigned 32-bit integer, and returns what that call returns. *)
Theorem CIO2Device_configure_unchecked_code this config outputFormat w sensor
    csi2 output f1 f2 :
  CIO2Device.sensor_ this = Some sensor →
  CIO2Device.csi2_ this = Some csi2 →
  CIO2Device.output_ this = Some output →
  let sel := snd (configure_scan (drv_formats sensor 0) config) in
  let w1 := w ++ [SubdevSetFormat sensor 0 sel] in
  let w2 := w1 ++ [SubdevSetFormat csi2 0 f1] in
  let raw :=
    V4L2DeviceFormat.mk (V4L2SubdeviceFormat.width f2)
                        (V4L2SubdeviceFormat.height f2) 0xFFFFFFEA 1 in
  drv_setFormat w sensor 0 sel = (0, f1) →
  drv_setFormat w1 csi2 0 f1 = (0, f2) →
  consumable (V4L2SubdeviceFormat.mbus_code f2) = false →
  CIO2Device_configure this config outputFormat w
  = Some ((fst (drv_devSetFormat w2 output raw),
           snd (drv_devSetFormat w2 output raw)),
          w2 ++ [DevSetFormat output raw]).
Proof.
  intros Hsensor Hcsi2 Hout sel w1 w2 raw Hf1 Hf2 Hcode.
  unfold CIO2Device_configure, bind_M, ret_M, deref, subdev_setFormat,
    dev_setFormat, subdev_formats.
  rewrite Hsensor, Hcsi2, Hout. fold sel. rewrite Hf1. cbn [negb Z.eqb].
  fold w1. rewrite Hf2. cbn [negb Z.eqb]. fold w2.
  assert (Hfourcc : u32 (mediaBusToFormat (V4L2SubdeviceFormat.mbus_code f2))
                    = 0xFFFFFFEA).
  { destruct (mediaBusToFormat_cases (V4L2SubdeviceFormat.mbus_code f2))
      as [[Hin _] | [_ ->]]; [| reflexivity].
    apply consumable_iff in Hin. congruence. }
  rewrite Hfourcc. fold raw.
  destruct (drv_devSetFormat w2 output raw) as [ret f]. cbn [fst snd].
  by destruct (Z.eqb_spec ret 0) as [-> |].
Qed.
End Negotiation.

Lemma configureStreams_all_or_error_witness :
  ∃ ret calls,
    @configureStreams Sample.driver Sample.data (Sample.config 1280 720) []
    = Some ((ret,
             fst (map_subscript StreamConfiguration.zero
                    (Sample.config 1280 720)
                    (IPU3CameraData.stream_ Sample.data))),
            [] ++ calls)
    ∧ (ret = 0 → length calls = 12%nat).
Proof.
  destruct (@configureStreams_all_or_error Sample.driver Sample.cio2Media
              Sample.imguMedia 0 0 Sample.data (Sample.config 1280 720) [])
    as (ret & calls & Hrun & _ & _ & _ & Hall).
  - exact Sample_initialised.
  - exists ret, calls. split; [exact Hrun | exact Hall].
Defined.

Lemma configureStreams_missing_key_witness :
  ∃ ret calls,
    @configureStreams Sample.driver Sample.data ∅ []
    = Some ((ret,
             <[0%nat := StreamConfiguration.zero]>
               (∅ : gmap Stream StreamConfiguration.t)),
            SubdevSetFormat (subdev "ov5670 10-0036") 0
              (V4L2SubdeviceFormat.mk MEDIA_BUS_FMT_SGRBG10_1X10 1280 720)
            :: calls).
Proof.
  destruct (@configureStreams_missing_key Sample.driver Sample.cio2Media
              Sample.imguMedia 0 0 Sample.data ∅ []
              (subdev "ov5670 10-0036"))
    as (ret & calls & Hrun).
  - exact Sample_initialised.
  - reflexivity.
  - reflexivity.
  - exists ret, calls. rewrite Hrun. reflexivity.
Defined.

Lemma configureStreams_propagates_witness :
  ∃ w',
    @configureStreams Sample.driver Sample.data (Sample.config 1280 720) []
    = Some ((0, Sample.config 1280 720), w')
    ∧ w' !! 3%nat
      = Some (DevSetFormat (videodev "ipu3-imgu 0 input")
                (V4L2DeviceFormat.mk 1280 720 V4L2_PIX_FMT_IPU3_SGRBG10 1)).
Proof.
  set (w' := default []
               (snd <$> @configureStreams Sample.driver Sample.data
                          (Sample.config 1280 720) [])).
  assert (Hrun : @configureStreams Sample.driver Sample.data
                   (Sample.config 1280 720) []
                 = Some ((0, Sample.config 1280 720), w'))
    by (vm_compute; reflexivity).
  destruct (@configureStreams_propagates Sample.driver Sample.data
              (Sample.config 1280 720)
              (StreamConfiguration.mk 1280 720 V4L2_PIX_FMT_NV12 4) []
              (Sample.config 1280 720) w' (subdev "ov5670 10-0036")
              (subdev "ipu3-csi2 0") (videodev "ipu3-cio2 0") Sample.imgu0
              (subdev "ipu3-imgu 0") (videodev "ipu3-imgu 0 input")
              (videodev "ipu3-imgu 0 output")
              (videodev "ipu3-imgu 0 viewfinder"))
    as [_ Hw'].
  - reflexivity.
  - reflexivity.
  - reflexivity.
  - reflexivity.
  - reflexivity.
  - reflexivity.
  - reflexivity.
  - reflexivity.
  - reflexivity.
  - exact Hrun.
  - exists w'. split; [exact Hrun |]. rewrite Hw'. vm_compute. reflexivity.
Defined.

Lemma CIO2Device_configure_unchecked_code_witness :
  @CIO2Device_configure SampleYuv.driver Sample.cio2
    (StreamConfiguration.mk 640 480 V4L2_PIX_FMT_NV12 4)
    V4L2DeviceFormat.zero []
  = Some ((0, V4L2DeviceFormat.mk 640 480 0xFFFFFFEA 1),
          [ SubdevSetFormat (subdev "ov5670 10-0036") 0
              V4L2SubdeviceFormat.zero;
            SubdevSetFormat (subdev "ipu3-csi2 0") 0 SampleYuv.format;
            DevSetFormat (videodev "ipu3-cio2 0")
              (V4L2DeviceFormat.mk 640 480 0xFFFFFFEA 1) ]).
Proof.
  apply (@CIO2Device_configure_unchecked_code SampleYuv.driver Sample.cio2
           (StreamConfiguration.mk 640 480 V4L2_PIX_FMT_NV12 4)
           V4L2DeviceFormat.zero [] (subdev "ov5670 10-0036")
           (subdev "ipu3-csi2 0") (videodev "ipu3-cio2 0") SampleYuv.format
           SampleYuv.format); reflexivity.
Defined.

(** ** The timer: stop after a move to another thread *)

(** X19: [stop] does not withdraw the invocation of [registerTimer] that
    [message] posted for a move to another thread.  A running timer that
    is moved and then stopped is not running and is held by no
    dispatcher, but the invocation is still pending: the next dispatch
    round of the new thread registers the timer again, with the deadline
    0 that [stop] left, and its [timeout] signal is emitted although the
    timer was stopped. *)
Theorem stop_after_thread_move this e target now :
  Timer.deadline_ this ≠ 0 →
  settled e →
  0 <= now →
  let stopped := Timer.stop (Timer.moveToThread target (this, e)) in
  let later := Timer.processEvents target now stopped in
  Timer.isRunning (fst stopped) = false
  ∧ Timer.dispatchers (snd stopped) = ∅
  ∧ Timer.inbox (snd stopped) = [Timer.registerTimer_method]
  ∧ Timer.timeouts (snd later)
    = Timer.timeouts e ++ [Timer.Timeout target].
Proof.
  intros Hrun [Hdisp Hinbox] Hnow. cbn zeta.
  unfold Timer.stop, Timer.moveToThread, Timer.message.
  cbn [Timer.is_ThreadMoveMessage].
  apply Z.eqb_neq in Hrun. rewrite Hrun. cbn [negb].
  destruct e as [t d i x].
  cbn [Timer.dispatchers Timer.inbox Timer.thread] in Hdisp, Hinbox. subst i.
  unfold Timer.Object_message, Timer.Object_invokeMethod,
    Timer.unregisterTimer, Timer.EventDispatcher_unregisterTimer, Timer.log.
  cbn [Timer.thread Timer.dispatchers Timer.inbox Timer.effects fst snd app
       Timer.interval_ Timer.deadline_].
  assert (Hnone : d ∖ {[ t ]} = (∅ : gset Timer.ThreadId))
    by (by apply subseteq_empty_difference_L).
  rewrite Hnone.
  assert (Hnone' : (∅ : gset Timer.ThreadId) ∖ {[ target ]} = ∅)
    by apply subseteq_empty_difference_L, empty_subseteq.
  rewrite Hnone'.
  split; [reflexivity |]. split; [reflexivity |]. split; [reflexivity |].
  unfold Timer.processEvents.
  cbn [Timer.thread Timer.dispatchers Timer.inbox Timer.effects fold_left
       Timer.invoke Timer.deadline_ Timer.interval_].
  rewrite Nat.eqb_refl.
  unfold Timer.registerTimer, Timer.EventDispatcher_registerTimer, Timer.log.
  cbn [Timer.thread Timer.dispatchers Timer.inbox Timer.effects].
  rewrite union_empty_r_L.
  rewrite decide_True by (by apply elem_of_singleton).
  destruct (Z.leb_spec 0 now) as [_ | ?]; [| lia].
  unfold Timer.timeouts, Timer.log.
  cbn [snd Timer.effects].
  rewrite !List.filter_app. cbn. by rewrite !app_nil_r.
Qed.


Lemma stop_after_thread_move_witness :
  let armed := Timer.start Sample.tp 1000 (Timer.new, Sample.timer_env) in
  let stopped := Timer.stop (Timer.moveToThread 1%nat armed) in
  Timer.isRunning (fst stopped) = false
  ∧ Timer.timeouts (snd (Timer.processEvents 1%nat 0 stopped))
    = [Timer.Timeout 1%nat].
Proof.
  destruct (stop_after_thread_move
              (fst (Timer.start Sample.tp 1000 (Timer.new, Sample.timer_env)))
              (snd (Timer.start Sample.tp 1000 (Timer.new, Sample.timer_env)))
              1%nat 0)
    as (Hstop & _ & _ & Hfire).
  - by vm_compute.
  - split; [| reflexivity]. cbn. by rewrite union_empty_r_L.
  - lia.
  - cbn zeta. split; [exact Hstop | exact Hfire].
Defined.
